(** * Ema-bot: decision-and-risk core of the 5-minute EMA crossover bot

    A shallow embedding of the parts of [trading_bot] that the properties
    below talk about: [config.py], [indicators.py], [risk_manager.py],
    [order_manager.py], [state_manager.py] and the stop ratchet of
    [trading_engine.py].

    Conventions of the embedding.
    - Python [float] quantities (prices, equity, risk amounts) are the
      rationals [Q] they denote; results are compared with [==].  Sizing,
      the daily loss limit, the don't-chase and gap guards and the slippage
      average round every operation to binary64 as Python does ([fadd],
      [fsub], [fmul], [fdiv] below); the other functions are taken in exact
      arithmetic.  NaN and infinities are outside the model.
    - Python [int] counters are [Z].
    - [datetime] values are integer microseconds since an arbitrary epoch
      (the resolution of [datetime]), calendar dates are day ordinals.
    - Exceptions are explicit: a fallible function returns [result].
    - A [dict] that is read by key, or summed over, is a [gmap]; the dict
      of active trades, which is iterated while the ledger is mutated, is an
      insertion-ordered association list, with the size check of CPython's
      dict iterator written out. *)

From Stdlib Require Import QArith Qabs Qround Qminmax ZArith List String.
From Stdlib Require Import Lia Lqa Qpower.
From stdpp Require Import gmap strings.
Import ListNotations.

Open Scope Q_scope.

(** ** Python prelude *)

Inductive exn : Type :=
| ZeroDivisionError
| IndexError
| RuntimeError (msg : string)
| JSONDecodeError.

Inductive result (A : Type) : Type :=
| Ok (a : A)
| Raise (e : exn).
Arguments Ok {A} a.
Arguments Raise {A} e.

Definition rbind {A B} (r : result A) (k : A -> result B) : result B :=
  match r with
  | Ok a => k a
  | Raise e => Raise e
  end.

Notation "x <-? r ; k" := (rbind r (fun x => k))
  (at level 100, r at next level, right associativity).

(** [a < b] and [a <= b] on floats, as booleans. *)
Definition Qltb (a b : Q) : bool := negb (Qle_bool b a).
Definition Qleb (a b : Q) : bool := Qle_bool a b.
Definition Qgtb (a b : Q) : bool := Qltb b a.
Definition Qgeb (a b : Q) : bool := Qleb b a.

(** Python's [max(a, b)] and [min(a, b)]: the first argument wins a tie. *)
Definition py_max (a b : Q) : Q := if Qgtb b a then b else a.
Definition py_min (a b : Q) : Q := if Qltb b a then b else a.

(** Python's [int(x)] on a float: truncation toward zero. *)
Definition py_int (x : Q) : Z := Z.quot (Qnum x) (Z.pos (Qden x)).

(** Float division: [ZeroDivisionError] on a zero divisor. *)
Definition py_div (a b : Q) : result Q :=
  if Qeq_bool b 0 then Raise ZeroDivisionError else Ok (a / b).

(** *** Binary64 arithmetic *)

(** Python's [float] is an IEEE 754 binary64 number and every arithmetic
    operation on floats returns the exact result rounded to the nearest such
    number, ties to the even significand.  A float is kept as the rational
    it denotes.  Results of magnitude 2^1024 and more, which Python turns
    into [inf], and [nan] are outside the model. *)

(** Rounding to the nearest integer, ties to even. *)
Definition round_even (x : Q) : Z :=
  let f := Qfloor x in
  match Qcompare (x - inject_Z f) (1 # 2) with
  | Lt => f
  | Gt => (f + 1)%Z
  | Eq => if Z.even f then f else (f + 1)%Z
  end.

(** For [x > 0], the exponent [e] with [2^e <= x < 2^(e+1)]. *)
Definition binade (x : Q) : Z :=
  let e0 := (Z.log2 (Qnum x) - Z.log2 (Z.pos (Qden x)))%Z in
  if Qle_bool (2 ^ e0) x then e0 else (e0 - 1)%Z.

(** The exponent of the unit in the last place: 53 bits of significand,
    and no exponent below that of the subnormal numbers. *)
Definition ulp_exp (x : Q) : Z := Z.max (binade x - 52) (-1074).

(** Rounding to a multiple of [2^k]. *)
Definition round_at (k : Z) (x : Q) : Q :=
  inject_Z (round_even (x / 2 ^ k)) * 2 ^ k.

Definition round_pos (x : Q) : Q := Qred (round_at (ulp_exp x) x).

(** The binary64 number nearest to [x]. *)
Definition round64 (x : Q) : Q :=
  match Qcompare x 0 with
  | Eq => 0
  | Gt => round_pos x
  | Lt => - round_pos (- x)
  end.

Arguments round64 : simpl never.

(** A decimal literal of the source, read as the float it denotes. *)
Definition f64 (literal : Q) : Q := round64 literal.

Definition fsub (a b : Q) : Q := round64 (a - b).
Definition fmul (a b : Q) : Q := round64 (a * b).

(** Float division of a non-zero divisor. *)
Definition fdiv (a b : Q) : Q := round64 (a / b).

(** Float division in binary64: [ZeroDivisionError] on a zero divisor. *)
Definition py_fdiv (a b : Q) : result Q :=
  if Qeq_bool b 0 then Raise ZeroDivisionError else Ok (fdiv a b).

(** [series.iloc[-k]] for [k >= 1]: the k-th sample from the end. *)
Definition iloc_back (s : list Q) (k : nat) : result Q :=
  if (length s <? k)%nat then Raise IndexError
  else match nth_error s (length s - k) with
       | Some x => Ok x
       | None => Raise IndexError
       end.

(** [series.iloc[-k:]]: the last [k] samples, all of them when there are
    fewer; [-0] is [0], so [k = 0] gives the whole series as well. *)
Definition iloc_tail (s : list Q) (k : nat) : list Q :=
  match k with
  | O => s
  | _ => skipn (length s - k) s
  end.

Definition Qsum (l : list Q) : Q := fold_left Qplus l 0.

(** *** Insertion-ordered dictionaries and their iterator

    A [dict] whose iteration order matters is the list of its items in
    insertion order, each key once. *)

Definition odict (V : Type) : Type := list (string * V).

Definition dict_get {V} (k : string) (d : odict V) : option V :=
  match List.find (fun kv => String.eqb (fst kv) k) d with
  | Some kv => Some (snd kv)
  | None => None
  end.

Definition dict_contains {V} (k : string) (d : odict V) : bool :=
  existsb (fun kv => String.eqb (fst kv) k) d.

(** [d[k] = v]: an existing key keeps its place, a new key goes last. *)
Fixpoint dict_set {V} (k : string) (v : V) (d : odict V) : odict V :=
  match d with
  | [] => [(k, v)]
  | (k', v') :: rest =>
      if String.eqb k' k then (k, v) :: rest
      else (k', v') :: dict_set k v rest
  end.

(** [del d[k]] for a key that is present. *)
Definition dict_del {V} (k : string) (d : odict V) : odict V :=
  List.filter (fun kv => negb (String.eqb (fst kv) k)) d.

(** CPython's dict iterator: the size of the dict when the iterator was
    made and the position of the next entry.  Every [next()] first compares
    the remembered size with the live dict and raises [RuntimeError] when
    they differ; only then does it look for the next entry.  Positions index
    the live item list, which agrees with CPython as long as the size check
    passes and no key has been deleted and another inserted in between. *)
Record dictiter : Type := mkDictiter { di_used : nat; di_pos : nat }.

Definition dict_iter {V} (d : odict V) : dictiter :=
  {| di_used := length d; di_pos := 0 |}.

Definition dictiter_next {V} (d : odict V) (it : dictiter)
  : result (option ((string * V) * dictiter)) :=
  if negb (length d =? di_used it)%nat
  then Raise (RuntimeError "dictionary changed size during iteration")
  else match nth_error d (di_pos it) with
       | Some kv =>
           Ok (Some (kv, {| di_used := di_used it; di_pos := S (di_pos it) |}))
       | None => Ok None
       end.

(** ** config.py *)

Module config.

Definition RISK_PER_TRADE : Q := 0.0075.
Definition MIN_RISK_PER_TRADE : Q := 0.005.
Definition MAX_RISK_PER_TRADE : Q := 0.01.

Definition MAX_CONCURRENT_POSITIONS : Z := 5.

Definition MIN_STOP_SPREAD_MULTIPLIER : Q := 3.
Definition MIN_STOP_PERCENT : Q := 0.005.

Definition MAX_CONSECUTIVE_LOSSES : Z := 3.

Definition TSL_HIGH_VOL_ATR_MULT : Q := 1.5.
Definition TSL_LOW_VOL_ATR_MULT : Q := 2.5.

Definition MAX_DAILY_LOSS : Q := 0.03.
Definition VIX_THRESHOLD : Q := 30.
Definition SPY_ATR_CIRCUIT_BREAKER_MULT : Q := 2.

Definition EQUITY_CURVE_LOOKBACK : nat := 20.
Definition EQUITY_CURVE_BOOST : Q := 0.25.
Definition DRAWDOWN_RISK_REDUCTION : Q := 0.50.

Definition KILL_SWITCH_ERROR_COUNT : Z := 3.
Definition KILL_SWITCH_WINDOW_MINUTES : Z := 10.

Definition TRADING_UNIVERSE : list string :=
  ["AAPL"; "MSFT"; "GOOGL"; "AMZN"; "NVDA"; "META"; "TSLA"; "BRK.B"; "JPM";
   "V"; "UNH"; "XOM"; "JNJ"; "WMT"; "MA"; "PG"; "HD"; "CVX"; "MRK"; "ABBV"].

(** *** Further parameters *)

Definition MAX_PYRAMID_ADDS : Z := 2.
Definition PYRAMID_PROFIT_THRESHOLD : Q := 1.
Definition MAX_PYRAMID_RISK_MULTIPLIER : Q := 1.5.

Definition PARTIAL_TAKE_PROFIT_R : Q := 1.5.
Definition PARTIAL_TAKE_PERCENT : Q := 0.50.

Definition MAX_RETRIES : nat := 3.
Definition RETRY_DELAYS : list Q := [1; 2; 4].
Definition RETRY_JITTER_MAX : Q := 0.5.

Definition PARTIAL_FILL_THRESHOLD : Q := 0.70.
Definition SLIPPAGE_SIZE_CAP : Q := 0.50.


(** Times of day, in microseconds since midnight (Dublin time). *)
Definition time_of_day (hour minute : Z) : Z :=
  ((hour * 3600 + minute * 60) * 1000000)%Z.

Definition MARKET_OPEN_DUBLIN : Z := time_of_day 14 30.
Definition MARKET_CLOSE_DUBLIN : Z := time_of_day 21 0.
Definition ENTRY_START_DUBLIN : Z := time_of_day 14 35.
Definition ENTRY_END_DUBLIN : Z := time_of_day 20 30.
Definition FLAT_BY_DUBLIN : Z := time_of_day 20 58.

Definition US_MARKET_HOLIDAYS : list string :=
  ["2024-01-01"; "2024-01-15"; "2024-02-19"; "2024-03-29"; "2024-05-27";
   "2024-06-19"; "2024-07-04"; "2024-09-02"; "2024-11-28"; "2024-12-25";
   "2025-01-01"; "2025-01-20"; "2025-02-17"; "2025-04-18"; "2025-05-26";
   "2025-06-19"; "2025-07-04"; "2025-09-01"; "2025-11-27"; "2025-12-25"].

End config.

(** ** indicators.py *)

Module indicators.

(** [detect_ema_crossover(fast_ema, slow_ema)]: (bullish, bearish). *)
Definition detect_ema_crossover (fast_ema slow_ema : list Q)
  : result (bool * bool) :=
  if (length fast_ema <? 2)%nat || (length slow_ema <? 2)%nat
  then Ok (false, false)
  else
    prev_fast <-? iloc_back fast_ema 2;
    prev_slow <-? iloc_back slow_ema 2;
    curr_fast <-? iloc_back fast_ema 1;
    curr_slow <-? iloc_back slow_ema 1;
    let bullish_cross := Qleb prev_fast prev_slow && Qgtb curr_fast curr_slow in
    let bearish_cross := Qgeb prev_fast prev_slow && Qltb curr_fast curr_slow in
    Ok (bullish_cross, bearish_cross).

(** [calculate_trailing_stop]; only the "high" regime uses the tight
    multiplier. *)
Definition calculate_trailing_stop
    (entry_price current_price atr : Q) (volatility_regime : string)
    (is_long : bool) (high_vol_mult low_vol_mult : Q) : Q :=
  let atr_mult :=
    if String.eqb volatility_regime "high" then high_vol_mult
    else low_vol_mult in
  let stop_distance := atr * atr_mult in
  if is_long then current_price - stop_distance
  else current_price + stop_distance.

(** The module-level [calculate_position_size]: no widening of the stop,
    zero shares for a zero stop distance.  [int()] truncates the quotient
    as the float division returns it. *)
Definition calculate_position_size
    (account_equity risk_percent entry_price stop_price : Q) : Z :=
  let stop_distance := Qabs (fsub entry_price stop_price) in
  if Qeq_bool stop_distance 0 then 0%Z
  else
    let risk_amount := fmul account_equity risk_percent in
    let shares := py_int (fdiv risk_amount stop_distance) in
    Z.max 1 shares.

(** Least-squares line through the points [(0, y0), (1, y1), ...]: the
    slope returned by [np.polyfit(x, y, 1)] for [x = arange(len(y))], in
    exact arithmetic. *)
Definition polyfit_slope (ys : list Q) : Q :=
  let n := inject_Z (Z.of_nat (length ys)) in
  let xs := map (fun i => inject_Z (Z.of_nat i)) (seq 0 (length ys)) in
  let sx := Qsum xs in
  let sy := Qsum ys in
  let sxy := Qsum (map (fun p => fst p * snd p) (combine xs ys)) in
  let sxx := Qsum (map (fun x => x * x) xs) in
  (n * sxy - sx * sy) / (n * sxx - sx * sx).

(** [calculate_equity_curve_slope], for a lookback of at least two days
    (the configured one is 20): [recent] then has [lookback] samples, so
    [recent.iloc[0]] exists and the fit is determined. *)
Definition calculate_equity_curve_slope
    (equity_values : list Q) (lookback : nat) : Q :=
  if (length equity_values <? lookback)%nat then 0
  else
    let recent := iloc_tail equity_values lookback in
    match recent with
    | [] => 0
    | first :: _ =>
        if Qeq_bool first 0 then 0
        else
          let normalized := map (fun e => (e / first - 1) * 100) recent in
          polyfit_slope normalized
    end.

(** [is_in_drawdown(current_equity, peak_equity, threshold=0.02)]. *)
Definition is_in_drawdown (current_equity peak_equity threshold : Q) : bool :=
  if Qeq_bool peak_equity 0 then false
  else
    let drawdown := (peak_equity - current_equity) / peak_equity in
    Qgtb drawdown threshold.

Definition is_in_drawdown_default_threshold : Q := 0.02.

(** *** Moving averages and the remaining pure helpers *)

(** [data.ewm(span=period, adjust=False).mean()]: the first value is the
    first sample, every later one is
    [(1 - alpha) * previous + alpha * sample] with [alpha = 2 / (span + 1)].
    pandas rejects a span below one with a ValueError, here [None]. *)
Definition ewm_alpha (span : Z) : Q := 2 / (inject_Z span + 1).

Fixpoint ewm_from (alpha prev : Q) (data : list Q) : list Q :=
  match data with
  | [] => []
  | x :: rest =>
      let y := (1 - alpha) * prev + alpha * x in
      y :: ewm_from alpha y rest
  end.

Definition calculate_ema (data : list Q) (period : Z) : option (list Q) :=
  if (period <? 1)%Z then None
  else Some (match data with
             | [] => []
             | x0 :: rest => x0 :: ewm_from (ewm_alpha period) x0 rest
             end).

(** [data.rolling(window=period).mean()] for a window of at least one
    sample: NaN ([None]) until the window is full, then the mean of the last
    [period] samples. *)
Definition rolling_mean_at (data : list Q) (period i : nat) : option Q :=
  if (S i <? period)%nat then None
  else
    let window := firstn period (skipn (S i - period) data) in
    Some (Qsum window / inject_Z (Z.of_nat period)).

Definition calculate_sma (data : list Q) (period : nat) : list (option Q) :=
  map (rolling_mean_at data period) (seq 0 (length data)).

(** [is_trend_bullish] and [is_trend_bearish]. *)
Definition is_trend_bullish (fast_ema slow_ema : list Q) : result bool :=
  if (length fast_ema <? 1)%nat || (length slow_ema <? 1)%nat then Ok false
  else
    curr_fast <-? iloc_back fast_ema 1;
    curr_slow <-? iloc_back slow_ema 1;
    Ok (Qgtb curr_fast curr_slow).

Definition is_trend_bearish (fast_ema slow_ema : list Q) : result bool :=
  if (length fast_ema <? 1)%nat || (length slow_ema <? 1)%nat then Ok false
  else
    curr_fast <-? iloc_back fast_ema 1;
    curr_slow <-? iloc_back slow_ema 1;
    Ok (Qltb curr_fast curr_slow).

(** [is_above_sma] and [is_below_sma]; the SMA series holds [None] where
    pandas holds NaN. *)
Definition is_above_sma (price : Q) (sma : list (option Q)) : bool :=
  match List.last sma None with
  | Some v => Qgtb price v
  | None => false
  end.

Definition is_below_sma (price : Q) (sma : list (option Q)) : bool :=
  match List.last sma None with
  | Some v => Qltb price v
  | None => false
  end.

Definition calculate_entry_to_ema_distance (entry_price ema_value : Q) : Q :=
  Qabs (fsub entry_price ema_value).

(** [check_dont_chase(entry_price, ema_value, atr, multiplier=0.75)]. *)
Definition check_dont_chase (entry_price ema_value atr multiplier : Q) : bool :=
  let distance := calculate_entry_to_ema_distance entry_price ema_value in
  let max_distance := fmul atr multiplier in
  Qleb distance max_distance.

Definition calculate_gap_percent (current_open previous_close : Q) : Q :=
  if Qeq_bool previous_close 0 then 0
  else fdiv (fsub current_open previous_close) previous_close.

(** [is_gap_day(gap_percent, threshold=0.01)]. *)
Definition is_gap_day (gap_percent threshold : Q) : bool :=
  Qgeb (Qabs gap_percent) threshold.

Definition calculate_r_multiple
    (entry_price current_price stop_distance : Q) (is_long : bool) : Q :=
  if Qeq_bool stop_distance 0 then 0
  else
    let pnl := if is_long then current_price - entry_price
               else entry_price - current_price in
    pnl / stop_distance.

End indicators.

(** ** risk_manager.py *)

Module risk_manager.

Record RiskManager : Type := mkRiskManager {
  daily_pnl : Q;
  daily_start_equity : Q;
  consecutive_losses : Z;
  peak_equity : Q;
  equity_history : list (Z * Q);
  trade_risk : gmap string Q;
  paused_until_next_session : bool;
  circuit_breaker_active : bool;
  last_session_date : option Z
}.

Definition __init__ : RiskManager :=
  {| daily_pnl := 0;
     daily_start_equity := 0;
     consecutive_losses := 0;
     peak_equity := 0;
     equity_history := [];
     trade_risk := ∅;
     paused_until_next_session := false;
     circuit_breaker_active := false;
     last_session_date := None |}.

Definition set_trade_risk (m : gmap string Q) (self : RiskManager) :=
  mkRiskManager (daily_pnl self) (daily_start_equity self)
    (consecutive_losses self) (peak_equity self) (equity_history self)
    m (paused_until_next_session self) (circuit_breaker_active self)
    (last_session_date self).

Definition set_consecutive_losses (n : Z) (self : RiskManager) :=
  mkRiskManager (daily_pnl self) (daily_start_equity self)
    n (peak_equity self) (equity_history self)
    (trade_risk self) (paused_until_next_session self)
    (circuit_breaker_active self) (last_session_date self).

Definition set_paused_until_next_session (b : bool) (self : RiskManager) :=
  mkRiskManager (daily_pnl self) (daily_start_equity self)
    (consecutive_losses self) (peak_equity self) (equity_history self)
    (trade_risk self) b (circuit_breaker_active self)
    (last_session_date self).

Definition set_circuit_breaker_active (b : bool) (self : RiskManager) :=
  mkRiskManager (daily_pnl self) (daily_start_equity self)
    (consecutive_losses self) (peak_equity self) (equity_history self)
    (trade_risk self) (paused_until_next_session self) b
    (last_session_date self).

Definition set_daily_pnl (p : Q) (self : RiskManager) :=
  mkRiskManager p (daily_start_equity self)
    (consecutive_losses self) (peak_equity self) (equity_history self)
    (trade_risk self) (paused_until_next_session self)
    (circuit_breaker_active self) (last_session_date self).

(** [initialize_day(equity)]; [today] is the value of [date.today()]. *)
Definition initialize_day (today : Z) (equity : Q) (self : RiskManager)
  : RiskManager :=
  let new_session :=
    match last_session_date self with
    | Some d => negb (d =? today)%Z
    | None => true
    end in
  let self1 :=
    if new_session then
      mkRiskManager 0 equity 0 (peak_equity self) (equity_history self)
        (trade_risk self) false false (Some today)
    else self in
  let peak := if Qgtb equity (peak_equity self1) then equity
              else peak_equity self1 in
  let hist := equity_history self1 ++ [(today, equity)] in
  let hist := if (30 <? length hist)%nat
              then skipn (length hist - 30) hist else hist in
  mkRiskManager (daily_pnl self1) (daily_start_equity self1)
    (consecutive_losses self1) peak hist (trade_risk self1)
    (paused_until_next_session self1) (circuit_breaker_active self1)
    (last_session_date self1).

Definition update_daily_pnl (pnl_change : Q) (self : RiskManager) :=
  set_daily_pnl (daily_pnl self + pnl_change) self.

Definition record_trade_result (is_win : bool) (self : RiskManager)
  : RiskManager :=
  if is_win then set_consecutive_losses 0 self
  else
    let self1 := set_consecutive_losses (consecutive_losses self + 1) self in
    if (config.MAX_CONSECUTIVE_LOSSES <=? consecutive_losses self1)%Z
    then set_paused_until_next_session true self1
    else self1.

(** Returns the updated manager and whether trading should be paused. *)
Definition check_daily_loss_limit (self : RiskManager)
  : RiskManager * bool :=
  if Qeq_bool (daily_start_equity self) 0 then (self, false)
  else
    let daily_return := fdiv (daily_pnl self) (daily_start_equity self) in
    if Qleb daily_return (- f64 config.MAX_DAILY_LOSS)
    then (set_paused_until_next_session true self, true)
    else (self, false).

Definition check_circuit_breaker
    (vix : option Q) (spy_atr_percent spy_atr_median : Q)
    (self : RiskManager) : RiskManager * bool :=
  let vix_high :=
    match vix with
    | Some v => negb (Qeq_bool v 0) && Qgtb v config.VIX_THRESHOLD
    | None => false
    end in
  if vix_high then (set_circuit_breaker_active true self, true)
  else if Qgtb spy_atr_percent
            (spy_atr_median * config.SPY_ATR_CIRCUIT_BREAKER_MULT)
  then (set_circuit_breaker_active true self, true)
  else (set_circuit_breaker_active false self, false).

Definition can_enter_new_trade (self : RiskManager) : bool :=
  if paused_until_next_session self then false
  else if circuit_breaker_active self then false
  else true.

Definition get_adjusted_risk_percent
    (current_equity : Q) (self : RiskManager) : Q :=
  let base_risk := config.RISK_PER_TRADE in
  if indicators.is_in_drawdown current_equity (peak_equity self)
       indicators.is_in_drawdown_default_threshold
  then
    let adjusted_risk := base_risk * (1 - config.DRAWDOWN_RISK_REDUCTION) in
    py_max config.MIN_RISK_PER_TRADE adjusted_risk
  else if (config.EQUITY_CURVE_LOOKBACK <=? length (equity_history self))%nat
          && Qgtb (indicators.calculate_equity_curve_slope
                     (map snd (equity_history self))
                     config.EQUITY_CURVE_LOOKBACK) 0.1
  then
    let adjusted_risk := base_risk * (1 + config.EQUITY_CURVE_BOOST) in
    py_min config.MAX_RISK_PER_TRADE adjusted_risk
  else base_risk.

(** The stop distance after the minimum-stop widening; the spread
    multiplier is an [int], which the product takes as it is. *)
Definition widened_stop_distance (entry_price stop_price median_spread : Q)
  : Q :=
  let stop_distance := Qabs (fsub entry_price stop_price) in
  let min_stop_spread :=
    fmul median_spread config.MIN_STOP_SPREAD_MULTIPLIER in
  let min_stop_percent := fmul entry_price (f64 config.MIN_STOP_PERCENT) in
  let min_stop := py_max min_stop_spread min_stop_percent in
  if Qltb stop_distance min_stop then min_stop else stop_distance.

(** [calculate_position_size] of the risk manager: (shares, actual_risk).
    The risk percent is the float nearest to what
    [get_adjusted_risk_percent] gives, which in each of its three branches
    (0.0075, 0.005 and 0.009375) is the float the code computes; [int()]
    truncates the quotient as the float division returns it, and the share
    count, an integer-valued float or one below 2^53, goes into the last
    product unchanged. *)
Definition calculate_position_size
    (account_equity entry_price stop_price median_spread : Q)
    (self : RiskManager) : result (Z * Q) :=
  let stop_distance :=
    widened_stop_distance entry_price stop_price median_spread in
  let risk_percent := f64 (get_adjusted_risk_percent account_equity self) in
  let risk_amount := fmul account_equity risk_percent in
  ratio <-? py_fdiv risk_amount stop_distance;
  let shares := py_int ratio in
  let shares := Z.max 1 shares in
  let actual_risk := fmul (inject_Z shares) stop_distance in
  Ok (shares, actual_risk).



Definition check_position_limit (current_positions : Z) : bool :=
  if (config.MAX_CONCURRENT_POSITIONS <=? current_positions)%Z
  then false else true.

Definition register_trade_risk
    (symbol : string) (risk_amount : Q) (self : RiskManager) :=
  set_trade_risk (<[symbol := risk_amount]> (trade_risk self)) self.

Definition unregister_trade_risk (symbol : string) (self : RiskManager) :=
  match trade_risk self !! symbol with
  | Some _ => set_trade_risk (delete symbol (trade_risk self)) self
  | None => self
  end.

(** *** Pyramiding *)

(** [can_pyramid]: the pyramided-risk limit is computed and not used. *)
Definition can_pyramid (symbol : string) (current_r_multiple : Q)
    (current_adds : Z) (self : RiskManager) : bool :=
  if (config.MAX_PYRAMID_ADDS <=? current_adds)%Z then false
  else if Qltb current_r_multiple config.PYRAMID_PROFIT_THRESHOLD then false
  else
    let base_risk := default 0 (trade_risk self !! symbol) in
    let max_pyramid_risk := base_risk * config.MAX_PYRAMID_RISK_MULTIPLIER in
    true.

(** [calculate_pyramid_size]: [0.5 ** current_adds] of the base size. *)
Definition calculate_pyramid_size (base_shares current_adds : Z) : Z :=
  let reduction_factor := 0.5 ^ current_adds in
  Z.max 1 (py_int (inject_Z base_shares * reduction_factor)).

End risk_manager.

(** ** order_manager.py: the error tracker behind the kill-switch *)

Module order_manager.

Record OrderManager : Type := mkOrderManager {
  error_count : Z;
  last_error_time : option Z
}.

Definition __init__ : OrderManager :=
  {| error_count := 0; last_error_time := None |}.

Definition microseconds_per_minute : Z := 60 * 1000000.

(** [_track_error()]; [now] is the value of [datetime.now()]. *)
Definition _track_error (now : Z) (self : OrderManager) : OrderManager :=
  let stale :=
    match last_error_time self with
    | Some last =>
        (config.KILL_SWITCH_WINDOW_MINUTES * microseconds_per_minute
           <? now - last)%Z
    | None => false
    end in
  let count := if stale then 0%Z else error_count self in
  {| error_count := (count + 1)%Z; last_error_time := Some now |}.

Definition should_trigger_kill_switch (self : OrderManager) : bool :=
  (config.KILL_SWITCH_ERROR_COUNT <=? error_count self)%Z.

(** *** Retries and slippage *)

(** [_retry_with_backoff(func)].  [func attempt] is what the call made at
    attempt number [attempt] does, [jitter attempt] the value drawn by
    [random.uniform(0, RETRY_JITTER_MAX)] after it failed.  The result is
    what the function returns or raises, the number of calls made and the
    total time slept. *)
Fixpoint _retry_loop {A} (attempts_left attempt : nat)
    (func : nat -> result A) (jitter : nat -> Q) (slept : Q)
  : result (option A) * nat * Q :=
  match attempts_left with
  | O => (Ok None, attempt, slept)
  | S attempts_left' =>
      match func attempt with
      | Ok a => (Ok (Some a), S attempt, slept)
      | Raise e =>
          if (attempt =? config.MAX_RETRIES - 1)%nat
          then (Raise e, S attempt, slept)
          else
            match nth_error config.RETRY_DELAYS attempt with
            | None => (Raise IndexError, S attempt, slept)
            | Some d =>
                let delay := d + jitter attempt in
                _retry_loop attempts_left' (S attempt) func jitter
                  (slept + delay)
            end
      end
  end.

Definition _retry_with_backoff {A} (func : nat -> result A)
    (jitter : nat -> Q) : result (option A) * nat * Q :=
  _retry_loop config.MAX_RETRIES 0 func jitter 0.


(** [adjust_size_for_slippage(base_size, observed_slippage,
    target_slippage)]. *)
Definition adjust_size_for_slippage (base_size : Z)
    (observed_slippage target_slippage : Q) : Z :=
  if Qleb observed_slippage 0 then base_size
  else
    let adjustment_ratio := target_slippage / observed_slippage in
    let adjustment_ratio :=
      py_max (1 - config.SLIPPAGE_SIZE_CAP)
        (py_min (1 + config.SLIPPAGE_SIZE_CAP) adjustment_ratio) in
    Z.max 1 (py_int (inject_Z base_size * adjustment_ratio)).

End order_manager.

(** ** state_manager.py *)

Module state_manager.

(** A persisted trade, with the keys [_execute_entry] writes;
    [partial_taken] is absent (falsy) until a partial exit. *)
Record Trade : Type := mkTrade {
  symbol : string;
  side : string;
  entry_price : Q;
  qty : Z;
  stop_price : Q;
  risk_amount : Q;
  entry_time : Z;
  ema_fast : Z;
  ema_slow : Z;
  vol_regime : string;
  pyramid_adds : Z;
  partial_taken : bool
}.

Definition set_stop_price (p : Q) (t : Trade) : Trade :=
  mkTrade (symbol t) (side t) (entry_price t) (qty t) p (risk_amount t)
    (entry_time t) (ema_fast t) (ema_slow t) (vol_regime t) (pyramid_adds t)
    (partial_taken t).

Definition set_qty (q : Z) (t : Trade) : Trade :=
  mkTrade (symbol t) (side t) (entry_price t) q (stop_price t) (risk_amount t)
    (entry_time t) (ema_fast t) (ema_slow t) (vol_regime t) (pyramid_adds t)
    (partial_taken t).

Definition set_partial_taken (b : bool) (t : Trade) : Trade :=
  mkTrade (symbol t) (side t) (entry_price t) (qty t) (stop_price t)
    (risk_amount t) (entry_time t) (ema_fast t) (ema_slow t) (vol_regime t)
    (pyramid_adds t) b.

(** A position as [OrderManager.get_positions] reports it. *)
Record Position : Type := mkPosition {
  pos_symbol : string;
  pos_qty : Q;
  pos_side : string;
  avg_entry_price : Q;
  market_value : Q;
  unrealized_pl : Q;
  unrealized_plpc : Q;
  current_price : Q
}.

Record PendingStop : Type := mkPendingStop {
  order_id : string;
  pending_stop_price : Q;
  updated_at : Z
}.

Record State : Type := mkState {
  last_run : option Z;
  last_session_date : option Z;
  active_trades : odict Trade;
  pending_stops : gmap string PendingStop;
  daily_pnl : Q;
  daily_start_equity : Q;
  consecutive_losses : Z;
  peak_equity : Q;
  trade_counter : Z;
  ema_periods : gmap string (Z * Z);
  last_universe_update : option Z;
  universe : list string;
  error_count : Z;
  kill_switch_active : bool;
  paused_until_next_session : bool;
  circuit_breaker_active : bool;
  bars_since_entry : gmap string Z;
  observed_slippage : gmap string Q
}.

Definition _default_state : State :=
  {| last_run := None;
     last_session_date := None;
     active_trades := [];
     pending_stops := ∅;
     daily_pnl := 0;
     daily_start_equity := 0;
     consecutive_losses := 0;
     peak_equity := 0;
     trade_counter := 0;
     ema_periods := ∅;
     last_universe_update := None;
     universe := config.TRADING_UNIVERSE;
     error_count := 0;
     kill_switch_active := false;
     paused_until_next_session := false;
     circuit_breaker_active := false;
     bars_since_entry := ∅;
     observed_slippage := ∅ |}.

Definition set_last_run (t : option Z) (st : State) : State :=
  mkState t (last_session_date st) (active_trades st) (pending_stops st)
    (daily_pnl st) (daily_start_equity st) (consecutive_losses st)
    (peak_equity st) (trade_counter st) (ema_periods st)
    (last_universe_update st) (universe st) (error_count st)
    (kill_switch_active st) (paused_until_next_session st)
    (circuit_breaker_active st) (bars_since_entry st) (observed_slippage st).

Definition set_active_trades (d : odict Trade) (st : State) : State :=
  mkState (last_run st) (last_session_date st) d (pending_stops st)
    (daily_pnl st) (daily_start_equity st) (consecutive_losses st)
    (peak_equity st) (trade_counter st) (ema_periods st)
    (last_universe_update st) (universe st) (error_count st)
    (kill_switch_active st) (paused_until_next_session st)
    (circuit_breaker_active st) (bars_since_entry st) (observed_slippage st).

Definition set_pending_stops (m : gmap string PendingStop) (st : State)
  : State :=
  mkState (last_run st) (last_session_date st) (active_trades st) m
    (daily_pnl st) (daily_start_equity st) (consecutive_losses st)
    (peak_equity st) (trade_counter st) (ema_periods st)
    (last_universe_update st) (universe st) (error_count st)
    (kill_switch_active st) (paused_until_next_session st)
    (circuit_breaker_active st) (bars_since_entry st) (observed_slippage st).

Definition set_bars_since_entry (m : gmap string Z) (st : State) : State :=
  mkState (last_run st) (last_session_date st) (active_trades st)
    (pending_stops st) (daily_pnl st) (daily_start_equity st)
    (consecutive_losses st) (peak_equity st) (trade_counter st)
    (ema_periods st) (last_universe_update st) (universe st) (error_count st)
    (kill_switch_active st) (paused_until_next_session st)
    (circuit_breaker_active st) m (observed_slippage st).

(** The state file as [os.path.exists] and [json.load] see it: missing,
    present with text that [json.load] rejects, or present with the snapshot
    it decodes to. *)
Inductive state_file : Type :=
| NoFile
| Unparsable (raw : string)
| Parsable (snapshot : State).

Definition os_path_exists (f : state_file) : bool :=
  match f with NoFile => false | _ => true end.

Definition json_load (f : state_file) : result State :=
  match f with
  | Parsable snapshot => Ok snapshot
  | _ => Raise JSONDecodeError
  end.

(** [_load_state]: the [except Exception] clause logs the error and falls
    through to the default state. *)
Definition _load_state (f : state_file) : result State :=
  if os_path_exists f then
    match json_load f with
    | Ok state => Ok state
    | Raise _ => Ok _default_state
    end
  else Ok _default_state.

(** [save_state]: stamps [last_run]; the write to disk is not modelled. *)
Definition save_state (now : Z) (st : State) : State :=
  set_last_run (Some now) st.

Definition update_trade (now : Z) (trade_id : string) (trade_data : Trade)
    (st : State) : State :=
  save_state now
    (set_active_trades (dict_set trade_id trade_data (active_trades st)) st).

Definition remove_trade (now : Z) (trade_id : string) (st : State) : State :=
  let st1 :=
    if dict_contains trade_id (active_trades st)
    then set_active_trades (dict_del trade_id (active_trades st)) st
    else st in
  let st2 :=
    match bars_since_entry st1 !! trade_id with
    | Some _ =>
        set_bars_since_entry (delete trade_id (bars_since_entry st1)) st1
    | None => st1
    end in
  save_state now st2.

Definition get_active_trades (st : State) : odict Trade := active_trades st.

Definition update_stop (now : Z) (symbol : string) (stop_order_id : string)
    (stop_price : Q) (st : State) : State :=
  save_state now
    (set_pending_stops
       (<[symbol := {| order_id := stop_order_id;
                       pending_stop_price := stop_price;
                       updated_at := now |}]> (pending_stops st)) st).

Definition get_pending_stops (st : State) : gmap string PendingStop :=
  pending_stops st.

Record Discrepancies : Type := mkDiscrepancies {
  missing_in_state : list Position;
  missing_in_broker : list Trade;
  qty_mismatch : list (Position * Trade)
}.

(** The second loop of [reconcile_positions]:
    [for trade_id, trade in state_trades.items()], where [state_trades] is
    the very dict [remove_trade] deletes from.  [visits] bounds the number of
    loop bodies; started at the size of the dict it is never what ends the
    loop ([loop_bound_enough] below). *)
Fixpoint reconcile_stale_loop (visits : nat) (now : Z)
    (broker_symbols : gset string) (it : dictiter)
    (missing_in_broker : list Trade) (st : State)
  : State * result (list Trade) :=
  match dictiter_next (get_active_trades st) it with
  | Raise e => (st, Raise e)
  | Ok None => (st, Ok missing_in_broker)
  | Ok (Some ((trade_id, trade), it')) =>
      match visits with
      | O => (st, Ok missing_in_broker)
      | S visits' =>
          if bool_decide (symbol trade ∉ broker_symbols)
          then reconcile_stale_loop visits' now broker_symbols it'
                 (missing_in_broker ++ [trade]) (remove_trade now trade_id st)
          else reconcile_stale_loop visits' now broker_symbols it'
                 missing_in_broker st
      end
  end.

Definition reconcile_positions (now : Z) (broker_positions : list Position)
    (st : State) : State * result Discrepancies :=
  let state_trades := get_active_trades st in
  let state_symbols : gset string :=
    list_to_set (map (fun kv => symbol (snd kv)) state_trades) in
  let broker_symbols : gset string :=
    list_to_set (map pos_symbol broker_positions) in
  let missing_in_state :=
    List.filter (fun pos => bool_decide (pos_symbol pos ∉ state_symbols))
      broker_positions in
  let '(st', r) :=
    reconcile_stale_loop (length state_trades) now broker_symbols
      (dict_iter state_trades) [] st in
  (st', missing_in_broker <-? r;
        Ok {| missing_in_state := missing_in_state;
              missing_in_broker := missing_in_broker;
              qty_mismatch := [] |}).

(** *** The remaining mutators and readers *)


Definition set_kill_switch_active (b : bool) (st : State) : State :=
  mkState (last_run st) (last_session_date st) (active_trades st)
    (pending_stops st) (daily_pnl st) (daily_start_equity st)
    (consecutive_losses st) (peak_equity st) (trade_counter st)
    (ema_periods st) (last_universe_update st) (universe st) (error_count st)
    b (paused_until_next_session st)
    (circuit_breaker_active st) (bars_since_entry st) (observed_slippage st).

Definition set_paused_until_next_session (b : bool) (st : State) : State :=
  mkState (last_run st) (last_session_date st) (active_trades st)
    (pending_stops st) (daily_pnl st) (daily_start_equity st)
    (consecutive_losses st) (peak_equity st) (trade_counter st)
    (ema_periods st) (last_universe_update st) (universe st) (error_count st)
    (kill_switch_active st) b
    (circuit_breaker_active st) (bars_since_entry st) (observed_slippage st).

Definition set_error_count (n : Z) (st : State) : State :=
  mkState (last_run st) (last_session_date st) (active_trades st)
    (pending_stops st) (daily_pnl st) (daily_start_equity st)
    (consecutive_losses st) (peak_equity st) (trade_counter st)
    (ema_periods st) (last_universe_update st) (universe st) n
    (kill_switch_active st) (paused_until_next_session st)
    (circuit_breaker_active st) (bars_since_entry st) (observed_slippage st).

Definition remove_stop (now : Z) (symbol : string) (st : State) : State :=
  match pending_stops st !! symbol with
  | Some _ =>
      save_state now (set_pending_stops (delete symbol (pending_stops st)) st)
  | None => st
  end.

(** [increment_bars_held]: the new state and the new count. *)
Definition increment_bars_held (now : Z) (trade_id : string) (st : State)
  : State * Z :=
  let current := default 0%Z (bars_since_entry st !! trade_id) in
  (save_state now
     (set_bars_since_entry
        (<[trade_id := (current + 1)%Z]> (bars_since_entry st)) st),
   (current + 1)%Z).

Definition get_bars_held (trade_id : string) (st : State) : Z :=
  default 0%Z (bars_since_entry st !! trade_id).



(** [reset_for_new_session]; [today] is the value of [date.today()]. *)
Definition reset_for_new_session (now today : Z) (st : State) : State :=
  let same_day :=
    match last_session_date st with
    | Some d => (d =? today)%Z
    | None => false
    end in
  if same_day then st
  else
    save_state now
      (mkState (last_run st) (Some today) (active_trades st)
         (pending_stops st) 0 (daily_start_equity st) 0 (peak_equity st)
         (trade_counter st) (ema_periods st) (last_universe_update st)
         (universe st) 0 (kill_switch_active st) false false
         (bars_since_entry st) (observed_slippage st)).

Definition update_error_count (now : Z) (count : Z) (st : State) : State :=
  save_state now (set_error_count count st).

Definition set_kill_switch (now : Z) (active : bool) (st : State) : State :=
  save_state now (set_kill_switch_active active st).

Definition is_kill_switch_active (st : State) : bool := kill_switch_active st.

Definition set_paused (now : Z) (paused : bool) (st : State) : State :=
  save_state now (set_paused_until_next_session paused st).

Definition is_paused (st : State) : bool := paused_until_next_session st.

Definition set_circuit_breaker_active (b : bool) (st : State) : State :=
  mkState (last_run st) (last_session_date st) (active_trades st)
    (pending_stops st) (daily_pnl st) (daily_start_equity st)
    (consecutive_losses st) (peak_equity st) (trade_counter st)
    (ema_periods st) (last_universe_update st) (universe st) (error_count st)
    (kill_switch_active st) (paused_until_next_session st)
    b (bars_since_entry st) (observed_slippage st).

Definition set_circuit_breaker (now : Z) (active : bool) (st : State)
  : State :=
  save_state now (set_circuit_breaker_active active st).

End state_manager.

(** ** risk_manager.py: the gate that reads the venue's positions *)

Module risk_gates.

Import state_manager.




End risk_gates.

(** ** trading_engine.py: the trailing-stop ratchet of exit management *)

Module trading_engine.

Import state_manager.

(** Calls made to the venue through the order manager. *)
Inductive venue_call : Type :=
| CancelOrder (order_id : string)
| SubmitStopOrder (symbol : string) (qty : Z) (side : string) (stop_price : Q).

(** [_update_stop(trade_id, trade, new_stop)].  [submit_reply] is what
    [submit_stop_order] returns: the id of the new order, or [None] when the
    venue call failed.  The result is the state, the (mutated) trade dict and
    the venue calls made, in order. *)
Definition _update_stop (now : Z) (submit_reply : option string)
    (trade_id : string) (trade : Trade) (new_stop : Q) (st : State)
  : State * Trade * list venue_call :=
  let symbol := symbol trade in
  let is_long := String.eqb (side trade) "long" in
  let pending_stops := get_pending_stops st in
  let cancels :=
    match pending_stops !! symbol with
    | Some ps => [CancelOrder (order_id ps)]
    | None => []
    end in
  let stop_side := if is_long then "sell" else "buy" in
  let qty := qty trade in
  let calls := cancels ++ [SubmitStopOrder symbol qty stop_side new_stop] in
  match submit_reply with
  | Some new_order_id =>
      let trade' := set_stop_price new_stop trade in
      let st1 := update_trade now trade_id trade' st in
      let st2 := update_stop now symbol new_order_id new_stop st1 in
      (st2, trade', calls)
  | None => (st, trade, calls)
  end.

(** The "update trailing stop" step at the end of the loop body of
    [_manage_exits], for one open trade; [atr_last] is [atr.iloc[-1]]. *)
Definition _manage_exits_trailing_stop (now : Z) (submit_reply : option string)
    (trade_id : string) (trade : Trade) (current_price atr_last : Q)
    (st : State) : State * Trade * list venue_call :=
  let is_long := String.eqb (side trade) "long" in
  let new_stop :=
    indicators.calculate_trailing_stop (entry_price trade) current_price
      atr_last (vol_regime trade) is_long 1.5 2.5 in
  let current_stop := stop_price trade in
  if (is_long && Qgtb new_stop current_stop)
     || (negb is_long && Qltb new_stop current_stop)
  then _update_stop now submit_reply trade_id trade new_stop st
  else (st, trade, []).




(** The recomputed stop is strictly more favourable than the current one:
    higher for a long trade, lower for a short one. *)
Definition strictly_more_favorable (is_long : bool) (new_stop current_stop : Q)
  : Prop :=
  if is_long then current_stop < new_stop else new_stop < current_stop.

End trading_engine.

(** ** trading_engine.py: the loop, flattening and error handling *)

Module engine.

Import state_manager.

(** The engine's own fields and the three managers it drives. *)
Record TradingEngine : Type := mkEngine {
  eng_risk : risk_manager.RiskManager;
  eng_orders : order_manager.OrderManager;
  eng_state : State;
  daily_errors : Z;
  session_trades : list string;
  session_pnl : list Q
}.

Definition set_eng_risk (rm : risk_manager.RiskManager) (eng : TradingEngine)
  : TradingEngine :=
  mkEngine rm (eng_orders eng) (eng_state eng) (daily_errors eng)
    (session_trades eng) (session_pnl eng).

Definition set_eng_orders (om : order_manager.OrderManager)
    (eng : TradingEngine) : TradingEngine :=
  mkEngine (eng_risk eng) om (eng_state eng) (daily_errors eng)
    (session_trades eng) (session_pnl eng).

Definition set_eng_state (st : State) (eng : TradingEngine) : TradingEngine :=
  mkEngine (eng_risk eng) (eng_orders eng) st (daily_errors eng)
    (session_trades eng) (session_pnl eng).

Definition set_daily_errors (n : Z) (eng : TradingEngine) : TradingEngine :=
  mkEngine (eng_risk eng) (eng_orders eng) (eng_state eng) n
    (session_trades eng) (session_pnl eng).


(** What the engine asks of the venue and of the notifier in the functions
    below. *)
Inductive action : Type :=
| CloseAllPositions
| CancelAllOrders
| ClosePosition (symbol : string)
| SubmitMarketOrder (symbol : string) (qty : Z) (side : string)
| SendKillSwitchAlert
| SendDailyLossAlert
| SendCircuitBreakerAlert.

(** [is_market_open]; [weekday] is [now.weekday()] (Monday is 0),
    [today_str] the date as "%Y-%m-%d", [current_time] the time of day. *)
Definition is_market_open (weekday : Z) (today_str : string)
    (current_time : Z) : bool :=
  if (5 <=? weekday)%Z then false
  else if existsb (String.eqb today_str) config.US_MARKET_HOLIDAYS then false
  else (config.MARKET_OPEN_DUBLIN <=? current_time)%Z
       && (current_time <=? config.MARKET_CLOSE_DUBLIN)%Z.

Definition is_entry_allowed_time (current_time : Z) : bool :=
  (config.ENTRY_START_DUBLIN <=? current_time)%Z
  && (current_time <=? config.ENTRY_END_DUBLIN)%Z.

Definition should_flatten_positions (current_time : Z) : bool :=
  (config.FLAT_BY_DUBLIN <=? current_time)%Z.

(** [_flatten_all(reason)]: both loops run over a list of the keys taken
    before the loop starts. *)
Definition _flatten_all (now : Z) (eng : TradingEngine)
  : TradingEngine * list action :=
  let st := eng_state eng in
  let st1 :=
    fold_left (fun s trade_id => remove_trade now trade_id s)
      (map fst (get_active_trades st)) st in
  let st2 :=
    fold_left (fun s symbol => remove_stop now symbol s)
      (map fst (map_to_list (get_pending_stops st1))) st1 in
  (set_eng_state (set_paused now true st2) eng,
   [CloseAllPositions; CancelAllOrders]).

(** [_handle_error(error_msg)]. *)
Definition _handle_error (now : Z) (eng : TradingEngine)
  : TradingEngine * list action :=
  let eng1 := set_daily_errors (daily_errors eng + 1)%Z eng in
  let eng2 :=
    set_eng_state (update_error_count now (daily_errors eng1) (eng_state eng1))
      eng1 in
  if order_manager.should_trigger_kill_switch (eng_orders eng2) then
    let '(eng3, actions) := _flatten_all now eng2 in
    (set_eng_state (set_kill_switch now true (eng_state eng3)) eng3,
     actions ++ [SendKillSwitchAlert])
  else (eng2, []).


(** [_take_partial_profit(trade_id, trade, position, current_price)];
    [order_ok] says that [submit_market_order] returned an order, which
    tracks an error when it did not.  The result is the engine, the (mutated)
    trade dict and what was asked of the venue. *)
Definition _take_partial_profit (now : Z) (order_ok : bool)
    (trade_id : string) (trade : Trade) (position : Position)
    (eng : TradingEngine) : TradingEngine * Trade * list action :=
  let symbol := symbol trade in
  let is_long := String.eqb (side trade) "long" in
  let current_qty := py_int (pos_qty position) in
  let partial_qty :=
    py_int (inject_Z current_qty * config.PARTIAL_TAKE_PERCENT) in
  if (partial_qty <? 1)%Z then (eng, trade, [])
  else
    let side := if is_long then "sell" else "buy" in
    let asked := [SubmitMarketOrder symbol partial_qty side] in
    if order_ok then
      let trade' :=
        set_qty (current_qty - partial_qty) (set_partial_taken true trade) in
      (set_eng_state (update_trade now trade_id trade' (eng_state eng)) eng,
       trade', asked)
    else
      (set_eng_orders (order_manager._track_error now (eng_orders eng)) eng,
       trade, asked).

(** [run_loop].  The clock is read three times, by [is_market_open],
    [should_flatten_positions] and [is_entry_allowed_time]; [account] is the
    equity of the account snapshot, [None] when [get_account] failed (it
    then has tracked the error); [vix] and [spy] are what the data manager
    returned, [spy] holding the last ATR% of the reference index and its
    median, [None] when no bars came back.  [_manage_exits] and
    [_scan_for_entries] are taken as given: each returns the engine as it
    leaves it and whether it raised.  The result is the engine, the actions
    of the loop itself, and whether [_scan_for_entries] was called. *)
Definition run_loop (now weekday : Z) (today_str : string)
    (time_open time_flat time_entry : Z)
    (account vix : option Q) (spy : option (Q * Q))
    (_manage_exits _scan_for_entries :
       Q -> TradingEngine -> TradingEngine * bool)
    (eng : TradingEngine) : TradingEngine * list action * bool :=
  if is_kill_switch_active (eng_state eng) then (eng, [], false)
  else if negb (is_market_open weekday today_str time_open)
  then (eng, [], false)
  else
    match account with
    | None =>
        let eng0 :=
          set_eng_orders (order_manager._track_error now (eng_orders eng))
            eng in
        let '(eng', actions) := _handle_error now eng0 in
        (eng', actions, false)
    | Some equity =>
        let '(rm1, breached) :=
          risk_manager.check_daily_loss_limit (eng_risk eng) in
        let eng1 := set_eng_risk rm1 eng in
        if breached then
          let '(eng2, actions) := _flatten_all now eng1 in
          (eng2, actions ++ [SendDailyLossAlert], false)
        else
          let '(eng2, alerts) :=
            match spy with
            | None => (eng1, [])
            | Some (spy_atr_pct, spy_atr_median) =>
                let '(rm2, tripped) :=
                  risk_manager.check_circuit_breaker vix spy_atr_pct
                    spy_atr_median rm1 in
                let eng1' := set_eng_risk rm2 eng1 in
                if tripped
                then (set_eng_state
                        (set_circuit_breaker now true (eng_state eng1'))
                        eng1',
                      [SendCircuitBreakerAlert])
                else (eng1', [])
            end in
          let '(eng3, raised) := _manage_exits equity eng2 in
          if raised then
            let '(eng', actions) := _handle_error now eng3 in
            (eng', alerts ++ actions, false)
          else if should_flatten_positions time_flat then
            let '(eng4, actions) := _flatten_all now eng3 in
            (eng4, alerts ++ actions, false)
          else if is_entry_allowed_time time_entry
                  && risk_manager.can_enter_new_trade (eng_risk eng3)
                  && negb (is_paused (eng_state eng3))
          then
            let '(eng4, raised') := _scan_for_entries equity eng3 in
            if raised' then
              let '(eng', actions) := _handle_error now eng4 in
              (eng', alerts ++ actions, true)
            else
              (set_eng_state (save_state now (eng_state eng4)) eng4,
               alerts, true)
          else
            (set_eng_state (save_state now (eng_state eng3)) eng3,
             alerts, false)
    end.

End engine.

(** ** Sums over a risk table *)



(** ** Runs and scenarios

    Sequences of calls on the managers, as the engine makes them over a
    session, and the concrete states used in the examples. *)

Module scenarios.

(** The manager after a session opened at 100000. *)
Definition rm_peak_100000 : risk_manager.RiskManager :=
  risk_manager.initialize_day 19000 100000 risk_manager.__init__.

(** *** Calls on the risk manager *)

Inductive rm_op : Type :=
| InitializeDay (today : Z) (equity : Q)
| UpdateDailyPnl (pnl_change : Q)
| RecordTradeResult (is_win : bool)
| CheckDailyLossLimit
| CheckCircuitBreaker (vix : option Q) (spy_atr_percent spy_atr_median : Q)
| RegisterTradeRisk (symbol : string) (risk_amount : Q)
| UnregisterTradeRisk (symbol : string).

Definition rm_apply (op : rm_op) (self : risk_manager.RiskManager)
  : risk_manager.RiskManager :=
  match op with
  | InitializeDay today equity => risk_manager.initialize_day today equity self
  | UpdateDailyPnl pnl_change => risk_manager.update_daily_pnl pnl_change self
  | RecordTradeResult is_win => risk_manager.record_trade_result is_win self
  | CheckDailyLossLimit => fst (risk_manager.check_daily_loss_limit self)
  | CheckCircuitBreaker vix pct med =>
      fst (risk_manager.check_circuit_breaker vix pct med self)
  | RegisterTradeRisk symbol risk_amount =>
      risk_manager.register_trade_risk symbol risk_amount self
  | UnregisterTradeRisk symbol =>
      risk_manager.unregister_trade_risk symbol self
  end.

Fixpoint rm_run (ops : list rm_op) (self : risk_manager.RiskManager)
  : risk_manager.RiskManager :=
  match ops with
  | [] => self
  | op :: rest => rm_run rest (rm_apply op self)
  end.

(** A call rolls the session over when it is [initialize_day] on a date
    other than the manager's [last_session_date]. *)
Definition rolls_over (op : rm_op) (self : risk_manager.RiskManager) : bool :=
  match op with
  | InitializeDay today _ =>
      match risk_manager.last_session_date self with
      | Some d => negb (d =? today)%Z
      | None => true
      end
  | _ => false
  end.

Fixpoint same_session (ops : list rm_op) (self : risk_manager.RiskManager)
  : bool :=
  match ops with
  | [] => true
  | op :: rest =>
      negb (rolls_over op self) && same_session rest (rm_apply op self)
  end.

(** The losing trades recorded by a sequence of calls, and whether it
    records no winning trade. *)
Fixpoint count_losses (ops : list rm_op) : Z :=
  match ops with
  | [] => 0
  | RecordTradeResult false :: rest => (1 + count_losses rest)%Z
  | _ :: rest => count_losses rest
  end.

Definition no_wins (ops : list rm_op) : bool :=
  forallb (fun op => match op with
                     | RecordTradeResult true => false
                     | _ => true
                     end) ops.

(** Three losing exits at 100000 of starting equity, each followed by the
    daily-loss check of the next tick. *)
Definition three_losses : list rm_op :=
  [UnregisterTradeRisk "AAPL"; UpdateDailyPnl (-500); RecordTradeResult false;
   CheckDailyLossLimit;
   UnregisterTradeRisk "MSFT"; UpdateDailyPnl (-400); RecordTradeResult false;
   CheckDailyLossLimit; InitializeDay 19000 99100;
   UnregisterTradeRisk "NVDA"; UpdateDailyPnl (-300); RecordTradeResult false].

(** [n] losing trades recorded in a row. *)
Definition losses_in_a_row (n : nat) (self : risk_manager.RiskManager)
  : risk_manager.RiskManager :=
  Nat.iter n (risk_manager.record_trade_result false) self.

(** *** Entries and exits over a session *)







(** *** Tracked errors *)

(** [_track_error] called at each of the timestamps, in order. *)
Definition track_errors (timestamps : list Z)
    (self : order_manager.OrderManager) : order_manager.OrderManager :=
  fold_left (fun s now => order_manager._track_error now s) timestamps self.

Definition window_microseconds : Z :=
  config.KILL_SWITCH_WINDOW_MINUTES * order_manager.microseconds_per_minute.

(** Every error comes at most one window after the one before it. *)
Fixpoint gaps_within_window (timestamps : list Z) : bool :=
  match timestamps with
  | t :: (t' :: _) as rest =>
      (t' - t <=? window_microseconds)%Z && gaps_within_window rest
  | _ => true
  end.

(** All errors fall into one window: no two are further apart than it. *)
Definition within_one_window (timestamps : list Z) : Prop :=
  forall t t', In t timestamps -> In t' timestamps ->
               (t' - t <= window_microseconds)%Z.

Definition minutes (m : Z) : Z := m * order_manager.microseconds_per_minute.

End scenarios.

(** *** Ledger scenarios *)

Module ledger.

Import state_manager.

Definition long_trade (symbol : string) (qty : Z) (entry stop : Q) : Trade :=
  {| symbol := symbol; side := "long"; entry_price := entry; qty := qty;
     stop_price := stop; risk_amount := inject_Z qty * (entry - stop);
     entry_time := 0; ema_fast := 9; ema_slow := 21; vol_regime := "normal";
     pyramid_adds := 0; partial_taken := false |}.

Definition short_trade (symbol : string) (qty : Z) (entry stop : Q) : Trade :=
  {| symbol := symbol; side := "short"; entry_price := entry; qty := qty;
     stop_price := stop; risk_amount := inject_Z qty * (stop - entry);
     entry_time := 0; ema_fast := 9; ema_slow := 21; vol_regime := "normal";
     pyramid_adds := 0; partial_taken := false |}.

Definition long_position (symbol : string) (qty price : Q) : Position :=
  {| pos_symbol := symbol; pos_qty := qty; pos_side := "long";
     avg_entry_price := price; market_value := qty * price;
     unrealized_pl := 0; unrealized_plpc := 0; current_price := price |}.

(** A short position, which the venue reports with a negative quantity. *)
Definition short_position (symbol : string) (qty price : Q) : Position :=
  {| pos_symbol := symbol; pos_qty := - qty; pos_side := "short";
     avg_entry_price := price; market_value := - qty * price;
     unrealized_pl := 0; unrealized_plpc := 0; current_price := price |}.

(** A ledger holding the given trades and nothing else. *)
Definition with_trades (trades : odict Trade) : State :=
  set_active_trades trades _default_state.

(** One long AAPL trade, entered at 100 with its stop at 97 and a pending
    protective order at the venue. *)
Definition aapl_long : Trade := long_trade "AAPL" 250 100 97.

Definition aapl_open : State :=
  update_stop 1 "AAPL" "stop-1" 97
    (update_trade 0 "T1" aapl_long _default_state).

Definition tsla_short : Trade := short_trade "TSLA" 100 200 206.

Definition tsla_open : State :=
  update_stop 1 "TSLA" "stop-2" 206
    (update_trade 0 "T2" tsla_short _default_state).

(** [increment_bars_held] called on [n] successive bars. *)
Definition bars_elapsed (n : nat) (now : Z) (trade_id : string) (st : State)
  : State :=
  Nat.iter n (fun s => fst (increment_bars_held now trade_id s)) st.

(** An engine holding the given ledger, with fresh managers. *)
Definition engine_with (st : State) : engine.TradingEngine :=
  {| engine.eng_risk := risk_manager.__init__;
     engine.eng_orders := order_manager.__init__;
     engine.eng_state := st;
     engine.daily_errors := 0;
     engine.session_trades := [];
     engine.session_pnl := [] |}.

(** [_handle_error] called [n] times in a row. *)
Definition errors_handled (n : nat) (now : Z) (eng : engine.TradingEngine)
  : engine.TradingEngine :=
  Nat.iter n (fun e => fst (engine._handle_error now e)) eng.

(** [run_loop] at each of the given times of [now], all on one market day
    at the time of day [current_time], with [get_account] failing every
    time. *)
Definition loops_without_account (weekday : Z) (today_str : string)
    (current_time : Z) (ticks : list Z) (eng : engine.TradingEngine)
  : engine.TradingEngine :=
  fold_left
    (fun e now =>
       fst (fst (engine.run_loop now weekday today_str current_time
                   current_time current_time None None None
                   (fun _ e' => (e', false)) (fun _ e' => (e', false)) e)))
    ticks eng.

(** Two persisted trades and no position at the venue. *)
Definition two_stale : State :=
  set_bars_since_entry (<["T1" := 3%Z]> (<["T2" := 1%Z]> ∅))
    (with_trades [("T1", long_trade "AAPL" 250 100 97);
                  ("T2", long_trade "MSFT" 100 300 294)]).

(** The ledger holds 50 AAPL, the venue reports 100. *)
Definition aapl_50 : State :=
  with_trades [("T1", long_trade "AAPL" 50 100 97)].

Definition venue_aapl_100 : list Position := [long_position "AAPL" 100 100].

Definition size_changed : exn :=
  RuntimeError "dictionary changed size during iteration".

End ledger.

(** * Properties *)

(** ** Comparisons and rounding *)

Lemma Qltb_lt (a b : Q) : Qltb a b = true <-> a < b.
Proof.
  unfold Qltb. rewrite negb_true_iff.
  split.
  - intros H. apply Qnot_le_lt. intros Hle.
    apply Qle_bool_iff in Hle. congruence.
  - intros H. destruct (Qle_bool b a) eqn:E; [|reflexivity].
    apply Qle_bool_iff in E. exfalso. exact (Qlt_not_le _ _ H E).
Qed.

Lemma Qltb_ge (a b : Q) : Qltb a b = false <-> b <= a.
Proof.
  unfold Qltb. rewrite negb_false_iff. apply Qle_bool_iff.
Qed.

Lemma Qleb_le (a b : Q) : Qleb a b = true <-> a <= b.
Proof. apply Qle_bool_iff. Qed.

Lemma Qgtb_gt (a b : Q) : Qgtb a b = true <-> b < a.
Proof. apply Qltb_lt. Qed.

Lemma Qgtb_le (a b : Q) : Qgtb a b = false <-> a <= b.
Proof. apply Qltb_ge. Qed.

Lemma Qgeb_ge (a b : Q) : Qgeb a b = true <-> b <= a.
Proof. apply Qle_bool_iff. Qed.

Lemma py_max_Qmax (a b : Q) : py_max a b == Qmax a b.
Proof.
  unfold py_max. destruct (Qgtb b a) eqn:E.
  - apply Qgtb_gt in E. symmetry. apply Q.max_r. apply Qlt_le_weak, E.
  - apply Qgtb_le in E. symmetry. apply Q.max_l. exact E.
Qed.

Lemma py_max_ge_l (a b : Q) : a <= py_max a b.
Proof. rewrite py_max_Qmax. apply Q.le_max_l. Qed.

Lemma py_max_ge_r (a b : Q) : b <= py_max a b.
Proof. rewrite py_max_Qmax. apply Q.le_max_r. Qed.

(** [int(x)] and [floor(x)] agree on non-negative floats, and both are
    below one on negative floats, so [max(1, int(x)) = max(1, floor(x))]. *)
Lemma py_int_floor_nonneg (x : Q) : 0 <= x -> py_int x = Qfloor x.
Proof.
  destruct x as [n d]. unfold Qle, py_int, Qfloor. simpl.
  intros H. apply Z.quot_div_nonneg; lia.
Qed.

Lemma max1_py_int_floor (x : Q) : Z.max 1 (py_int x) = Z.max 1 (Qfloor x).
Proof.
  destruct (Qlt_le_dec x 0) as [Hneg | Hpos].
  - destruct x as [n d]. unfold Qlt, py_int, Qfloor in *. simpl in *.
    assert (Hq : (n ÷ Z.pos d <= 0)%Z).
    { apply Z.quot_le_upper_bound; lia. }
    assert (Hd : (n / Z.pos d < 0)%Z).
    { apply Z.div_lt_upper_bound; lia. }
    lia.
  - now rewrite py_int_floor_nonneg.
Qed.

(** ** Binary64 rounding *)

Lemma pow2_pos (k : Z) : 0 < 2 ^ k.
Proof. apply Qpower_0_lt. reflexivity. Qed.

Lemma pow2_add (a b : Z) : 2 ^ (a + b) == 2 ^ a * 2 ^ b.
Proof. apply Qpower_plus. discriminate. Qed.

Lemma pow2_le (a b : Z) : (a <= b)%Z -> 2 ^ a <= 2 ^ b.
Proof. intros H. apply Qpower_le_compat_l; [exact H | discriminate]. Qed.

Lemma pow2_lt_inv (a b : Z) : 2 ^ a < 2 ^ b -> (a < b)%Z.
Proof. intros H. apply (Qpower_lt_compat_l_inv 2); [exact H | reflexivity]. Qed.

Lemma pow2_inject (k : Z) : (0 <= k)%Z -> 2 ^ k == inject_Z (2 ^ k).
Proof. intros H. symmetry. apply (Zpower_Qpower 2 k H). Qed.

Lemma round_even_bounds (x : Q) :
  (Qfloor x <= round_even x <= Qfloor x + 1)%Z.
Proof.
  unfold round_even. destruct (Qcompare _ _); [destruct (Z.even _)| |]; lia.
Qed.

Lemma round_even_mono (x y : Q) : x <= y -> (round_even x <= round_even y)%Z.
Proof.
  intros Hxy. pose proof (Qfloor_resp_le x y Hxy) as Hfloor.
  destruct (Z.eq_dec (Qfloor x) (Qfloor y)) as [Heq | Hne].
  - unfold round_even. rewrite Heq.
    destruct (Qcompare_spec (x - inject_Z (Qfloor y)) (1 # 2)) as [Hx | Hx | Hx];
      destruct (Qcompare_spec (y - inject_Z (Qfloor y)) (1 # 2))
        as [Hy | Hy | Hy];
      try destruct (Z.even (Qfloor y)); try lia; exfalso; lra.
  - pose proof (round_even_bounds x). pose proof (round_even_bounds y). lia.
Qed.

Lemma round_even_Z (n : Z) : round_even (inject_Z n) = n.
Proof.
  unfold round_even. rewrite Qfloor_Z.
  replace (Qcompare (inject_Z n - inject_Z n) (1 # 2)) with Lt; [reflexivity|].
  symmetry. apply (proj1 (Qlt_alt _ _)).
  assert (E : inject_Z n - inject_Z n == 0) by ring.
  rewrite E. reflexivity.
Qed.

#[global] Instance round_even_comp : Proper (Qeq ==> eq) round_even.
Proof.
  intros x y Hxy. unfold round_even. rewrite (Qfloor_comp x y Hxy).
  replace (Qcompare (x - inject_Z (Qfloor y)) (1 # 2))
    with (Qcompare (y - inject_Z (Qfloor y)) (1 # 2)); [reflexivity|].
  apply Qcompare_comp; [now rewrite Hxy | reflexivity].
Qed.

#[global] Instance round_at_comp (k : Z) : Proper (Qeq ==> Qeq) (round_at k).
Proof.
  intros x y Hxy. unfold round_at.
  assert (E : x / 2 ^ k == y / 2 ^ k) by now rewrite Hxy.
  now rewrite (round_even_comp _ _ E).
Qed.

Lemma round_at_mono (k : Z) (x y : Q) :
  x <= y -> round_at k x <= round_at k y.
Proof.
  intros Hxy. unfold round_at. pose proof (pow2_pos k) as Hk.
  apply Qmult_le_compat_r; [|lra].
  rewrite <- Zle_Qle. apply round_even_mono.
  apply Qmult_le_compat_r; [exact Hxy|].
  apply Qlt_le_weak, Qinv_lt_0_compat, Hk.
Qed.

Lemma round_at_grid (k m : Z) : round_at k (inject_Z m * 2 ^ k) == inject_Z m * 2 ^ k.
Proof.
  unfold round_at. pose proof (pow2_pos k) as Hk.
  assert (E : inject_Z m * 2 ^ k / 2 ^ k == inject_Z m).
  { field. lra. }
  now rewrite (round_even_comp _ _ E), round_even_Z.
Qed.

Lemma binade_spec (x : Q) : 0 < x -> 2 ^ binade x <= x /\ x < 2 ^ (binade x + 1).
Proof.
  intros Hx. destruct x as [n d]. unfold binade. cbn [Qnum Qden].
  assert (Hn : (0 < n)%Z).
  { unfold Qlt in Hx. cbn in Hx. lia. }
  set (ln := Z.log2 n). set (ld := Z.log2 (Z.pos d)).
  destruct (Z.log2_spec n Hn) as [Hn1 Hn2]. fold ln in Hn1, Hn2.
  destruct (Z.log2_spec (Z.pos d) ltac:(lia)) as [Hd1 Hd2]. fold ld in Hd1, Hd2.
  assert (Hln : (0 <= ln)%Z) by apply Z.log2_nonneg.
  assert (Hld : (0 <= ld)%Z) by apply Z.log2_nonneg.
  assert (Hxq : n # d == inject_Z n / inject_Z (Z.pos d)) by apply Qmake_Qdiv.
  assert (Hdpos : 0 < inject_Z (Z.pos d)).
  { change 0 with (inject_Z 0). rewrite <- Zlt_Qlt. lia. }
  assert (Hn1q : 2 ^ ln <= inject_Z n).
  { rewrite (pow2_inject ln Hln), <- Zle_Qle. exact Hn1. }
  assert (Hn2q : inject_Z n < 2 ^ (ln + 1)).
  { rewrite (pow2_inject (ln + 1)) by lia. rewrite <- Zlt_Qlt. exact Hn2. }
  assert (Hd1q : 2 ^ ld <= inject_Z (Z.pos d)).
  { rewrite (pow2_inject ld Hld), <- Zle_Qle. exact Hd1. }
  assert (Hd2q : inject_Z (Z.pos d) < 2 ^ (ld + 1)).
  { rewrite (pow2_inject (ld + 1)) by lia. rewrite <- Zlt_Qlt. exact Hd2. }
  assert (Hupper : n # d < 2 ^ (ln - ld + 1)).
  { rewrite Hxq. apply Qlt_shift_div_r; [exact Hdpos|].
    assert (E : 2 ^ (ln + 1) == 2 ^ (ln - ld + 1) * 2 ^ ld).
    { rewrite <- pow2_add. now replace (ln - ld + 1 + ld)%Z with (ln + 1)%Z by lia. }
    pose proof (pow2_pos (ln - ld + 1)) as Hp.
    eapply Qlt_le_trans; [exact Hn2q|]. rewrite E.
    apply Qmult_le_l; [exact Hp | exact Hd1q]. }
  assert (Hlower : 2 ^ (ln - ld - 1) <= n # d).
  { rewrite Hxq. apply Qle_shift_div_l; [exact Hdpos|].
    assert (E : 2 ^ ln == 2 ^ (ln - ld - 1) * 2 ^ (ld + 1)).
    { rewrite <- pow2_add. now replace (ln - ld - 1 + (ld + 1))%Z with ln by lia. }
    pose proof (pow2_pos (ln - ld - 1)) as Hp.
    eapply Qle_trans; [|exact Hn1q]. rewrite E.
    apply Qmult_le_l; [exact Hp | apply Qlt_le_weak, Hd2q]. }
  destruct (Qle_bool (2 ^ (ln - ld)) (n # d)) eqn:E.
  - apply Qle_bool_iff in E. split; [exact E | exact Hupper].
  - assert (Hlt : n # d < 2 ^ (ln - ld)).
    { apply Qnot_le_lt. intros Hle. apply Qle_bool_iff in Hle. congruence. }
    split; [exact Hlower|].
    now replace (ln - ld - 1 + 1)%Z with (ln - ld)%Z by lia.
Qed.

Lemma binade_unique (x : Q) (e : Z) :
  2 ^ e <= x -> x < 2 ^ (e + 1) -> binade x = e.
Proof.
  intros Hlo Hhi.
  assert (Hx : 0 < x) by (eapply Qlt_le_trans; [apply (pow2_pos e) | exact Hlo]).
  destruct (binade_spec x Hx) as [Hlo' Hhi'].
  assert (binade x < e + 1)%Z
    by (apply pow2_lt_inv; eapply Qle_lt_trans; eassumption).
  assert (e < binade x + 1)%Z
    by (apply pow2_lt_inv; eapply Qle_lt_trans; eassumption).
  lia.
Qed.

Lemma binade_mono (x y : Q) : 0 < x -> x <= y -> (binade x <= binade y)%Z.
Proof.
  intros Hx Hxy.
  destruct (binade_spec x Hx) as [Hlo _].
  destruct (binade_spec y ltac:(lra)) as [_ Hhi].
  assert (binade x < binade y + 1)%Z by (apply pow2_lt_inv; lra).
  lia.
Qed.

Lemma binade_comp (x y : Q) : 0 < x -> x == y -> binade x = binade y.
Proof.
  intros Hx Hxy. symmetry. destruct (binade_spec x Hx) as [Hlo Hhi].
  apply binade_unique; now rewrite <- Hxy.
Qed.

Lemma round_pos_eq (x : Q) : round_pos x == round_at (ulp_exp x) x.
Proof. unfold round_pos. apply Qred_correct. Qed.

Lemma round_pos_comp (x y : Q) : 0 < x -> x == y -> round_pos x == round_pos y.
Proof.
  intros Hx Hxy. rewrite !round_pos_eq. unfold ulp_exp.
  rewrite (binade_comp x y Hx Hxy). now apply round_at_comp.
Qed.

Lemma round_pos_nonneg (x : Q) : 0 < x -> 0 <= round_pos x.
Proof.
  intros Hx. rewrite round_pos_eq. unfold round_at.
  pose proof (pow2_pos (ulp_exp x)) as Hk.
  apply Qmult_le_0_compat; [|lra].
  change 0 with (inject_Z 0). rewrite <- Zle_Qle.
  pose proof (round_even_bounds (x / 2 ^ ulp_exp x)) as Hb.
  assert (0 <= Qfloor (x / 2 ^ ulp_exp x))%Z; [|lia].
  change 0%Z with (Qfloor 0). apply Qfloor_resp_le.
  apply Qlt_le_weak, Qlt_shift_div_l; [exact Hk | lra].
Qed.

Lemma round_pos_mono (x y : Q) :
  0 < x -> x <= y -> round_pos x <= round_pos y.
Proof.
  intros Hx Hxy. rewrite !round_pos_eq.
  pose proof (binade_mono x y Hx Hxy) as He.
  destruct (binade_spec x Hx) as [_ Hxhi].
  destruct (binade_spec y ltac:(lra)) as [Hylo _].
  unfold ulp_exp.
  set (ex := binade x) in *. set (ey := binade y) in *.
  destruct (Z.eq_dec (Z.max (ex - 52) (-1074)) (Z.max (ey - 52) (-1074)))
    as [Hk | Hk].
  - rewrite Hk. now apply round_at_mono.
  - set (kx := Z.max (ex - 52) (-1074)) in *.
    set (ky := Z.max (ey - 52) (-1074)) in *.
    assert (Hky : ky = (ey - 52)%Z) by lia.
    assert (Hlt : (ex + 1 <= ey)%Z) by lia.
    assert (Hkx : (0 <= ey - kx)%Z) by lia.
    assert (Epx : 2 ^ ey == inject_Z (2 ^ (ey - kx)) * 2 ^ kx).
    { rewrite <- (pow2_inject _ Hkx), <- pow2_add.
      now replace (ey - kx + kx)%Z with ey by lia. }
    assert (Epy : 2 ^ ey == inject_Z (2 ^ 52) * 2 ^ ky).
    { rewrite <- (pow2_inject 52) by lia. rewrite <- pow2_add.
      now replace (52 + ky)%Z with ey by lia. }
    assert (Gx : round_at kx (2 ^ ey) == 2 ^ ey).
    { rewrite (round_at_comp kx _ _ Epx), round_at_grid. symmetry. exact Epx. }
    assert (Gy : round_at ky (2 ^ ey) == 2 ^ ey).
    { rewrite (round_at_comp ky _ _ Epy), round_at_grid. symmetry. exact Epy. }
    apply Qle_trans with (2 ^ ey).
    + eapply Qle_trans; [|apply Qle_lteq; right; exact Gx].
      apply round_at_mono. apply Qlt_le_weak.
      eapply Qlt_le_trans; [exact Hxhi | apply pow2_le; exact Hlt].
    + eapply Qle_trans; [apply Qle_lteq; right; symmetry; exact Gy|].
      apply round_at_mono. exact Hylo.
Qed.

Lemma round64_pos (x : Q) : 0 < x -> round64 x = round_pos x.
Proof.
  intros Hx. unfold round64.
  now rewrite (proj1 (Qgt_alt x 0) Hx).
Qed.

Lemma round64_neg (x : Q) : x < 0 -> round64 x = - round_pos (- x).
Proof.
  intros Hx. unfold round64.
  now rewrite (proj1 (Qlt_alt x 0) Hx).
Qed.

Lemma round64_zero (x : Q) : x == 0 -> round64 x = 0.
Proof.
  intros Hx. unfold round64.
  now rewrite (proj1 (Qeq_alt x 0) Hx).
Qed.

#[global] Instance round64_comp : Proper (Qeq ==> Qeq) round64.
Proof.
  intros x y Hxy.
  destruct (Q_dec x 0) as [[Hneg | Hpos] | Hzero].
  - rewrite (round64_neg x Hneg), (round64_neg y) by now rewrite <- Hxy.
    apply Qopp_comp. apply round_pos_comp; [lra | now rewrite Hxy].
  - rewrite (round64_pos x Hpos), (round64_pos y) by now rewrite <- Hxy.
    now apply round_pos_comp.
  - rewrite (round64_zero x Hzero), (round64_zero y) by now rewrite <- Hxy.
    reflexivity.
Qed.

Lemma round64_nonneg (x : Q) : 0 <= x -> 0 <= round64 x.
Proof.
  intros Hx. destruct (Qle_lt_or_eq _ _ Hx) as [Hpos | Hzero].
  - rewrite (round64_pos x Hpos). now apply round_pos_nonneg.
  - rewrite (round64_zero x) by now symmetry. apply Qle_refl.
Qed.

Lemma round64_opp (x : Q) : round64 (- x) == - round64 x.
Proof.
  destruct (Q_dec x 0) as [[Hneg | Hpos] | Hzero].
  - rewrite (round64_neg x Hneg), (round64_pos (- x)) by lra. ring.
  - rewrite (round64_pos x Hpos), (round64_neg (- x)) by lra.
    apply Qopp_comp. apply round_pos_comp; [lra | ring].
  - rewrite (round64_zero x Hzero), (round64_zero (- x)) by lra. reflexivity.
Qed.

Lemma round64_nonpos (x : Q) : x <= 0 -> round64 x <= 0.
Proof.
  intros Hx. pose proof (round64_nonneg (- x) ltac:(lra)) as H.
  rewrite round64_opp in H. lra.
Qed.

Lemma round64_mono (x y : Q) : x <= y -> round64 x <= round64 y.
Proof.
  intros Hxy.
  destruct (Q_dec x 0) as [[Hx | Hx] | Hx].
  - destruct (Q_dec y 0) as [[Hy | Hy] | Hy].
    + rewrite (round64_neg x Hx), (round64_neg y Hy).
      apply Qopp_le_compat. apply round_pos_mono; lra.
    + eapply Qle_trans; [apply round64_nonpos | apply round64_nonneg]; lra.
    + eapply Qle_trans; [apply round64_nonpos | apply round64_nonneg]; lra.
  - rewrite (round64_pos x Hx), (round64_pos y) by lra.
    now apply round_pos_mono.
  - rewrite (round64_zero x Hx). apply round64_nonneg. lra.
Qed.

Lemma round64_abs (x : Q) : Qabs (round64 x) == round64 (Qabs x).
Proof.
  destruct (Qlt_le_dec x 0) as [Hneg | Hpos].
  - rewrite (Qabs_neg x) by lra.
    rewrite Qabs_neg by (apply round64_nonpos; lra).
    now rewrite round64_opp.
  - rewrite (Qabs_pos x Hpos). apply Qabs_pos. now apply round64_nonneg.
Qed.

(** A positive multiple of its own unit in the last place is a float. *)
Lemma round64_grid (x : Q) (m : Z) :
  0 < x -> x == inject_Z m * 2 ^ ulp_exp x -> round64 x == x.
Proof.
  intros Hx Hgrid. rewrite (round64_pos x Hx), round_pos_eq.
  rewrite Hgrid at 2 3. apply round_at_grid.
Qed.

(** Integers up to 2^53 are floats. *)
Lemma round64_Z (n : Z) :
  (0 <= n <= 2 ^ 53)%Z -> round64 (inject_Z n) == inject_Z n.
Proof.
  intros [Hlo Hhi].
  destruct (Z.eq_dec n 0%Z) as [-> | Hne]; [reflexivity|].
  assert (Hpos : 0 < inject_Z n).
  { change 0 with (inject_Z 0). rewrite <- Zlt_Qlt. lia. }
  destruct (binade_spec _ Hpos) as [Hblo Hbhi].
  set (e := binade (inject_Z n)) in *.
  assert (He0 : (0 <= e)%Z).
  { assert (0 < e + 1)%Z; [|lia]. apply pow2_lt_inv.
    eapply Qle_lt_trans; [|exact Hbhi].
    change (2 ^ 0) with (inject_Z 1). rewrite <- Zle_Qle. lia. }
  assert (He53 : (e <= 53)%Z).
  { assert (e < 53 + 1)%Z; [|lia]. apply pow2_lt_inv.
    eapply Qle_lt_trans; [exact Hblo|].
    rewrite (pow2_inject (53 + 1)) by lia. rewrite <- Zlt_Qlt.
    change (2 ^ (53 + 1))%Z with (2 * 2 ^ 53)%Z. lia. }
  assert (Hk : ulp_exp (inject_Z n) = (e - 52)%Z) by (unfold ulp_exp; fold e; lia).
  destruct (Z_le_gt_dec e 52) as [Hsmall | Hbig].
  - apply (round64_grid _ (n * 2 ^ (52 - e))%Z Hpos).
    rewrite Hk, inject_Z_mult, <- (pow2_inject (52 - e)) by lia.
    rewrite <- Qmult_assoc, <- pow2_add.
    replace (52 - e + (e - 52))%Z with 0%Z by lia.
    change (2 ^ 0) with 1. ring.
  - assert (e = 53%Z) by lia.
    assert (Hn : n = (2 ^ 53)%Z).
    { apply Z.le_antisymm; [exact Hhi|].
      rewrite Zle_Qle, <- (pow2_inject 53) by lia. subst e. now rewrite <- H. }
    apply (round64_grid _ (2 ^ 52)%Z Hpos).
    rewrite Hk, H, Hn. reflexivity.
Qed.

(** Below 2^53 rounding moves a number no further than to the next
    integer. *)
Lemma round64_floor_bracket (x : Q) :
  0 <= x -> x < inject_Z (2 ^ 53) ->
  inject_Z (Qfloor x) <= round64 x <= inject_Z (Qfloor x + 1).
Proof.
  intros Hlo Hhi.
  assert (H0 : (0 <= Qfloor x)%Z).
  { change 0%Z with (Qfloor 0). now apply Qfloor_resp_le. }
  assert (H53 : (Qfloor x + 1 <= 2 ^ 53)%Z).
  { assert (Qfloor x < 2 ^ 53)%Z; [|lia].
    rewrite Zlt_Qlt. eapply Qle_lt_trans; [apply Qfloor_le | exact Hhi]. }
  split.
  - rewrite <- (round64_Z (Qfloor x)) by lia.
    apply round64_mono, Qfloor_le.
  - rewrite <- (round64_Z (Qfloor x + 1)) by lia.
    apply round64_mono, Qlt_le_weak, Qlt_floor.
Qed.

Lemma round_at_le_grid (k m : Z) (x : Q) :
  x <= inject_Z m * 2 ^ k -> round_at k x <= inject_Z m * 2 ^ k.
Proof.
  intros H. eapply Qle_trans; [apply round_at_mono, H|].
  rewrite round_at_grid. apply Qle_refl.
Qed.

Lemma round_at_ge_grid (k m : Z) (x : Q) :
  inject_Z m * 2 ^ k <= x -> inject_Z m * 2 ^ k <= round_at k x.
Proof.
  intros H. eapply Qle_trans; [|apply round_at_mono, H].
  rewrite round_at_grid. apply Qle_refl.
Qed.

Lemma pow2_split (e k : Z) :
  (k <= e)%Z -> 2 ^ e == inject_Z (2 ^ (e - k)) * 2 ^ k.
Proof.
  intros H. rewrite <- (pow2_inject (e - k)) by lia. rewrite <- pow2_add.
  now replace (e - k + k)%Z with e by lia.
Qed.

(** What [round_pos] returns is a multiple of its own unit in the last
    place. *)
Lemma round_pos_grid (x : Q) :
  0 < x -> 0 < round_pos x ->
  exists m, round_pos x == inject_Z m * 2 ^ ulp_exp (round_pos x).
Proof.
  intros Hx Hy.
  destruct (binade_spec x Hx) as [Hxlo Hxhi].
  destruct (binade_spec _ Hy) as [Hylo Hyhi].
  pose proof (round_pos_eq x) as Hyeq.
  set (y := round_pos x) in *.
  unfold ulp_exp in *.
  set (ex := binade x) in *. set (ey := binade y) in *.
  set (k := Z.max (ex - 52) (-1074)) in *.
  assert (Hm0 : y == inject_Z (round_even (x / 2 ^ k)) * 2 ^ k) by exact Hyeq.
  destruct (Z_le_gt_dec (-1074) (ex - 52)) as [Hnormal | Hsub].
  - assert (Hk : k = (ex - 52)%Z) by lia.
    assert (Hlow : 2 ^ ex <= y).
    { rewrite Hyeq, (pow2_split ex k) by lia. apply round_at_ge_grid.
      rewrite <- (pow2_split ex k) by lia. exact Hxlo. }
    assert (Hupp : y <= 2 ^ (ex + 1)).
    { rewrite Hyeq, (pow2_split (ex + 1) k) by lia. apply round_at_le_grid.
      rewrite <- (pow2_split (ex + 1) k) by lia. now apply Qlt_le_weak. }
    assert (H1 : (ex < ey + 1)%Z) by (apply pow2_lt_inv; lra).
    destruct (Z.eq_dec ey ex) as [Heq | Hne].
    + exists (round_even (x / 2 ^ k)).
      replace (Z.max (ey - 52) (-1074)) with k by lia. exact Hm0.
    + assert (H2 : (ey <= ex + 1)%Z).
      { apply (Qpower_le_compat_l_inv 2); [lra | reflexivity]. }
      assert (Hey : ey = (ex + 1)%Z) by lia.
      exists (2 ^ 52)%Z.
      replace (Z.max (ey - 52) (-1074)) with (ey - 52)%Z by lia.
      rewrite Hey in Hylo.
      assert (E : y == 2 ^ (ex + 1)) by lra.
      rewrite E, Hey. rewrite (pow2_split (ex + 1) (ex + 1 - 52)) by lia.
      now replace (ex + 1 - (ex + 1 - 52))%Z with 52%Z by lia.
  - assert (Hk : k = (-1074)%Z) by lia.
    assert (Hupp : y <= 2 ^ (-1022)).
    { rewrite Hyeq, (pow2_split (-1022) k) by lia. apply round_at_le_grid.
      rewrite <- (pow2_split (-1022) k) by lia.
      apply Qlt_le_weak. eapply Qlt_le_trans; [exact Hxhi|].
      apply pow2_le. lia. }
    assert (H2 : (ey <= -1022)%Z).
    { apply (Qpower_le_compat_l_inv 2); [lra | reflexivity]. }
    exists (round_even (x / 2 ^ k)).
    replace (Z.max (ey - 52) (-1074)) with k by lia. exact Hm0.
Qed.

(** Rounding a float changes nothing. *)
Lemma round64_idem (x : Q) : round64 (round64 x) == round64 x.
Proof.
  assert (Hpos : forall z, 0 < z -> round64 (round_pos z) == round_pos z).
  { intros z Hz.
    destruct (Qle_lt_or_eq _ _ (round_pos_nonneg z Hz)) as [Hy | Hy].
    - destruct (round_pos_grid z Hz Hy) as [m Hm].
      exact (round64_grid _ m Hy Hm).
    - rewrite <- Hy. reflexivity. }
  destruct (Q_dec x 0) as [[Hneg | Hp] | Hzero].
  - rewrite (round64_neg x Hneg), round64_opp.
    apply Qopp_comp, Hpos. lra.
  - rewrite (round64_pos x Hp). now apply Hpos.
  - rewrite (round64_zero x Hzero). reflexivity.
Qed.

Lemma Qleb_comp (a a' b b' : Q) : a == a' -> b == b' -> Qleb a b = Qleb a' b'.
Proof.
  intros Ha Hb. unfold Qleb.
  destruct (Qle_bool a b) eqn:E1; destruct (Qle_bool a' b') eqn:E2;
    try reflexivity.
  - apply Qle_bool_iff in E1. rewrite Ha, Hb in E1.
    apply Qle_bool_iff in E1. congruence.
  - apply Qle_bool_iff in E2. rewrite <- Ha, <- Hb in E2.
    apply Qle_bool_iff in E2. congruence.
Qed.

(** ** Crossover detection *)

Lemma iloc_back_last (s : list Q) (x : Q) : iloc_back (s ++ [x]) 1 = Ok x.
Proof.
  unfold iloc_back. rewrite length_app. simpl.
  replace (length s + 1 <? 1)%nat with false
    by (symmetry; apply Nat.ltb_ge; lia).
  replace (length s + 1 - 1)%nat with (length s + 0)%nat by lia.
  rewrite nth_error_app2 by lia.
  replace (length s + 0 - length s)%nat with 0%nat by lia. reflexivity.
Qed.

Lemma iloc_back_prev (s : list Q) (x y : Q) :
  iloc_back (s ++ [x; y]) 2 = Ok x.
Proof.
  unfold iloc_back. rewrite length_app. simpl.
  replace (length s + 2 <? 2)%nat with false
    by (symmetry; apply Nat.ltb_ge; lia).
  replace (length s + 2 - 2)%nat with (length s + 0)%nat by lia.
  rewrite nth_error_app2 by lia.
  replace (length s + 0 - length s)%nat with 0%nat by lia. reflexivity.
Qed.

Lemma iloc_back_last2 (s : list Q) (x y : Q) :
  iloc_back (s ++ [x; y]) 1 = Ok y.
Proof.
  change (s ++ [x; y]) with (s ++ [x] ++ [y]).
  rewrite app_assoc. apply iloc_back_last.
Qed.

(** A series with at least two samples ends in its last two samples. *)
Lemma last_two_samples (s : list Q) :
  (2 <= length s)%nat -> exists s0 prev curr, s = s0 ++ [prev; curr].
Proof.
  intros H.
  destruct (exists_last (l := s)) as [s1 [curr ->]].
  { intros ->. simpl in H. lia. }
  rewrite length_app in H. simpl in H.
  destruct (exists_last (l := s1)) as [s0 [prev ->]].
  { intros ->. simpl in H. lia. }
  exists s0, prev, curr. now rewrite <- app_assoc.
Qed.

Lemma detect_ema_crossover_last_two (f0 s0 : list Q) (pf cf ps cs : Q) :
  indicators.detect_ema_crossover (f0 ++ [pf; cf]) (s0 ++ [ps; cs]) =
    Ok (Qleb pf ps && Qgtb cf cs, Qgeb pf ps && Qltb cf cs).
Proof.
  unfold indicators.detect_ema_crossover.
  rewrite !length_app. simpl length.
  replace (length f0 + 2 <? 2)%nat with false
    by (symmetry; apply Nat.ltb_ge; lia).
  replace (length s0 + 2 <? 2)%nat with false
    by (symmetry; apply Nat.ltb_ge; lia).
  simpl orb. cbv iota.
  rewrite !iloc_back_prev, !iloc_back_last2. reflexivity.
Qed.

(** C8. For any two EMA series, [detect_ema_crossover] returns a pair and
    never raises; the pair is (false, false) when either series has fewer
    than two samples; otherwise bullish holds iff previous fast <= previous
    slow and current fast > current slow, and bearish holds iff previous
    fast >= previous slow and current fast < current slow, where previous
    and current are the last two samples of each series. *)
Theorem detect_ema_crossover_spec (fast_ema slow_ema : list Q) :
  (exists bullish bearish,
      indicators.detect_ema_crossover fast_ema slow_ema
      = Ok (bullish, bearish))
  /\ ((length fast_ema < 2)%nat \/ (length slow_ema < 2)%nat ->
      indicators.detect_ema_crossover fast_ema slow_ema = Ok (false, false))
  /\ (forall f0 s0 prev_fast curr_fast prev_slow curr_slow,
        fast_ema = f0 ++ [prev_fast; curr_fast] ->
        slow_ema = s0 ++ [prev_slow; curr_slow] ->
        exists bullish bearish,
          indicators.detect_ema_crossover fast_ema slow_ema
          = Ok (bullish, bearish)
          /\ (bullish = true <->
              prev_fast <= prev_slow /\ curr_slow < curr_fast)
          /\ (bearish = true <->
              prev_slow <= prev_fast /\ curr_fast < curr_slow)).
Proof.
  assert (Hshort : (length fast_ema < 2)%nat \/ (length slow_ema < 2)%nat ->
      indicators.detect_ema_crossover fast_ema slow_ema = Ok (false, false)).
  { intros H. unfold indicators.detect_ema_crossover.
    destruct H as [H | H]; apply Nat.ltb_lt in H; rewrite H.
    - reflexivity.
    - now rewrite orb_true_r. }
  assert (Hlong : forall f0 s0 prev_fast curr_fast prev_slow curr_slow,
        fast_ema = f0 ++ [prev_fast; curr_fast] ->
        slow_ema = s0 ++ [prev_slow; curr_slow] ->
        exists bullish bearish,
          indicators.detect_ema_crossover fast_ema slow_ema
          = Ok (bullish, bearish)
          /\ (bullish = true <->
              prev_fast <= prev_slow /\ curr_slow < curr_fast)
          /\ (bearish = true <->
              prev_slow <= prev_fast /\ curr_fast < curr_slow)).
  { intros f0 s0 pf cf ps cs -> ->.
    eexists _, _. split; [apply detect_ema_crossover_last_two|].
    rewrite !andb_true_iff, Qleb_le, Qgtb_gt, Qgeb_ge, Qltb_lt. tauto. }
  split; [|split; assumption].
  destruct (le_lt_dec 2 (length fast_ema)) as [Hf | Hf];
    [destruct (le_lt_dec 2 (length slow_ema)) as [Hs | Hs]|].
  - destruct (last_two_samples _ Hf) as (f0 & pf & cf & Ef).
    destruct (last_two_samples _ Hs) as (s0 & ps & cs & Es).
    destruct (Hlong _ _ _ _ _ _ Ef Es) as (b1 & b2 & E & _). eauto.
  - eexists _, _. apply Hshort. now right.
  - eexists _, _. apply Hshort. now left.
Qed.

(** A crossing and a non-crossing pair of series. *)
Lemma detect_ema_crossover_spec_witness :
  indicators.detect_ema_crossover [1; 3] [2] = Ok (false, false)
  /\ exists bullish bearish,
       indicators.detect_ema_crossover [1; 3] [2; 2] = Ok (bullish, bearish)
       /\ (bullish = true <-> 1 <= 2 /\ 2 < 3)
       /\ (bearish = true <-> 2 <= 1 /\ 3 < 2).
Proof.
  split.
  - apply (detect_ema_crossover_spec [1; 3] [2]). right. simpl. lia.
  - apply (proj2 (proj2 (detect_ema_crossover_spec [1; 3] [2; 2]))
             [] [] 1 3 2 2); reflexivity.
Defined.

(** ** The equity-curve slope on sample curves *)

Example polyfit_slope_line : indicators.polyfit_slope [1; 3; 5; 7] == 2.
Proof. reflexivity. Qed.

Example equity_curve_slope_rising :
  indicators.calculate_equity_curve_slope [90; 100; 101; 102] 3 == 1.
Proof. reflexivity. Qed.

Example equity_curve_slope_short :
  indicators.calculate_equity_curve_slope [100; 101] 3 == 0.
Proof. reflexivity. Qed.

(** ** Drawdown scaling of the risk percent *)

Lemma is_in_drawdown_true (current_equity peak_equity threshold : Q) :
  0 < peak_equity ->
  current_equity < peak_equity * (1 - threshold) ->
  indicators.is_in_drawdown current_equity peak_equity threshold = true.
Proof.
  intros Hpeak Hbelow. unfold indicators.is_in_drawdown.
  destruct (Qeq_bool peak_equity 0) eqn:E.
  - apply Qeq_bool_iff in E. rewrite E in Hpeak.
    exfalso. exact (Qlt_irrefl _ Hpeak).
  - apply Qgtb_gt. apply Qlt_shift_div_l; [exact Hpeak|]. lra.
Qed.

Lemma drawdown_branch (current_equity : Q) (self : risk_manager.RiskManager) :
  indicators.is_in_drawdown current_equity (risk_manager.peak_equity self)
    indicators.is_in_drawdown_default_threshold = true ->
  risk_manager.get_adjusted_risk_percent current_equity self
  = py_max config.MIN_RISK_PER_TRADE
      (config.RISK_PER_TRADE * (1 - config.DRAWDOWN_RISK_REDUCTION)).
Proof.
  intros H. unfold risk_manager.get_adjusted_risk_percent. now rewrite H.
Qed.

(** C9. Whenever current equity is below peak equity by more than the
    drawdown threshold (2%), the adjusted risk percent is
    base_risk * (1 - DRAWDOWN_RISK_REDUCTION) = base_risk * 0.5 floored at
    MIN_RISK_PER_TRADE; with base 0.0075 and minimum 0.005 that is 0.005. *)
Theorem drawdown_risk_scaling
    (current_equity : Q) (self : risk_manager.RiskManager) :
  0 < risk_manager.peak_equity self ->
  current_equity
    < risk_manager.peak_equity self
      * (1 - indicators.is_in_drawdown_default_threshold) ->
  risk_manager.get_adjusted_risk_percent current_equity self
    == Qmax config.MIN_RISK_PER_TRADE
         (config.RISK_PER_TRADE * (1 - config.DRAWDOWN_RISK_REDUCTION))
  /\ config.RISK_PER_TRADE * (1 - config.DRAWDOWN_RISK_REDUCTION)
     == config.RISK_PER_TRADE * 0.5
  /\ risk_manager.get_adjusted_risk_percent current_equity self == 0.005.
Proof.
  intros Hpeak Hbelow.
  rewrite (drawdown_branch _ _ (is_in_drawdown_true _ _ _ Hpeak Hbelow)).
  split; [apply py_max_Qmax|]. split; reflexivity.
Qed.

Lemma drawdown_risk_scaling_witness :
  risk_manager.peak_equity scenarios.rm_peak_100000 == 100000
  /\ risk_manager.get_adjusted_risk_percent 97000 scenarios.rm_peak_100000
     == 0.005.
Proof.
  split; [reflexivity|].
  apply (drawdown_risk_scaling 97000 scenarios.rm_peak_100000); reflexivity.
Defined.

(** ** Position sizing *)




Lemma py_div_ok (a b : Q) : ~ b == 0 -> py_div a b = Ok (a / b).
Proof.
  intros H. unfold py_div. destruct (Qeq_bool b 0) eqn:E; [|reflexivity].
  apply Qeq_bool_iff in E. contradiction.
Qed.

Lemma py_fdiv_ok (a b : Q) : ~ b == 0 -> py_fdiv a b = Ok (fdiv a b).
Proof.
  intros H. unfold py_fdiv. destruct (Qeq_bool b 0) eqn:E; [|reflexivity].
  apply Qeq_bool_iff in E. contradiction.
Qed.

Lemma Qfloor_between (q : Q) (n : Z) :
  inject_Z n <= q -> q < inject_Z (n + 1) -> Qfloor q = n.
Proof.
  intros Hlo Hhi.
  pose proof (Qfloor_resp_le _ _ Hlo) as H1. rewrite Qfloor_Z in H1.
  assert (H2 : (Qfloor q < n + 1)%Z).
  { rewrite Zlt_Qlt. eapply Qle_lt_trans; [apply Qfloor_le | exact Hhi]. }
  lia.
Qed.

(** Truncating the rounded quotient gives the floor of the exact quotient,
    or the next integer when the quotient rounds up to it. *)
Lemma sized_shares_floor_or_next (x : Q) :
  x < inject_Z (2 ^ 53) ->
  Z.max 1 (py_int (round64 x)) = Z.max 1 (Qfloor x)
  \/ (Z.max 1 (py_int (round64 x)) = Z.max 1 (Qfloor x + 1)
      /\ round64 x == inject_Z (Qfloor x + 1)).
Proof.
  intros Hhi. rewrite max1_py_int_floor.
  destruct (Qlt_le_dec x 0) as [Hneg | Hpos].
  - left.
    assert (H1 : (Qfloor (round64 x) <= 0)%Z).
    { change 0%Z with (Qfloor 0). apply Qfloor_resp_le, round64_nonpos. lra. }
    assert (H2 : (Qfloor x <= 0)%Z).
    { change 0%Z with (Qfloor 0). apply Qfloor_resp_le. lra. }
    lia.
  - destruct (round64_floor_bracket x Hpos Hhi) as [Hlo Hup].
    destruct (Qlt_le_dec (round64 x) (inject_Z (Qfloor x + 1))) as [Hlt | Hge].
    + left. now rewrite (Qfloor_between _ _ Hlo Hlt).
    + right. assert (E : round64 x == inject_Z (Qfloor x + 1)) by lra.
      split; [|exact E]. now rewrite (Qfloor_comp _ _ E), Qfloor_Z.
Qed.




(** ** Consecutive-loss gate *)

Lemma record_loss_counts (self : risk_manager.RiskManager) :
  risk_manager.consecutive_losses
    (risk_manager.record_trade_result false self)
  = (risk_manager.consecutive_losses self + 1)%Z.
Proof.
  unfold risk_manager.record_trade_result. cbn.
  destruct (_ <=? _)%Z; reflexivity.
Qed.

Lemma record_loss_paused (self : risk_manager.RiskManager) :
  risk_manager.paused_until_next_session
    (risk_manager.record_trade_result false self)
  = (config.MAX_CONSECUTIVE_LOSSES
       <=? risk_manager.consecutive_losses self + 1)%Z
    || risk_manager.paused_until_next_session self.
Proof.
  unfold risk_manager.record_trade_result. cbn.
  destruct (_ <=? _)%Z; reflexivity.
Qed.

Lemma losses_in_a_row_counts (n : nat) (self : risk_manager.RiskManager) :
  risk_manager.consecutive_losses (scenarios.losses_in_a_row n self)
  = (risk_manager.consecutive_losses self + Z.of_nat n)%Z.
Proof.
  induction n as [|n IH].
  - cbn. lia.
  - change (scenarios.losses_in_a_row (S n) self)
      with (risk_manager.record_trade_result false
              (scenarios.losses_in_a_row n self)).
    rewrite record_loss_counts, IH. lia.
Qed.

(** Below the limit the flag is left as it was. *)
Lemma losses_below_limit_keep_flag (n : nat) (self : risk_manager.RiskManager) :
  (risk_manager.consecutive_losses self + Z.of_nat n
   < config.MAX_CONSECUTIVE_LOSSES)%Z ->
  risk_manager.paused_until_next_session (scenarios.losses_in_a_row n self)
  = risk_manager.paused_until_next_session self.
Proof.
  induction n as [|n IH]; intros Hlt.
  - reflexivity.
  - change (scenarios.losses_in_a_row (S n) self)
      with (risk_manager.record_trade_result false
              (scenarios.losses_in_a_row n self)).
    rewrite record_loss_paused, losses_in_a_row_counts, IH by lia.
    replace (_ <=? _)%Z with false; [reflexivity|].
    symmetry. apply Z.leb_gt. lia.
Qed.

(** No call other than a session rollover clears the pause flag. *)
Lemma paused_kept_without_rollover (op : scenarios.rm_op)
    (self : risk_manager.RiskManager) :
  scenarios.rolls_over op self = false ->
  risk_manager.paused_until_next_session self = true ->
  risk_manager.paused_until_next_session (scenarios.rm_apply op self) = true.
Proof.
  intros Hroll Hpaused. destruct op as [today equity| | is_win | | | |]; cbn.
  - cbn in Hroll. unfold risk_manager.initialize_day. cbn.
    destruct (risk_manager.last_session_date self) as [d|]; [|discriminate].
    rewrite Hroll. exact Hpaused.
  - exact Hpaused.
  - destruct is_win.
    + exact Hpaused.
    + rewrite record_loss_paused, Hpaused. apply orb_true_r.
  - unfold risk_manager.check_daily_loss_limit.
    destruct (Qeq_bool _ _); [exact Hpaused|].
    destruct (Qleb _ _); [reflexivity | exact Hpaused].
  - unfold risk_manager.check_circuit_breaker.
    destruct (match vix with Some _ => _ | None => _ end);
      [exact Hpaused|].
    destruct (Qgtb _ _); exact Hpaused.
  - exact Hpaused.
  - unfold risk_manager.unregister_trade_risk.
    destruct (_ !! _); exact Hpaused.
Qed.

Lemma paused_kept_in_session (ops : list scenarios.rm_op) :
  forall self : risk_manager.RiskManager,
    scenarios.same_session ops self = true ->
    risk_manager.paused_until_next_session self = true ->
    risk_manager.paused_until_next_session (scenarios.rm_run ops self) = true.
Proof.
  induction ops as [|op ops IH]; intros self Hsame Hpaused.
  - exact Hpaused.
  - cbn in Hsame. apply andb_true_iff in Hsame as [Hop Hrest].
    apply negb_true_iff in Hop. cbn. apply IH; [exact Hrest|].
    now apply paused_kept_without_rollover.
Qed.

Lemma can_enter_paused (self : risk_manager.RiskManager) :
  risk_manager.paused_until_next_session self = true ->
  risk_manager.can_enter_new_trade self = false.
Proof. intros H. unfold risk_manager.can_enter_new_trade. now rewrite H. Qed.

(** A call that neither records a trade result nor rolls the session over
    leaves the loss counter alone. *)
Lemma losses_kept_by_other_calls (op : scenarios.rm_op)
    (self : risk_manager.RiskManager) :
  scenarios.rolls_over op self = false ->
  (forall is_win, op <> scenarios.RecordTradeResult is_win) ->
  risk_manager.consecutive_losses (scenarios.rm_apply op self)
  = risk_manager.consecutive_losses self.
Proof.
  intros Hroll Hop. destruct op as [today equity| | is_win | | | |]; cbn.
  - cbn in Hroll. unfold risk_manager.initialize_day.
    destruct (risk_manager.last_session_date self) as [d|]; [|discriminate].
    rewrite Hroll. reflexivity.
  - reflexivity.
  - exfalso. exact (Hop is_win eq_refl).
  - unfold risk_manager.check_daily_loss_limit.
    destruct (Qeq_bool _ _); [reflexivity|].
    destruct (Qleb _ _); reflexivity.
  - unfold risk_manager.check_circuit_breaker.
    destruct (match vix with Some _ => _ | None => _ end); [reflexivity|].
    destruct (Qgtb _ _); reflexivity.
  - reflexivity.
  - unfold risk_manager.unregister_trade_risk.
    destruct (_ !! _); reflexivity.
Qed.

(** Within one session and without a win, the flag is set by the time the
    counter has been pushed to the limit. *)
Lemma paused_after_losses (ops : list scenarios.rm_op) :
  forall self : risk_manager.RiskManager,
    scenarios.same_session ops self = true ->
    scenarios.no_wins ops = true ->
    risk_manager.paused_until_next_session self = true
    \/ (config.MAX_CONSECUTIVE_LOSSES
         <= risk_manager.consecutive_losses self + scenarios.count_losses ops
        /\ 1 <= scenarios.count_losses ops)%Z ->
    risk_manager.paused_until_next_session (scenarios.rm_run ops self) = true.
Proof.
  induction ops as [|op ops IH]; intros self Hsame Hnowin Hstart.
  - destruct Hstart as [Hp | [_ Hc]]; [exact Hp | cbn in Hc; lia].
  - destruct Hstart as [Hp | [Hlimit Hsome]].
    { now apply paused_kept_in_session. }
    cbn in Hsame. apply andb_true_iff in Hsame as [Hop Hrest].
    apply negb_true_iff in Hop.
    cbn in Hnowin. apply andb_true_iff in Hnowin as [Hopwin Hrestwin].
    cbn [scenarios.rm_run]. apply IH; [exact Hrest | exact Hrestwin |].
    destruct op as [today equity| | [|] | | | |];
      try discriminate Hopwin;
      try (right; rewrite losses_kept_by_other_calls
             by (try exact Hop; intros w H; discriminate H);
           cbn [scenarios.count_losses] in *; lia).
    cbn [scenarios.rm_apply scenarios.count_losses] in *.
    destruct (Z.leb_spec config.MAX_CONSECUTIVE_LOSSES
                  (risk_manager.consecutive_losses self + 1)) as [Hhit | Hlow].
    + left. rewrite record_loss_paused.
      replace (_ <=? _)%Z with true; [reflexivity|].
      symmetry. apply Z.leb_le. exact Hhit.
    + right. rewrite record_loss_counts. lia.
Qed.

(** C10. Once MAX_CONSECUTIVE_LOSSES (3) losing trades have been recorded
    with no winning trade and no session rollover in between,
    [paused_until_next_session] is set and [can_enter_new_trade] returns
    False, and it keeps returning False through every later call on the
    manager until a session rollover, which clears the flag and the counter;
    a winning trade resets the counter to zero and leaves the gate as it
    was, also through up to two further losses. *)
Theorem consecutive_loss_gate
    (self : risk_manager.RiskManager) (ops : list scenarios.rm_op) :
  (0 <= risk_manager.consecutive_losses self)%Z ->
  scenarios.same_session ops self = true ->
  scenarios.no_wins ops = true ->
  (config.MAX_CONSECUTIVE_LOSSES <= scenarios.count_losses ops)%Z ->
  let paused := scenarios.rm_run ops self in
  risk_manager.paused_until_next_session paused = true
  /\ risk_manager.can_enter_new_trade paused = false
  /\ (forall later,
        scenarios.same_session later paused = true ->
        risk_manager.can_enter_new_trade (scenarios.rm_run later paused)
        = false)
  /\ (forall today equity,
        scenarios.rolls_over (scenarios.InitializeDay today equity) paused
        = true ->
        risk_manager.paused_until_next_session
          (risk_manager.initialize_day today equity paused) = false
        /\ risk_manager.consecutive_losses
             (risk_manager.initialize_day today equity paused) = 0%Z)
  /\ (let won := risk_manager.record_trade_result true self in
      risk_manager.consecutive_losses won = 0%Z
      /\ risk_manager.can_enter_new_trade won
         = risk_manager.can_enter_new_trade self
      /\ forall n,
           (Z.of_nat n < config.MAX_CONSECUTIVE_LOSSES)%Z ->
           risk_manager.can_enter_new_trade (scenarios.losses_in_a_row n won)
           = risk_manager.can_enter_new_trade self).
Proof.
  intros Hcount Hsame Hnowin Hlosses paused.
  assert (Hpaused : risk_manager.paused_until_next_session paused = true).
  { subst paused. apply paused_after_losses; [exact Hsame | exact Hnowin |].
    right. unfold config.MAX_CONSECUTIVE_LOSSES in *. lia. }
  split; [exact Hpaused|].
  split; [now apply can_enter_paused|].
  split.
  { intros later Hlater. apply can_enter_paused.
    now apply paused_kept_in_session. }
  split.
  { intros today equity Hroll. cbn in Hroll.
    unfold risk_manager.initialize_day. rewrite Hroll. cbn.
    split; reflexivity. }
  cbv zeta. split; [reflexivity|]. split; [reflexivity|].
  intros n Hn.
  assert (Hflag :
    risk_manager.paused_until_next_session
      (scenarios.losses_in_a_row n
         (risk_manager.record_trade_result true self))
    = risk_manager.paused_until_next_session self).
  { rewrite losses_below_limit_keep_flag; [reflexivity|]. cbn. lia. }
  assert (Hcb : forall k s,
    risk_manager.circuit_breaker_active (scenarios.losses_in_a_row k s)
    = risk_manager.circuit_breaker_active s).
  { induction k as [|k IH]; intros s; [reflexivity|].
    change (scenarios.losses_in_a_row (S k) s)
      with (risk_manager.record_trade_result false
              (scenarios.losses_in_a_row k s)).
    rewrite <- (IH s). unfold risk_manager.record_trade_result. cbn.
    destruct (_ <=? _)%Z; reflexivity. }
  unfold risk_manager.can_enter_new_trade. rewrite Hflag, Hcb. reflexivity.
Qed.

(** Three losing exits in one session, with the bookkeeping calls the engine
    makes around them; and two losses after a win. *)
Lemma consecutive_loss_gate_witness :
  risk_manager.can_enter_new_trade
    (scenarios.rm_run scenarios.three_losses scenarios.rm_peak_100000) = false
  /\ risk_manager.can_enter_new_trade
       (scenarios.losses_in_a_row 2
          (risk_manager.record_trade_result true scenarios.rm_peak_100000))
     = true.
Proof.
  pose proof (consecutive_loss_gate scenarios.rm_peak_100000
                scenarios.three_losses) as H.
  destruct H as (_ & Hblocked & _ & _ & _ & _ & Hwin).
  - vm_compute. discriminate.
  - vm_compute. reflexivity.
  - reflexivity.
  - vm_compute. discriminate.
  - split; [exact Hblocked|]. rewrite Hwin; [reflexivity | reflexivity].
Defined.

(** ** Kill-switch error tracking *)

Lemma track_errors_app (a b : list Z) (self : order_manager.OrderManager) :
  scenarios.track_errors (a ++ b) self
  = scenarios.track_errors b (scenarios.track_errors a self).
Proof. apply fold_left_app. Qed.

Lemma track_error_last (now : Z) (self : order_manager.OrderManager) :
  order_manager.last_error_time (order_manager._track_error now self)
  = Some now.
Proof. reflexivity. Qed.

Lemma track_error_count_bounds (now : Z) (self : order_manager.OrderManager) :
  (0 <= order_manager.error_count self)%Z ->
  (1 <= order_manager.error_count (order_manager._track_error now self)
   <= order_manager.error_count self + 1)%Z.
Proof.
  intros H. unfold order_manager._track_error. cbn.
  destruct (match order_manager.last_error_time self with
            | Some _ => _ | None => _ end); lia.
Qed.

Lemma track_errors_count_bounds (ts : list Z) :
  forall self : order_manager.OrderManager,
    (0 <= order_manager.error_count self)%Z ->
    (0 <= order_manager.error_count (scenarios.track_errors ts self)
     <= order_manager.error_count self + Z.of_nat (length ts))%Z.
Proof.
  induction ts as [|t ts IH]; intros self H.
  - cbn. lia.
  - pose proof (track_error_count_bounds t self H) as Ht.
    specialize (IH (order_manager._track_error t self)).
    cbn [scenarios.track_errors fold_left length] in *.
    unfold scenarios.track_errors in IH. lia.
Qed.

(** Without a gap longer than the window every error is counted. *)
Lemma track_errors_no_gap (ts : list Z) :
  forall (t0 : Z) (self : order_manager.OrderManager),
    order_manager.last_error_time self = Some t0 ->
    scenarios.gaps_within_window (t0 :: ts) = true ->
    order_manager.error_count (scenarios.track_errors ts self)
    = (order_manager.error_count self + Z.of_nat (length ts))%Z.
Proof.
  induction ts as [|t ts IH]; intros t0 self Hlast Hgaps.
  - cbn. lia.
  - cbn [scenarios.gaps_within_window] in Hgaps.
    apply andb_true_iff in Hgaps as [Hgap Hrest].
    cbn [scenarios.track_errors fold_left length].
    fold (scenarios.track_errors ts (order_manager._track_error t self)).
    rewrite (IH t _ (track_error_last t self) Hrest).
    unfold order_manager._track_error at 1. rewrite Hlast. cbn.
    fold scenarios.window_microseconds.
    replace (scenarios.window_microseconds <? t - t0)%Z with false.
    + lia.
    + symmetry. apply Z.ltb_ge. apply Z.leb_le. exact Hgap.
Qed.

(** A gap longer than the window restarts the count: fewer errors are
    counted than were tracked. *)
Lemma track_errors_gap (ts : list Z) :
  forall (t0 : Z) (self : order_manager.OrderManager),
    order_manager.last_error_time self = Some t0 ->
    (0 <= order_manager.error_count self)%Z ->
    scenarios.gaps_within_window (t0 :: ts) = false ->
    (order_manager.error_count (scenarios.track_errors ts self)
     <= Z.of_nat (length ts))%Z.
Proof.
  induction ts as [|t ts IH]; intros t0 self Hlast Hcount Hgaps.
  - discriminate Hgaps.
  - cbn [scenarios.gaps_within_window] in Hgaps.
    cbn [scenarios.track_errors fold_left length].
    fold (scenarios.track_errors ts (order_manager._track_error t self)).
    pose proof (track_error_count_bounds t self Hcount) as Hb.
    apply andb_false_iff in Hgaps as [Hgap | Hrest].
    + assert (Hone : order_manager.error_count
                       (order_manager._track_error t self) = 1%Z).
      { unfold order_manager._track_error. rewrite Hlast. cbn.
        fold scenarios.window_microseconds.
        replace (scenarios.window_microseconds <? t - t0)%Z with true;
          [reflexivity|].
        symmetry. apply Z.ltb_lt. apply Z.leb_gt in Hgap. exact Hgap. }
      pose proof (track_errors_count_bounds ts
                    (order_manager._track_error t self)
                    (Z.le_trans _ _ _ Z.le_0_1 (proj1 Hb))) as Hu.
      rewrite Hone in Hu. rewrite Nat2Z.inj_succ. lia.
    + pose proof (IH t _ (track_error_last t self)
                    (Z.le_trans _ _ _ Z.le_0_1 (proj1 Hb)) Hrest) as Hi.
      rewrite Nat2Z.inj_succ. lia.
Qed.

Lemma within_one_window_gaps (ts : list Z) :
  scenarios.within_one_window ts -> scenarios.gaps_within_window ts = true.
Proof.
  induction ts as [|t [|t' ts] IH]; intros H; try reflexivity.
  cbn [scenarios.gaps_within_window]. apply andb_true_iff. split.
  - apply Z.leb_le. apply H; cbn; auto.
  - apply IH. intros a b Ha Hb. apply H; now right.
Qed.

Lemma tracked_count_nonneg (prior : list Z) :
  (0 <= order_manager.error_count
          (scenarios.track_errors prior order_manager.__init__))%Z.
Proof.
  apply (track_errors_count_bounds prior order_manager.__init__).
  cbn. lia.
Qed.

(** C3 (as the code has it). After any earlier errors, K =
    KILL_SWITCH_ERROR_COUNT further tracked errors trip the kill-switch
    exactly when each of them comes at most W = KILL_SWITCH_WINDOW_MINUTES
    after the one before it; in particular K errors within one window W trip
    it, and K errors with some gap longer than W between two consecutive
    ones do not. *)
Theorem kill_switch_gap_rule (prior ts : list Z) :
  Z.of_nat (length ts) = config.KILL_SWITCH_ERROR_COUNT ->
  let om := scenarios.track_errors (prior ++ ts) order_manager.__init__ in
  (scenarios.within_one_window ts ->
   order_manager.should_trigger_kill_switch om = true)
  /\ (order_manager.should_trigger_kill_switch om = true
      <-> scenarios.gaps_within_window ts = true).
Proof.
  intros Hlen om.
  assert (Hiff : order_manager.should_trigger_kill_switch om = true
                 <-> scenarios.gaps_within_window ts = true).
  { subst om. rewrite track_errors_app.
    pose proof (tracked_count_nonneg prior) as Hprior.
    set (self0 := scenarios.track_errors prior order_manager.__init__) in *.
    destruct ts as [|t1 rest]; [discriminate Hlen|].
    cbn [scenarios.track_errors fold_left].
    fold (scenarios.track_errors rest (order_manager._track_error t1 self0)).
    pose proof (track_error_count_bounds t1 self0 Hprior) as Hb.
    cbn [length] in Hlen.
    unfold order_manager.should_trigger_kill_switch. rewrite Z.leb_le.
    destruct (scenarios.gaps_within_window (t1 :: rest)) eqn:Hgaps.
    - rewrite (track_errors_no_gap rest t1 _ (track_error_last t1 self0) Hgaps).
      split; [reflexivity|]. intros _. lia.
    - pose proof (track_errors_gap rest t1 _ (track_error_last t1 self0)
                    ltac:(lia) Hgaps) as Hle.
      split; [|discriminate]. intros H. lia. }
  split; [|exact Hiff].
  intros Hwin. apply Hiff. now apply within_one_window_gaps.
Qed.

Lemma kill_switch_gap_rule_witness :
  order_manager.should_trigger_kill_switch
    (scenarios.track_errors
       ([scenarios.minutes 0]
        ++ [scenarios.minutes 30; scenarios.minutes 31; scenarios.minutes 35])
       order_manager.__init__) = true
  /\ order_manager.should_trigger_kill_switch
       (scenarios.track_errors
          ([] ++ [scenarios.minutes 0; scenarios.minutes 11;
                  scenarios.minutes 12])
          order_manager.__init__) = false.
Proof.
  split.
  - apply (kill_switch_gap_rule [scenarios.minutes 0]
             [scenarios.minutes 30; scenarios.minutes 31;
              scenarios.minutes 35]); reflexivity.
  - destruct (order_manager.should_trigger_kill_switch _) eqn:E;
      [|reflexivity].
    apply (kill_switch_gap_rule []
             [scenarios.minutes 0; scenarios.minutes 11;
              scenarios.minutes 12]) in E; [discriminate E | reflexivity].
Defined.

(** C3 as stated fails: three errors six minutes apart span twelve minutes,
    more than the ten-minute window, and still trip the kill-switch. *)
Lemma kill_switch_trips_over_long_span :
  (scenarios.minutes 12 - scenarios.minutes 0
   > scenarios.window_microseconds)%Z
  /\ order_manager.should_trigger_kill_switch
       (scenarios.track_errors
          [scenarios.minutes 0; scenarios.minutes 6; scenarios.minutes 12]
          order_manager.__init__) = true.
Proof. split; reflexivity. Qed.

(** ** Loading the persisted state *)

(** C4 (as the code has it). Loading the persisted state never fails: a
    state file that exists but cannot be parsed yields the same empty default
    state as a missing file (the error is only logged), and a file that
    parses yields its snapshot. *)
Theorem load_state_never_fatal (f : state_manager.state_file) :
  (exists st, state_manager._load_state f = Ok st)
  /\ (forall raw,
        state_manager._load_state (state_manager.Unparsable raw)
        = Ok state_manager._default_state)
  /\ state_manager._load_state state_manager.NoFile
     = Ok state_manager._default_state
  /\ (forall snapshot,
        state_manager._load_state (state_manager.Parsable snapshot)
        = Ok snapshot)
  /\ state_manager.active_trades state_manager._default_state = []
  /\ state_manager.pending_stops state_manager._default_state = ∅.
Proof.
  split.
  { destruct f; eexists; reflexivity. }
  repeat split; reflexivity.
Qed.

(** C4 as stated fails: a state file holding text that is not JSON does not
    make loading fail; the default state comes back. *)
Lemma load_corrupt_state_not_fatal :
  state_manager.os_path_exists (state_manager.Unparsable "{not json") = true
  /\ state_manager.json_load (state_manager.Unparsable "{not json")
     = Raise JSONDecodeError
  /\ state_manager._load_state (state_manager.Unparsable "{not json")
     = Ok state_manager._default_state
  /\ ~ (exists e,
          state_manager._load_state (state_manager.Unparsable "{not json")
          = Raise e).
Proof.
  repeat split. intros [e H]. discriminate H.
Qed.

(** ** Trailing-stop ratchet *)

Lemma ratchet_guard (is_long : bool) (new_stop current_stop : Q) :
  (is_long && Qgtb new_stop current_stop)
  || (negb is_long && Qltb new_stop current_stop) = true
  <-> trading_engine.strictly_more_favorable is_long new_stop current_stop.
Proof.
  unfold trading_engine.strictly_more_favorable. destruct is_long; cbn.
  - rewrite orb_false_r. apply Qgtb_gt.
  - apply Qltb_lt.
Qed.

Lemma dict_get_set {V} (k : string) (v : V) (d : odict V) :
  dict_get k (dict_set k v d) = Some v.
Proof.
  unfold dict_get. induction d as [|[k' v'] d IH]; cbn.
  - now rewrite String.eqb_refl.
  - destruct (String.eqb k' k) eqn:E; cbn.
    + now rewrite String.eqb_refl.
    + rewrite E. exact IH.
Qed.

(** C7. In exit management the protective stop is replaced only when the
    recomputed trailing stop is strictly more favourable than the current
    stop (higher for a long trade, lower for a short one).  Otherwise no
    venue call is made and the state (the trade's stored stop_price and the
    pending protective order with it) is unchanged.  Whatever the venue
    answers, the stored stop is never loosened; when it moves, it moves to
    the recomputed stop, in the ledger and in the pending order. *)
Theorem trailing_stop_ratchet
    (now : Z) (submit_reply : option string) (trade_id : string)
    (trade : state_manager.Trade) (current_price atr_last : Q)
    (st : state_manager.State) :
  let is_long := String.eqb (state_manager.side trade) "long" in
  let new_stop :=
    indicators.calculate_trailing_stop (state_manager.entry_price trade)
      current_price atr_last (state_manager.vol_regime trade) is_long
      1.5 2.5 in
  let current_stop := state_manager.stop_price trade in
  let result :=
    trading_engine._manage_exits_trailing_stop now submit_reply trade_id
      trade current_price atr_last st in
  let st' := fst (fst result) in
  let trade' := snd (fst result) in
  let calls := snd result in
  (~ trading_engine.strictly_more_favorable is_long new_stop current_stop ->
   st' = st /\ trade' = trade /\ calls = [])
  /\ (calls <> [] \/ st' <> st \/ trade' <> trade ->
      trading_engine.strictly_more_favorable is_long new_stop current_stop)
  /\ (if is_long
      then current_stop <= state_manager.stop_price trade'
      else state_manager.stop_price trade' <= current_stop)
  /\ (trade' <> trade ->
      state_manager.stop_price trade' = new_stop
      /\ dict_get trade_id (state_manager.active_trades st') = Some trade'
      /\ exists ps,
           state_manager.pending_stops st' !! state_manager.symbol trade
           = Some ps
           /\ state_manager.pending_stop_price ps = new_stop).
Proof.
  cbv zeta.
  unfold trading_engine._manage_exits_trailing_stop.
  set (is_long := String.eqb (state_manager.side trade) "long").
  set (new_stop := indicators.calculate_trailing_stop _ _ _ _ _ _ _).
  destruct ((is_long && Qgtb new_stop (state_manager.stop_price trade))
            || (negb is_long && Qltb new_stop (state_manager.stop_price trade)))
    eqn:Hguard.
  - apply ratchet_guard in Hguard.
    split; [intros Hn; contradiction|]. split; [intros _; exact Hguard|].
    unfold trading_engine._update_stop. fold is_long.
    destruct submit_reply as [new_order_id|]; cbn [fst snd].
    + split.
      { unfold trading_engine.strictly_more_favorable in Hguard.
        destruct is_long; cbn; apply Qlt_le_weak; exact Hguard. }
      intros _. split; [reflexivity|]. split.
      { cbn. apply dict_get_set. }
      eexists. split; [cbn; apply lookup_insert_eq | reflexivity].
    + split.
      { destruct is_long; apply Qle_refl. }
      intros Hne. now contradict Hne.
  - cbn [fst snd].
    assert (Hnot : ~ trading_engine.strictly_more_favorable is_long new_stop
                       (state_manager.stop_price trade)).
    { intros H. apply ratchet_guard in H. congruence. }
    split; [intros _; repeat split|].
    split; [intros [H | [H | H]]; now contradict H|].
    split; [destruct is_long; apply Qle_refl|].
    intros Hne. now contradict Hne.
Qed.

(** A long trade with its stop at 97: a recomputed stop of 96 changes
    nothing, a recomputed stop of 98 replaces the order. *)
Lemma trailing_stop_ratchet_witness :
  trading_engine._manage_exits_trailing_stop 5 (Some "stop-9") "T1"
    ledger.aapl_long 101 2 ledger.aapl_open
  = (ledger.aapl_open, ledger.aapl_long, [])
  /\ trading_engine.strictly_more_favorable true (103 - 2 * 2.5) 97
  /\ trading_engine.strictly_more_favorable false (199 + 2 * 2.5) 206.
Proof.
  pose proof (trailing_stop_ratchet 5 (Some "stop-9") "T1" ledger.aapl_long
                101 2 ledger.aapl_open) as Hkeep.
  pose proof (trailing_stop_ratchet 5 (Some "stop-9") "T1" ledger.aapl_long
                103 2 ledger.aapl_open) as Hlong.
  pose proof (trailing_stop_ratchet 5 (Some "stop-8") "T2" ledger.tsla_short
                199 2 ledger.tsla_open) as Hshort.
  cbv zeta in Hkeep, Hlong, Hshort.
  destruct Hkeep as [Hkeep _].
  destruct Hlong as (_ & Hlong & _).
  destruct Hshort as (_ & Hshort & _).
  split; [|split].
  - destruct Hkeep as (H1 & H2 & H3).
    + vm_compute. discriminate.
    + rewrite (surjective_pairing (trading_engine._manage_exits_trailing_stop
                 5 (Some "stop-9") "T1" ledger.aapl_long 101 2
                 ledger.aapl_open)).
      rewrite (surjective_pairing (fst _)). now rewrite H1, H2, H3.
  - apply Hlong. left. vm_compute. discriminate.
  - apply Hshort. left. vm_compute. discriminate.
Defined.

(** ** Reconciliation against the venue *)

Lemma filter_length_lt {A} (f : A -> bool) (l : list A) (x : A) :
  In x l -> f x = false -> (length (List.filter f l) < length l)%nat.
Proof.
  induction l as [|a l IH]; intros Hin Hfx; [contradiction|].
  cbn. pose proof (List.filter_length_le f l) as Hle.
  destruct Hin as [-> | Hin].
  - rewrite Hfx. lia.
  - specialize (IH Hin Hfx). destruct (f a); cbn; lia.
Qed.

(** Removing a trade that the iterator has just yielded shrinks the dict. *)
Lemma remove_trade_shrinks (now : Z) (trade_id : string)
    (trade : state_manager.Trade) (i : nat) (st : state_manager.State) :
  nth_error (state_manager.active_trades st) i = Some (trade_id, trade) ->
  (length (state_manager.active_trades
             (state_manager.remove_trade now trade_id st))
   < length (state_manager.active_trades st))%nat.
Proof.
  intros Hnth. apply nth_error_In in Hnth.
  assert (Hc : dict_contains trade_id (state_manager.active_trades st) = true).
  { unfold dict_contains. apply existsb_exists.
    exists (trade_id, trade). split; [exact Hnth|]. apply String.eqb_refl. }
  unfold state_manager.remove_trade. rewrite Hc.
  assert (Hlen : (length (dict_del trade_id (state_manager.active_trades st))
                  < length (state_manager.active_trades st))%nat).
  { unfold dict_del.
    apply filter_length_lt with (x := (trade_id, trade)); [exact Hnth|].
    cbn. now rewrite String.eqb_refl. }
  destruct (state_manager.bars_since_entry _ !! trade_id); exact Hlen.
Qed.

(** Once the dict has changed size the next [next()] raises. *)
Lemma loop_size_changed (visits : nat) (now : Z) (broker_symbols : gset string)
    (it : dictiter) (acc : list state_manager.Trade)
    (st : state_manager.State) :
  length (state_manager.active_trades st) <> di_used it ->
  state_manager.reconcile_stale_loop visits now broker_symbols it acc st
  = (st, Raise ledger.size_changed).
Proof.
  intros Hne.
  assert (Hnext : dictiter_next (state_manager.get_active_trades st) it
                  = Raise ledger.size_changed).
  { unfold dictiter_next, state_manager.get_active_trades.
    apply Nat.eqb_neq in Hne. now rewrite Hne. }
  destruct visits; cbn; now rewrite Hnext.
Qed.

Lemma dictiter_next_in_sync {V} (d : odict V) (it : dictiter) :
  di_used it = length d ->
  dictiter_next d it
  = match nth_error d (di_pos it) with
    | Some kv => Ok (Some (kv, mkDictiter (di_used it) (S (di_pos it))))
    | None => Ok None
    end.
Proof.
  intros H. unfold dictiter_next. rewrite H, Nat.eqb_refl. reflexivity.
Qed.

Lemma loop_done (now : Z) (broker_symbols : gset string) (it : dictiter)
    (acc : list state_manager.Trade) (st : state_manager.State) :
  di_used it = length (state_manager.active_trades st) ->
  state_manager.reconcile_stale_loop 0 now broker_symbols it acc st
  = (st, Ok acc).
Proof.
  intros Hsync. cbn. unfold state_manager.get_active_trades.
  rewrite dictiter_next_in_sync by exact Hsync.
  destruct (nth_error _ _) as [[trade_id trade]|]; reflexivity.
Qed.

Lemma loop_step (visits : nat) (now : Z) (broker_symbols : gset string)
    (it : dictiter) (acc : list state_manager.Trade)
    (st : state_manager.State) :
  di_used it = length (state_manager.active_trades st) ->
  state_manager.reconcile_stale_loop (S visits) now broker_symbols it acc st
  = match nth_error (state_manager.active_trades st) (di_pos it) with
    | Some (trade_id, trade) =>
        let it' := mkDictiter (di_used it) (S (di_pos it)) in
        if bool_decide (state_manager.symbol trade ∉ broker_symbols)
        then state_manager.reconcile_stale_loop visits now broker_symbols it'
               (acc ++ [trade]) (state_manager.remove_trade now trade_id st)
        else state_manager.reconcile_stale_loop visits now broker_symbols it'
               acc st
    | None => (st, Ok acc)
    end.
Proof.
  intros Hsync. cbn. unfold state_manager.get_active_trades.
  rewrite dictiter_next_in_sync by exact Hsync.
  destruct (nth_error _ _) as [[trade_id trade]|]; reflexivity.
Qed.

(** The bound on the number of loop bodies is never what stops the loop:
    once it covers the entries ahead of the iterator, a larger bound gives
    the same run. *)
Lemma loop_bound_enough (visits : nat) :
  forall now broker_symbols it acc st,
    di_used it = length (state_manager.active_trades st) ->
    (length (state_manager.active_trades st) <= di_pos it + visits)%nat ->
    state_manager.reconcile_stale_loop (S visits) now broker_symbols it acc st
    = state_manager.reconcile_stale_loop visits now broker_symbols it acc st.
Proof.
  induction visits as [|visits IH]; intros now bs it acc st Hsync Hbound.
  - rewrite loop_step, loop_done by exact Hsync.
    replace (nth_error _ _) with (@None (string * state_manager.Trade));
      [reflexivity|].
    symmetry. apply nth_error_None. lia.
  - rewrite (loop_step (S visits)), (loop_step visits) by exact Hsync.
    destruct (nth_error _ _) as [[trade_id trade]|] eqn:Hnth; [|reflexivity].
    cbv zeta.
    destruct (bool_decide (state_manager.symbol trade ∉ bs)).
    + pose proof (remove_trade_shrinks now trade_id trade _ st Hnth).
      rewrite !loop_size_changed; [reflexivity | |];
        cbn [di_used]; rewrite Hsync; lia.
    + apply IH; [exact Hsync|]. cbn [di_pos]. lia.
Qed.

(** When the loop finishes without raising it has removed nothing, has
    found no stale trade, and does the same at any other time. *)
Lemma loop_ok_inv (visits : nat) :
  forall now broker_symbols it acc st st' r,
    di_used it = length (state_manager.active_trades st) ->
    state_manager.reconcile_stale_loop visits now broker_symbols it acc st
    = (st', Ok r) ->
    st' = st /\ r = acc
    /\ forall now',
         state_manager.reconcile_stale_loop visits now' broker_symbols it acc st
         = (st, Ok acc).
Proof.
  induction visits as [|visits IH]; intros now bs it acc st st' r Hsync Hrun.
  - rewrite loop_done in Hrun by exact Hsync. inversion Hrun; subst.
    split; [reflexivity|]. split; [reflexivity|].
    intros now'. now apply loop_done.
  - rewrite loop_step in Hrun by exact Hsync.
    destruct (nth_error _ _) as [[trade_id trade]|] eqn:Hnth.
    + cbv zeta in Hrun.
      destruct (bool_decide (state_manager.symbol trade ∉ bs)) eqn:Hdec.
      * rewrite loop_size_changed in Hrun; [discriminate Hrun|].
        cbn [di_used]. rewrite Hsync.
        pose proof (remove_trade_shrinks now trade_id trade _ st Hnth). lia.
      * destruct (IH now bs (mkDictiter (di_used it) (S (di_pos it)))
                    acc st st' r Hsync Hrun) as (-> & -> & Hany).
        split; [reflexivity|]. split; [reflexivity|].
        intros now'. rewrite loop_step by exact Hsync.
        rewrite Hnth. cbv zeta. rewrite Hdec. apply Hany.
    + inversion Hrun; subst.
      split; [reflexivity|]. split; [reflexivity|].
      intros now'. rewrite loop_step by exact Hsync. now rewrite Hnth.
Qed.

(** With a stale trade ahead of the iterator the loop raises. *)
Lemma loop_stale_raises (visits : nat) :
  forall now broker_symbols it acc st i trade_id trade,
    di_used it = length (state_manager.active_trades st) ->
    (di_pos it + visits = length (state_manager.active_trades st))%nat ->
    (di_pos it <= i)%nat ->
    nth_error (state_manager.active_trades st) i = Some (trade_id, trade) ->
    state_manager.symbol trade ∉ broker_symbols ->
    exists st',
      state_manager.reconcile_stale_loop visits now broker_symbols it acc st
      = (st', Raise ledger.size_changed).
Proof.
  induction visits as [|visits IH];
    intros now bs it acc st i trade_id trade Hsync Hfuel Hpos Hnth Hstale.
  - assert (i < length (state_manager.active_trades st))%nat
      by (apply nth_error_Some; congruence). lia.
  - rewrite loop_step by exact Hsync.
    destruct (nth_error _ (di_pos it)) as [[id0 t0]|] eqn:Hcur.
    + cbv zeta.
      destruct (bool_decide (state_manager.symbol t0 ∉ bs)) eqn:Hdec.
      * eexists. apply loop_size_changed. cbn [di_used]. rewrite Hsync.
        pose proof (remove_trade_shrinks now id0 t0 _ st Hcur). lia.
      * assert (di_pos it <> i).
        { intros E. rewrite E, Hnth in Hcur. inversion Hcur; subst.
          apply bool_decide_eq_false in Hdec. contradiction. }
        apply (IH now bs (mkDictiter (di_used it) (S (di_pos it)))
                 acc st i trade_id trade); cbn; try assumption; lia.
    + apply nth_error_None in Hcur. lia.
Qed.

(** Without a stale trade the loop visits every entry and returns. *)
Lemma loop_no_stale (visits : nat) :
  forall now broker_symbols it acc st,
    di_used it = length (state_manager.active_trades st) ->
    (forall i kv,
       (di_pos it <= i)%nat ->
       nth_error (state_manager.active_trades st) i = Some kv ->
       state_manager.symbol (snd kv) ∈ broker_symbols) ->
    state_manager.reconcile_stale_loop visits now broker_symbols it acc st
    = (st, Ok acc).
Proof.
  induction visits as [|visits IH]; intros now bs it acc st Hsync Hfresh.
  - now apply loop_done.
  - rewrite loop_step by exact Hsync.
    destruct (nth_error _ _) as [[trade_id trade]|] eqn:Hcur; [|reflexivity].
    pose proof (Hfresh _ _ (Nat.le_refl _) Hcur) as Hin. cbn in Hin.
    cbv zeta. rewrite bool_decide_eq_false_2 by (intros Hn; contradiction).
    apply IH; [exact Hsync|]. intros i kv Hle. apply Hfresh. cbn in Hle. lia.
Qed.

(** Reconciliation raises as soon as the ledger holds a trade the venue
    does not report. *)
Lemma reconcile_stale_raises (now : Z)
    (broker_positions : list state_manager.Position)
    (st : state_manager.State) (trade_id : string)
    (trade : state_manager.Trade) :
  In (trade_id, trade) (state_manager.active_trades st) ->
  ~ In (state_manager.symbol trade)
       (map state_manager.pos_symbol broker_positions) ->
  exists st',
    state_manager.reconcile_positions now broker_positions st
    = (st', Raise ledger.size_changed).
Proof.
  intros Hin Hstale. apply In_nth_error in Hin as [i Hnth].
  unfold state_manager.reconcile_positions.
  destruct (loop_stale_raises
              (length (state_manager.get_active_trades st)) now
              (list_to_set (map state_manager.pos_symbol broker_positions))
              (dict_iter (state_manager.get_active_trades st)) [] st
              i trade_id trade) as [st' Hrun].
  - reflexivity.
  - reflexivity.
  - cbn. lia.
  - exact Hnth.
  - rewrite elem_of_list_to_set, list_elem_of_In. exact Hstale.
  - exists st'. rewrite Hrun. reflexivity.
Qed.

(** When every persisted trade has a venue position, reconciliation returns,
    changes nothing, and reports the venue positions without a trade. *)
Lemma reconcile_no_stale (now : Z)
    (broker_positions : list state_manager.Position)
    (st : state_manager.State) :
  (forall trade_id trade,
     In (trade_id, trade) (state_manager.active_trades st) ->
     In (state_manager.symbol trade)
        (map state_manager.pos_symbol broker_positions)) ->
  state_manager.reconcile_positions now broker_positions st
  = (st,
     Ok {| state_manager.missing_in_state :=
             List.filter
               (fun pos =>
                  bool_decide
                    (state_manager.pos_symbol pos
                     ∉ (list_to_set
                          (map (fun kv => state_manager.symbol (snd kv))
                               (state_manager.active_trades st))
                        : gset string)))
               broker_positions;
           state_manager.missing_in_broker := [];
           state_manager.qty_mismatch := [] |}).
Proof.
  intros Hfresh. unfold state_manager.reconcile_positions.
  rewrite loop_no_stale; [reflexivity | reflexivity |].
  intros i [trade_id trade] _ Hnth. cbn.
  rewrite elem_of_list_to_set, list_elem_of_In.
  apply (Hfresh trade_id). eapply nth_error_In, Hnth.
Qed.

(** C6 (as the code has it). When a call of [reconcile_positions] returns
    its report, the ledger is unchanged, and a second call with the same
    broker positions returns the very same report and again changes
    nothing: no trade is missing in the broker, no quantity mismatch is
    listed, and the venue positions without a ledger trade are listed
    again, since they are reported and not adopted. *)
Theorem reconcile_twice_same_report
    (now1 now2 : Z) (broker_positions : list state_manager.Position)
    (st st1 : state_manager.State) (d1 : state_manager.Discrepancies) :
  state_manager.reconcile_positions now1 broker_positions st = (st1, Ok d1) ->
  st1 = st
  /\ state_manager.reconcile_positions now2 broker_positions st1
     = (st1, Ok d1)
  /\ state_manager.missing_in_broker d1 = []
  /\ state_manager.qty_mismatch d1 = []
  /\ state_manager.missing_in_state d1
     = List.filter
         (fun pos =>
            bool_decide
              (state_manager.pos_symbol pos
               ∉ (list_to_set
                    (map (fun kv => state_manager.symbol (snd kv))
                         (state_manager.active_trades st))
                  : gset string)))
         broker_positions.
Proof.
  unfold state_manager.reconcile_positions. intros Hrun.
  destruct (state_manager.reconcile_stale_loop _ now1 _ _ _ _)
    as [st' [mib | e]] eqn:Hloop; [|discriminate Hrun].
  apply loop_ok_inv in Hloop as (-> & -> & Hany); [|reflexivity].
  cbn in Hrun. inversion Hrun; subst. cbn.
  split; [reflexivity|]. split; [|repeat split].
  rewrite Hany. reflexivity.
Qed.

Lemma reconcile_twice_same_report_witness :
  state_manager.reconcile_positions 1 ledger.venue_aapl_100 ledger.aapl_50
  = (ledger.aapl_50,
     Ok {| state_manager.missing_in_state := [];
           state_manager.missing_in_broker := [];
           state_manager.qty_mismatch := [] |}).
Proof.
  apply (reconcile_twice_same_report 0 1 ledger.venue_aapl_100
           ledger.aapl_50 ledger.aapl_50).
  vm_compute. reflexivity.
Defined.

(** C6 as stated fails: a venue position that has no ledger trade is listed
    in [missing_in_state] by the first call and again by the second. *)
Lemma reconcile_twice_reports_again :
  let first :=
    state_manager.reconcile_positions 0 ledger.venue_aapl_100
      state_manager._default_state in
  let second :=
    state_manager.reconcile_positions 1 ledger.venue_aapl_100 (fst first) in
  fst first = state_manager._default_state
  /\ snd second
     = Ok {| state_manager.missing_in_state := ledger.venue_aapl_100;
             state_manager.missing_in_broker := [];
             state_manager.qty_mismatch := [] |}
  /\ ~ (forall d2,
          snd second = Ok d2 -> state_manager.missing_in_state d2 = []).
Proof.
  cbv zeta. split; [vm_compute; reflexivity|].
  assert (H : snd (state_manager.reconcile_positions 1 ledger.venue_aapl_100
                     (fst (state_manager.reconcile_positions 0
                             ledger.venue_aapl_100
                             state_manager._default_state)))
              = Ok {| state_manager.missing_in_state := ledger.venue_aapl_100;
                      state_manager.missing_in_broker := [];
                      state_manager.qty_mismatch := [] |})
    by (vm_compute; reflexivity).
  split; [exact H|].
  intros Hall. specialize (Hall _ H). discriminate Hall.
Qed.

(** C5 (the code at the failing inputs). With two persisted trades and no
    venue position, [reconcile_positions] removes the first trade and then
    raises RuntimeError: nothing is reported and the second stale trade
    stays in the ledger.  With 50 AAPL in the ledger and 100 AAPL at the
    venue it reports nothing: [qty_mismatch] is empty.  Only class (a) works:
    a venue position without a trade is listed in [missing_in_state] and the
    ledger is left alone. *)
Theorem reconcile_misses_stale_and_qty :
  (let r := state_manager.reconcile_positions 7 [] ledger.two_stale in
   snd r = Raise ledger.size_changed
   /\ state_manager.active_trades (fst r)
      = [("T2", ledger.long_trade "MSFT" 100 300 294)])
  /\ state_manager.reconcile_positions 7 ledger.venue_aapl_100 ledger.aapl_50
     = (ledger.aapl_50,
        Ok {| state_manager.missing_in_state := [];
              state_manager.missing_in_broker := [];
              state_manager.qty_mismatch := [] |})
  /\ state_manager.reconcile_positions 7 ledger.venue_aapl_100
       state_manager._default_state
     = (state_manager._default_state,
        Ok {| state_manager.missing_in_state := ledger.venue_aapl_100;
              state_manager.missing_in_broker := [];
              state_manager.qty_mismatch := [] |}).
Proof.
  cbv zeta. repeat split; vm_compute; reflexivity.
Qed.

(** ** Total open risk *)












(** * Further properties of the code *)

(** ** Moving averages and crossovers *)

Lemma ewm_alpha_unit (period : Z) :
  (1 <= period)%Z ->
  0 < indicators.ewm_alpha period /\ indicators.ewm_alpha period <= 1.
Proof.
  intros Hp. unfold indicators.ewm_alpha.
  assert (Hden : 2 <= inject_Z period + 1).
  { change 2 with (inject_Z 1 + 1). apply Qplus_le_l.
    rewrite <- Zle_Qle. exact Hp. }
  split.
  - apply Qlt_shift_div_l; lra.
  - apply Qle_shift_div_r; lra.
Qed.

Lemma ewm_from_bounds (alpha lo hi : Q) (data : list Q) :
  0 <= alpha -> alpha <= 1 ->
  forall prev,
    lo <= prev <= hi ->
    (forall x, In x data -> lo <= x <= hi) ->
    forall y, In y (indicators.ewm_from alpha prev data) -> lo <= y <= hi.
Proof.
  intros Ha0 Ha1. induction data as [|x rest IH]; intros prev Hprev Hdata y Hy.
  - contradiction.
  - cbn in Hy.
    assert (Hstep : lo <= (1 - alpha) * prev + alpha * x <= hi).
    { destruct (Hdata x (or_introl eq_refl)) as [Hx1 Hx2].
      destruct Hprev as [Hp1 Hp2]. split; nra. }
    destruct Hy as [<- | Hy]; [exact Hstep|].
    apply (IH _ Hstep); [|exact Hy].
    intros z Hz. apply Hdata. now right.
Qed.

Lemma ewm_from_length (alpha prev : Q) (data : list Q) :
  length (indicators.ewm_from alpha prev data) = length data.
Proof.
  revert prev. induction data as [|x rest IH]; intros prev; cbn;
    [reflexivity | now rewrite IH].
Qed.

(** X1. For a span of at least one, [calculate_ema] returns a series as long
    as its input that starts at the first sample and never leaves the range
    of the data: bounds on all samples are bounds on every EMA value.  A
    span below one is rejected. *)
Theorem calculate_ema_within_range (data : list Q) (period : Z) (lo hi : Q) :
  ((period < 1)%Z -> indicators.calculate_ema data period = None)
  /\ ((1 <= period)%Z ->
      (forall x, In x data -> lo <= x <= hi) ->
      exists ema,
        indicators.calculate_ema data period = Some ema
        /\ length ema = length data
        /\ nth_error ema 0 = nth_error data 0
        /\ forall y, In y ema -> lo <= y <= hi).
Proof.
  unfold indicators.calculate_ema. split.
  - intros H. apply Z.ltb_lt in H. now rewrite H.
  - intros Hp Hdata.
    replace (period <? 1)%Z with false by (symmetry; apply Z.ltb_ge; lia).
    eexists. split; [reflexivity|].
    destruct data as [|x0 rest]; [repeat split; contradiction|].
    split; [cbn; now rewrite ewm_from_length|].
    split; [reflexivity|].
    intros y [<- | Hy]; [apply Hdata; now left|].
    destruct (ewm_alpha_unit period Hp) as [Ha0 Ha1].
    apply (ewm_from_bounds (indicators.ewm_alpha period) lo hi rest
             (Qlt_le_weak _ _ Ha0) Ha1 x0); [| |exact Hy].
    + apply Hdata. now left.
    + intros z Hz. apply Hdata. now right.
Qed.

Lemma calculate_ema_within_range_witness :
  exists ema,
    indicators.calculate_ema [10; 12; 11] 9 = Some ema
    /\ length ema = 3%nat
    /\ nth_error ema 0 = Some 10
    /\ forall y, In y ema -> 10 <= y <= 12.
Proof.
  apply (proj2 (calculate_ema_within_range [10; 12; 11] 9 10 12)).
  - lia.
  - intros x [<- | [<- | [<- | []]]]; split; discriminate.
Defined.

Lemma is_trend_last (f0 s0 : list Q) (cf cs : Q) :
  indicators.is_trend_bullish (f0 ++ [cf]) (s0 ++ [cs]) = Ok (Qgtb cf cs)
  /\ indicators.is_trend_bearish (f0 ++ [cf]) (s0 ++ [cs]) = Ok (Qltb cf cs).
Proof.
  unfold indicators.is_trend_bullish, indicators.is_trend_bearish.
  rewrite !length_app. cbn [length].
  replace (length f0 + 1 <? 1)%nat with false
    by (symmetry; apply Nat.ltb_ge; lia).
  replace (length s0 + 1 <? 1)%nat with false
    by (symmetry; apply Nat.ltb_ge; lia).
  cbn [orb]. rewrite !iloc_back_last. split; reflexivity.
Qed.

Lemma detect_ema_crossover_short (fast_ema slow_ema : list Q) :
  (length fast_ema < 2)%nat \/ (length slow_ema < 2)%nat ->
  indicators.detect_ema_crossover fast_ema slow_ema = Ok (false, false).
Proof.
  intros H. unfold indicators.detect_ema_crossover.
  destruct H as [H | H]; apply Nat.ltb_lt in H; rewrite H.
  - reflexivity.
  - now rewrite orb_true_r.
Qed.

(** X2. [detect_ema_crossover] never reports a bullish and a bearish cross
    at once, and its answer agrees with the trend tests: after a bullish
    cross [is_trend_bullish] holds and [is_trend_bearish] does not, and the
    other way round after a bearish cross. *)
Theorem crossover_exclusive_and_trend
    (fast_ema slow_ema : list Q) (bullish bearish : bool) :
  indicators.detect_ema_crossover fast_ema slow_ema = Ok (bullish, bearish) ->
  bullish && bearish = false
  /\ (bullish = true ->
      indicators.is_trend_bullish fast_ema slow_ema = Ok true
      /\ indicators.is_trend_bearish fast_ema slow_ema = Ok false)
  /\ (bearish = true ->
      indicators.is_trend_bearish fast_ema slow_ema = Ok true
      /\ indicators.is_trend_bullish fast_ema slow_ema = Ok false).
Proof.
  intros Hdet.
  destruct (le_lt_dec 2 (length fast_ema)) as [Hf | Hf];
    [destruct (le_lt_dec 2 (length slow_ema)) as [Hs | Hs]|].
  - destruct (last_two_samples _ Hf) as (f0 & pf & cf & ->).
    destruct (last_two_samples _ Hs) as (s0 & ps & cs & ->).
    rewrite detect_ema_crossover_last_two in Hdet.
    inversion Hdet as [[Hbull Hbear]]. clear Hdet.
    change (f0 ++ [pf; cf]) with (f0 ++ [pf] ++ [cf]).
    change (s0 ++ [ps; cs]) with (s0 ++ [ps] ++ [cs]).
    rewrite !app_assoc.
    destruct (is_trend_last (f0 ++ [pf]) (s0 ++ [ps]) cf cs) as [-> ->].
    unfold Qgtb.
    destruct (Qltb cs cf) eqn:Hup; destruct (Qltb cf cs) eqn:Hdown.
    + apply Qltb_lt in Hup. apply Qltb_lt in Hdown.
      exfalso. exact (Qlt_irrefl _ (Qlt_trans _ _ _ Hup Hdown)).
    + rewrite andb_false_r. split; [apply andb_false_r|].
      split; [auto | discriminate].
    + rewrite andb_false_r. split; [reflexivity|].
      split; [discriminate | auto].
    + rewrite !andb_false_r. split; [reflexivity|]. split; discriminate.
  - rewrite (detect_ema_crossover_short _ _ (or_intror Hs)) in Hdet.
    inversion Hdet. split; [reflexivity|]. split; discriminate.
  - rewrite (detect_ema_crossover_short _ _ (or_introl Hf)) in Hdet.
    inversion Hdet. split; [reflexivity|]. split; discriminate.
Qed.

Lemma crossover_exclusive_and_trend_witness :
  indicators.is_trend_bullish [1; 3] [2; 2] = Ok true
  /\ indicators.is_trend_bearish [1; 3] [2; 2] = Ok false.
Proof.
  apply (crossover_exclusive_and_trend [1; 3] [2; 2] true false);
    reflexivity.
Defined.

Lemma Qsum_acc_bounds (lo hi : Q) (l : list Q) :
  (forall x, In x l -> lo <= x <= hi) ->
  forall acc,
    acc + inject_Z (Z.of_nat (length l)) * lo <= fold_left Qplus l acc
    /\ fold_left Qplus l acc <= acc + inject_Z (Z.of_nat (length l)) * hi.
Proof.
  induction l as [|x l IH]; intros Hl acc.
  - cbn [fold_left length]. change (inject_Z (Z.of_nat 0)) with 0.
    split; lra.
  - cbn [fold_left length]. rewrite Nat2Z.inj_succ.
    unfold Z.succ. rewrite inject_Z_plus.
    destruct (Hl x (or_introl eq_refl)) as [Hx1 Hx2].
    destruct (IH (fun z Hz => Hl z (or_intror Hz)) (acc + x)) as [H1 H2].
    change (inject_Z 1) with 1. split; lra.
Qed.

Lemma In_firstn_skipn {A} (x : A) (n m : nat) (l : list A) :
  In x (firstn n (skipn m l)) -> In x l.
Proof.
  intros H.
  assert (Hskip : In x (skipn m l)).
  { rewrite <- (firstn_skipn n (skipn m l)). apply in_or_app. now left. }
  rewrite <- (firstn_skipn m l). apply in_or_app. now right.
Qed.

Lemma last_map_seq {A} (f : nat -> A) (n : nat) (d : A) :
  List.last (map f (seq 0 (S n))) d = f n.
Proof.
  rewrite seq_S, map_app. cbn. apply last_last.
Qed.

Lemma sma_last_short (data : list Q) (period : nat) :
  (length data < period)%nat ->
  List.last (indicators.calculate_sma data period) None = None.
Proof.
  intros Hshort. unfold indicators.calculate_sma.
  destruct (length data) as [|n] eqn:Hlen; [reflexivity|].
  rewrite last_map_seq. unfold indicators.rolling_mean_at.
  replace (S n <? period)%nat with true; [reflexivity|].
  symmetry. apply Nat.ltb_lt. exact Hshort.
Qed.

(** X3. [calculate_sma] returns one value per sample, NaN until the window
    is full and afterwards a mean that stays within the range of the data.
    With fewer samples than the window the last value is NaN, so
    [is_above_sma] and [is_below_sma] are both False: no trend direction is
    accepted on a short history.  They are never both True. *)
Theorem sma_trend_filter (data : list Q) (period : nat) (price lo hi : Q) :
  length (indicators.calculate_sma data period) = length data
  /\ ((length data < period)%nat ->
      indicators.is_above_sma price (indicators.calculate_sma data period)
      = false
      /\ indicators.is_below_sma price (indicators.calculate_sma data period)
         = false)
  /\ (forall sma,
        indicators.is_above_sma price sma && indicators.is_below_sma price sma
        = false)
  /\ ((1 <= period)%nat ->
      (forall x, In x data -> lo <= x <= hi) ->
      forall i,
        (i < length data)%nat ->
        match nth_error (indicators.calculate_sma data period) i with
        | Some (Some v) => (period <= S i)%nat /\ lo <= v <= hi
        | Some None => (S i < period)%nat
        | None => False
        end).
Proof.
  split; [unfold indicators.calculate_sma; now rewrite length_map, length_seq|].
  split.
  { intros Hshort. unfold indicators.is_above_sma, indicators.is_below_sma.
    rewrite sma_last_short by exact Hshort. split; reflexivity. }
  split.
  { intros sma. unfold indicators.is_above_sma, indicators.is_below_sma.
    destruct (List.last sma None) as [v|]; [|reflexivity].
    destruct (Qgtb price v) eqn:Hup; [|reflexivity].
    destruct (Qltb price v) eqn:Hdown; [|reflexivity].
    apply Qgtb_gt in Hup. apply Qltb_lt in Hdown.
    exfalso. exact (Qlt_irrefl _ (Qlt_trans _ _ _ Hup Hdown)). }
  intros Hperiod Hdata i Hi. unfold indicators.calculate_sma.
  rewrite nth_error_map, nth_error_seq.
  replace (i <? length data)%nat with true
    by (symmetry; apply Nat.ltb_lt; exact Hi).
  cbn. unfold indicators.rolling_mean_at.
  destruct (S i <? period)%nat eqn:Hfull.
  - apply Nat.ltb_lt in Hfull. exact Hfull.
  - apply Nat.ltb_ge in Hfull. split; [exact Hfull|].
    set (window := firstn period (skipn (S i - period) data)).
    assert (Hlen : length window = period).
    { subst window. rewrite length_firstn, length_skipn. lia. }
    assert (Hwin : forall x, In x window -> lo <= x <= hi).
    { intros x Hx. apply Hdata. subst window.
      now apply In_firstn_skipn in Hx. }
    destruct (Qsum_acc_bounds lo hi window Hwin 0) as [H1 H2].
    rewrite Hlen in H1, H2. fold (Qsum window) in H1, H2.
    assert (Hn : 0 < inject_Z (Z.of_nat period)).
    { change 0 with (inject_Z 0). rewrite <- Zlt_Qlt. lia. }
    split.
    + apply Qle_shift_div_l; [exact Hn|]. lra.
    + apply Qle_shift_div_r; [exact Hn|]. lra.
Qed.

Lemma sma_trend_filter_witness :
  indicators.is_above_sma 150
    (indicators.calculate_sma [100; 101; 102] 200) = false
  /\ match nth_error (indicators.calculate_sma [100; 101; 102] 2) 2 with
     | Some (Some v) => (2 <= 3)%nat /\ 100 <= v <= 102
     | Some None => (3 < 2)%nat
     | None => False
     end.
Proof.
  pose proof (sma_trend_filter [100; 101; 102] 200 150 100 102)
    as (_ & Hshort & _ & _).
  pose proof (sma_trend_filter [100; 101; 102] 2 150 100 102)
    as (_ & _ & _ & Hfull).
  split.
  - apply Hshort. cbn. lia.
  - apply (Hfull ltac:(lia)).
    + intros x [<- | [<- | [<- | []]]]; split; discriminate.
    + cbn. lia.
Defined.

(** ** Stops, guards and multiples *)



(** X5. [check_dont_chase] compares the rounded distance between entry
    price and EMA with the rounded band [atr * multiplier].  An entry whose
    distance to the EMA is within [atr * multiplier] always passes; the
    guard is the same for an entry above and an entry below the EMA; an
    entry that passes still passes closer to the EMA or with a wider band;
    and nothing passes when the rounded band is negative.  At the boundary
    the guard also lets through what lies just outside the band: entry
    14.5297 with EMA 12.67, ATR 2.4796 and multiplier 0.75 passes, its
    distance being above [atr * multiplier]. *)
Theorem dont_chase_band (entry_price ema_value atr multiplier : Q) :
  (Qabs (entry_price - ema_value) <= atr * multiplier ->
   indicators.check_dont_chase entry_price ema_value atr multiplier = true)
  /\ indicators.check_dont_chase entry_price ema_value atr multiplier
     = indicators.check_dont_chase ema_value entry_price atr multiplier
  /\ (forall entry_price' ema_value' atr' multiplier',
        indicators.check_dont_chase entry_price ema_value atr multiplier
        = true ->
        Qabs (entry_price' - ema_value') <= Qabs (entry_price - ema_value) ->
        atr * multiplier <= atr' * multiplier' ->
        indicators.check_dont_chase entry_price' ema_value' atr' multiplier'
        = true)
  /\ (fmul atr multiplier < 0 ->
      indicators.check_dont_chase entry_price ema_value atr multiplier
      = false)
  /\ (let entry := f64 14.5297 in
      let ema := f64 12.67 in
      let band_atr := f64 2.4796 in
      indicators.check_dont_chase entry ema band_atr 0.75 = true
      /\ band_atr * 0.75 < Qabs (entry - ema)).
Proof.
  assert (Hdist : forall e m,
    indicators.calculate_entry_to_ema_distance e m == round64 (Qabs (e - m))).
  { intros e m. unfold indicators.calculate_entry_to_ema_distance, fsub.
    apply round64_abs. }
  unfold indicators.check_dont_chase.
  split; [|split; [|split; [|split]]].
  - intros Hin. apply Qleb_le. rewrite Hdist. now apply round64_mono.
  - apply Qleb_comp; [|reflexivity]. rewrite !Hdist.
    apply round64_comp. rewrite <- (Qabs_opp (entry_price - ema_value)).
    apply Qabs_wd. ring.
  - intros e' m' atr' multiplier' Hpass Hcloser Hwider.
    apply Qleb_le in Hpass. apply Qleb_le.
    rewrite Hdist in *.
    eapply Qle_trans; [apply round64_mono, Hcloser|].
    eapply Qle_trans; [exact Hpass|]. now apply round64_mono.
  - intros Hneg.
    destruct (Qleb _ _) eqn:E; [|reflexivity].
    apply Qleb_le in E. rewrite Hdist in E.
    pose proof (round64_nonneg _ (Qabs_nonneg (entry_price - ema_value))).
    lra.
  - vm_compute. split; reflexivity.
Qed.

Lemma dont_chase_band_witness :
  indicators.check_dont_chase 50 51 2 0.75 = true
  /\ indicators.check_dont_chase 50 51 (-2) 0.75 = false.
Proof.
  split.
  - apply (proj1 (dont_chase_band 50 51 2 0.75)). vm_compute. discriminate.
  - apply (proj1 (proj2 (proj2 (proj2 (dont_chase_band 50 51 (-2) 0.75))))).
    vm_compute. reflexivity.
Defined.

Lemma Qabs_div_pos (a b : Q) : 0 < b -> Qabs (a / b) == Qabs a / b.
Proof.
  intros Hb. unfold Qdiv. rewrite Qabs_Qmult.
  rewrite (Qabs_pos (/ b)); [reflexivity|].
  apply Qlt_le_weak, Qinv_lt_0_compat, Hb.
Qed.

Lemma gap_percent_abs (current_open previous_close : Q) :
  0 < previous_close ->
  Qabs (indicators.calculate_gap_percent current_open previous_close)
  == round64 (round64 (Qabs (current_open - previous_close))
              / previous_close).
Proof.
  intros Hpos. unfold indicators.calculate_gap_percent, fdiv, fsub.
  destruct (Qeq_bool previous_close 0) eqn:E;
    [apply Qeq_bool_iff in E; lra|].
  rewrite round64_abs. apply round64_comp.
  rewrite (Qabs_div_pos _ _ Hpos). now rewrite round64_abs.
Qed.

(** X6. A zero previous close gives a gap of 0 instead of a division error,
    so such a day is never a gap day for a positive threshold.  For a
    positive previous close and a threshold that is a float, the day is a
    gap day whenever the rounded difference between open and previous close
    is at least threshold * previous close, in either direction; a gap day
    stays one when the open moves further from the close; and an open equal
    to the close is no gap day for a positive threshold.  At the boundary
    the test also accepts a little less: open 53.1159 after a close of 52.59
    is a gap day at the threshold 0.01, the quotient rounding up to the
    threshold. *)
Theorem gap_day_rule (current_open previous_close threshold : Q) :
  (previous_close == 0 ->
   indicators.calculate_gap_percent current_open previous_close == 0
   /\ (0 < threshold ->
       indicators.is_gap_day
         (indicators.calculate_gap_percent current_open previous_close)
         threshold = false))
  /\ (0 < previous_close ->
      round64 threshold == threshold ->
      threshold * previous_close
        <= Qabs (fsub current_open previous_close) ->
      indicators.is_gap_day
        (indicators.calculate_gap_percent current_open previous_close)
        threshold = true)
  /\ (0 < previous_close ->
      forall further_open,
        indicators.is_gap_day
          (indicators.calculate_gap_percent current_open previous_close)
          threshold = true ->
        Qabs (current_open - previous_close)
          <= Qabs (further_open - previous_close) ->
        indicators.is_gap_day
          (indicators.calculate_gap_percent further_open previous_close)
          threshold = true)
  /\ (0 < threshold ->
      indicators.is_gap_day
        (indicators.calculate_gap_percent previous_close previous_close)
        threshold = false)
  /\ (let open := f64 53.1159 in
      let close := f64 52.59 in
      let gap_threshold := f64 0.01 in
      indicators.is_gap_day (indicators.calculate_gap_percent open close)
        gap_threshold = true
      /\ Qabs (open - close) < gap_threshold * close).
Proof.
  split; [|split; [|split; [|split]]].
  - unfold indicators.calculate_gap_percent, indicators.is_gap_day.
    intros Hzero. apply Qeq_bool_iff in Hzero. rewrite Hzero.
    split; [reflexivity|]. intros Hthr.
    destruct (Qgeb (Qabs 0) threshold) eqn:E; [|reflexivity].
    apply Qgeb_ge in E. change (Qabs 0) with 0 in E. lra.
  - intros Hpos Hfloat Hgap. unfold indicators.is_gap_day.
    apply Qgeb_ge. rewrite (gap_percent_abs _ _ Hpos), <- Hfloat.
    apply round64_mono. apply Qle_shift_div_l; [exact Hpos|].
    unfold fsub in Hgap. now rewrite round64_abs in Hgap.
  - intros Hpos further_open Hgap Hfurther. unfold indicators.is_gap_day in *.
    apply Qgeb_ge in Hgap. apply Qgeb_ge.
    rewrite (gap_percent_abs current_open _ Hpos) in Hgap.
    rewrite (gap_percent_abs further_open _ Hpos).
    eapply Qle_trans; [exact Hgap|]. apply round64_mono.
    apply Qmult_le_compat_r;
      [now apply round64_mono
      | now apply Qlt_le_weak, Qinv_lt_0_compat].
  - intros Hthr. unfold indicators.is_gap_day.
    destruct (Qgeb _ threshold) eqn:E; [|reflexivity].
    apply Qgeb_ge in E. exfalso.
    assert (Hzero : indicators.calculate_gap_percent previous_close
                      previous_close == 0).
    { unfold indicators.calculate_gap_percent, fdiv, fsub.
      destruct (Qeq_bool previous_close 0); [reflexivity|].
      rewrite (round64_zero (previous_close - previous_close)) by ring.
      rewrite round64_zero; [reflexivity | unfold Qdiv; ring]. }
    rewrite Hzero in E. change (Qabs 0) with 0 in E. lra.
  - vm_compute. split; reflexivity.
Qed.

Lemma gap_day_rule_witness :
  indicators.is_gap_day (indicators.calculate_gap_percent 101 0) 0.01 = false
  /\ indicators.is_gap_day
       (indicators.calculate_gap_percent 98.5 100) (f64 0.01)
     = true.
Proof.
  split.
  - apply (proj1 (gap_day_rule 101 0 0.01)); reflexivity.
  - apply (proj1 (proj2 (gap_day_rule 98.5 100 (f64 0.01)))).
    + reflexivity.
    + vm_compute. reflexivity.
    + vm_compute. discriminate.
Defined.

(** X7. [calculate_r_multiple] is 0 for a zero stop distance; the multiple
    of a short is the negative of the multiple of a long over the same
    prices; and for a positive stop distance a long trade is at +1R or more
    exactly when the price has moved up by the stop distance, and at
    exactly -1R at its stop. *)
Theorem r_multiple_rules (entry_price current_price stop_distance : Q) :
  (stop_distance == 0 ->
   forall is_long,
     indicators.calculate_r_multiple entry_price current_price stop_distance
       is_long == 0)
  /\ indicators.calculate_r_multiple entry_price current_price stop_distance
       false
     == - indicators.calculate_r_multiple entry_price current_price
            stop_distance true
  /\ (0 < stop_distance ->
      (1 <= indicators.calculate_r_multiple entry_price current_price
              stop_distance true
       <-> entry_price + stop_distance <= current_price)
      /\ indicators.calculate_r_multiple entry_price
           (entry_price - stop_distance) stop_distance true == -1).
Proof.
  unfold indicators.calculate_r_multiple. split; [|split].
  - intros Hzero is_long. apply Qeq_bool_iff in Hzero. now rewrite Hzero.
  - destruct (Qeq_bool stop_distance 0) eqn:E; [reflexivity|].
    apply Qeq_bool_neq in E. field. exact E.
  - intros Hpos.
    destruct (Qeq_bool stop_distance 0) eqn:E.
    { apply Qeq_bool_iff in E. lra. }
    split.
    + split; intros H.
      * apply (Qmult_le_compat_r _ _ stop_distance) in H; [|lra].
        unfold Qdiv in H. rewrite <- Qmult_assoc in H.
        rewrite (Qmult_comm (/ stop_distance)) in H.
        rewrite Qmult_inv_r, Qmult_1_r in H by lra. lra.
      * apply Qle_shift_div_l; [exact Hpos|]. lra.
    + field. lra.
Qed.

Lemma r_multiple_rules_witness :
  indicators.calculate_r_multiple 100 97 3 true == -1
  /\ indicators.calculate_r_multiple 100 105 0 true == 0.
Proof.
  split.
  - apply (proj2 (proj2 (proj2 (r_multiple_rules 100 97 3)) eq_refl)).
  - apply (proj1 (r_multiple_rules 100 105 0) eq_refl).
Defined.

(** ** Risk controller *)

Lemma Ok_pair_inj {A B} (a a' : A) (b b' : B) :
  Ok (a, b) = Ok (a', b') -> a = a' /\ b = b'.
Proof. intros H. now inversion H. Qed.

(** X8. Whatever the state of the manager and the equity, the adjusted risk
    percent stays between MIN_RISK_PER_TRADE and MAX_RISK_PER_TRADE. *)
Theorem adjusted_risk_percent_bounds
    (current_equity : Q) (self : risk_manager.RiskManager) :
  config.MIN_RISK_PER_TRADE
    <= risk_manager.get_adjusted_risk_percent current_equity self
  /\ risk_manager.get_adjusted_risk_percent current_equity self
     <= config.MAX_RISK_PER_TRADE.
Proof.
  unfold risk_manager.get_adjusted_risk_percent.
  destruct (indicators.is_in_drawdown _ _ _).
  - split; discriminate.
  - destruct (_ && _); split; discriminate.
Qed.

(** The widened stop distance is a float. *)
Lemma widened_stop_distance_float (entry_price stop_price median_spread : Q) :
  round64
    (risk_manager.widened_stop_distance entry_price stop_price median_spread)
  == risk_manager.widened_stop_distance entry_price stop_price median_spread.
Proof.
  unfold risk_manager.widened_stop_distance, py_max, fmul, fsub, f64.
  destruct (Qltb _ _).
  - destruct (Qgtb _ _); apply round64_idem.
  - rewrite round64_abs. apply round64_idem.
Qed.

(** X9. For a positive stop distance and a quotient below 2^53, the risk of
    the position the manager sizes, shares * stop distance, stays within one
    stop distance of the risk budget, the float product of equity and risk
    percent, whenever the budget covers at least one share: it can miss the
    budget and, the quotient being rounded before it is truncated, it can
    exceed it, as with equity 100000, entry 23.80828793774319, stop 20.89
    and spread 0.01, where 257 shares carry a risk of 750.0000000000001
    against a budget of 750.  When the budget is below one stop distance the
    one-share floor applies and the reported risk is that stop distance,
    above the budget. *)
Theorem sized_risk_against_budget
    (account_equity entry_price stop_price median_spread : Q)
    (self : risk_manager.RiskManager) (shares : Z) (actual_risk : Q) :
  let stop_distance :=
    risk_manager.widened_stop_distance entry_price stop_price median_spread in
  let budget :=
    fmul account_equity
      (f64 (risk_manager.get_adjusted_risk_percent account_equity self)) in
  (0 < stop_distance ->
   budget / stop_distance < inject_Z (2 ^ 53) ->
   risk_manager.calculate_position_size account_equity entry_price stop_price
     median_spread self = Ok (shares, actual_risk) ->
   (stop_distance <= budget ->
    budget - stop_distance < inject_Z shares * stop_distance
    /\ inject_Z shares * stop_distance < budget + stop_distance
    /\ round64 (budget - stop_distance) <= actual_risk
    /\ actual_risk <= round64 (budget + stop_distance))
   /\ (budget < stop_distance ->
       shares = 1%Z /\ actual_risk == stop_distance /\ budget < actual_risk))
  /\ (let entry := f64 23.80828793774319 in
      let stop := f64 20.89 in
      let spread := f64 0.01 in
      fmul 100000
        (f64 (risk_manager.get_adjusted_risk_percent 100000
                risk_manager.__init__)) == 750
      /\ exists risk,
           risk_manager.calculate_position_size 100000 entry stop spread
             risk_manager.__init__ = Ok (257%Z, risk)
           /\ 750 < risk).
Proof.
  cbv zeta. split.
  2:{ split; [vm_compute; reflexivity|].
      eexists. split; [vm_compute; reflexivity | vm_compute; reflexivity]. }
  intros Hsd Hq Hsize.
  pose proof (widened_stop_distance_float entry_price stop_price
                median_spread) as Hfloat.
  set (sd := risk_manager.widened_stop_distance entry_price stop_price
               median_spread) in *.
  unfold risk_manager.calculate_position_size in Hsize.
  fold sd in Hsize.
  set (budget := fmul account_equity
                   (f64 (risk_manager.get_adjusted_risk_percent
                           account_equity self))) in *.
  rewrite py_fdiv_ok in Hsize by lra. cbn [rbind] in Hsize.
  apply Ok_pair_inj in Hsize as [Hshares Hrisk].
  rewrite <- Hrisk, <- Hshares. clear Hrisk.
  unfold fdiv in *.
  pose proof (Qfloor_le (budget / sd)) as Hlo.
  pose proof (Qlt_floor (budget / sd)) as Hhi.
  assert (Hmul : budget / sd * sd == budget) by (field; lra).
  destruct (sized_shares_floor_or_next (budget / sd) Hq) as [Hs | [Hs Hup]];
    rewrite Hs; clear Hs Hshares shares actual_risk.
  - (* the truncated quotient is the floor *)
    set (q := budget / sd) in *. clearbody q.
    rewrite inject_Z_plus in Hhi. change (inject_Z 1) with 1 in Hhi.
    split.
    + intros Hcover.
      assert (Hone : (1 <= Qfloor q)%Z).
      { change 1%Z with (Qfloor 1). apply Qfloor_resp_le.
        assert (sd <= q * sd) by lra. nra. }
      rewrite Z.max_r by exact Hone.
      set (f := inject_Z (Qfloor q)) in *.
      assert (H1 : f * sd <= q * sd) by (apply Qmult_le_compat_r; lra).
      assert (H2 : q * sd < (f + 1) * sd) by (apply Qmult_lt_compat_r; lra).
      split; [lra|]. split; [lra|].
      unfold fmul. split; apply round64_mono; lra.
    + intros Hshort.
      assert (Hzero : (Qfloor q < 1)%Z).
      { destruct (Z.lt_ge_cases (Qfloor q) 1) as [H | H]; [exact H|].
        exfalso. assert (Hq1 : 1 <= q).
        { eapply Qle_trans; [|exact Hlo].
          change 1 with (inject_Z 1). rewrite <- Zle_Qle. exact H. }
        assert (1 * sd <= q * sd) by (apply Qmult_le_compat_r; lra). lra. }
      rewrite Z.max_l by lia. change (inject_Z 1) with 1.
      split; [reflexivity|].
      assert (E : fmul 1 sd == sd).
      { unfold fmul. rewrite <- Hfloat at 2. apply round64_comp. ring. }
      rewrite E. split; [reflexivity | lra].
  - (* the quotient rounds up to the next integer *)
    set (q := budget / sd) in *.
    assert (Hq0 : 0 <= q \/ q < 0) by (destruct (Qlt_le_dec q 0); auto).
    rewrite inject_Z_plus in Hhi, Hup. change (inject_Z 1) with 1 in Hhi, Hup.
    split.
    + intros Hcover.
      assert (Hq1 : 1 <= q).
      { apply Qle_shift_div_l; [exact Hsd | lra]. }
      assert (Hone : (1 <= Qfloor q)%Z).
      { change 1%Z with (Qfloor 1). now apply Qfloor_resp_le. }
      rewrite Z.max_r by lia.
      rewrite inject_Z_plus. change (inject_Z 1) with 1.
      assert (Hstrict : inject_Z (Qfloor q) < q).
      { destruct (Qle_lt_or_eq _ _ Hlo) as [H | H]; [exact H|]. exfalso.
        assert (H53 : (Qfloor q <= 2 ^ 53)%Z).
        { rewrite Zle_Qle. apply Qlt_le_weak.
          eapply Qle_lt_trans; [exact Hlo | exact Hq]. }
        pose proof (round64_Z (Qfloor q) ltac:(lia)) as Hn.
        rewrite (round64_comp _ _ H) in Hn. lra. }
      clearbody q. set (f := inject_Z (Qfloor q)) in *.
      assert (H1 : f * sd < q * sd) by (apply Qmult_lt_compat_r; lra).
      assert (H2 : q * sd < (f + 1) * sd) by (apply Qmult_lt_compat_r; lra).
      split; [lra|]. split; [lra|].
      unfold fmul. split; apply round64_mono; lra.
    + intros Hshort.
      assert (Hq1 : q < 1).
      { apply Qlt_shift_div_r; [exact Hsd | lra]. }
      assert (Hzero : (Qfloor q < 1)%Z).
      { rewrite Zlt_Qlt. eapply Qle_lt_trans; [exact Hlo | exact Hq1]. }
      rewrite Z.max_l by lia. change (inject_Z 1) with 1.
      split; [reflexivity|].
      assert (E : fmul 1 sd == sd).
      { unfold fmul. rewrite <- Hfloat at 2. apply round64_comp. ring. }
      rewrite E. split; [reflexivity | lra].
Qed.

Lemma sized_risk_against_budget_witness :
  risk_manager.calculate_position_size 1000 400 380 0.05
    risk_manager.__init__ = Ok (1%Z, 20)
  /\ fmul 1000
       (f64 (risk_manager.get_adjusted_risk_percent 1000
               risk_manager.__init__)) < 20.
Proof.
  assert (Hsize : risk_manager.calculate_position_size 1000 400 380 0.05
                    risk_manager.__init__ = Ok (1%Z, 20))
    by (vm_compute; reflexivity).
  split; [exact Hsize|].
  destruct (proj1 (sized_risk_against_budget 1000 400 380 0.05
                     risk_manager.__init__ 1%Z 20)) as [_ H].
  - vm_compute. reflexivity.
  - vm_compute. reflexivity.
  - exact Hsize.
  - destruct H as (_ & _ & H3); [vm_compute; reflexivity|]. exact H3.
Defined.

(** X10. [initialize_day] never lowers the peak equity and leaves it at or
    above the equity given; it appends the day's equity to the history and
    keeps the last 30 entries of the result, all of them when there are
    fewer, dropping only older ones; it never touches the registered risks.
    Called again on the session's date it keeps the day's P&L, start equity,
    loss counter and both pause flags; on any other date it resets them and
    takes the equity as the day's start equity. *)
Theorem initialize_day_invariants
    (today : Z) (equity : Q) (self : risk_manager.RiskManager) :
  let self' := risk_manager.initialize_day today equity self in
  risk_manager.peak_equity self <= risk_manager.peak_equity self'
  /\ equity <= risk_manager.peak_equity self'
  /\ (exists dropped,
        risk_manager.equity_history self ++ [(today, equity)]
        = dropped ++ risk_manager.equity_history self'
        /\ length (risk_manager.equity_history self')
           = Nat.min 30 (S (length (risk_manager.equity_history self))))
  /\ List.last (risk_manager.equity_history self') (0%Z, 0) = (today, equity)
  /\ risk_manager.trade_risk self' = risk_manager.trade_risk self
  /\ risk_manager.last_session_date self' = Some today
  /\ (risk_manager.last_session_date self = Some today ->
      risk_manager.daily_pnl self' = risk_manager.daily_pnl self
      /\ risk_manager.daily_start_equity self'
         = risk_manager.daily_start_equity self
      /\ risk_manager.consecutive_losses self'
         = risk_manager.consecutive_losses self
      /\ risk_manager.paused_until_next_session self'
         = risk_manager.paused_until_next_session self
      /\ risk_manager.circuit_breaker_active self'
         = risk_manager.circuit_breaker_active self)
  /\ (risk_manager.last_session_date self <> Some today ->
      risk_manager.daily_pnl self' = 0
      /\ risk_manager.daily_start_equity self' = equity
      /\ risk_manager.consecutive_losses self' = 0%Z
      /\ risk_manager.paused_until_next_session self' = false
      /\ risk_manager.circuit_breaker_active self' = false).
Proof.
  cbv zeta. unfold risk_manager.initialize_day.
  set (new_session := match risk_manager.last_session_date self with
                      | Some d => negb (d =? today)%Z
                      | None => true
                      end).
  assert (Hnew : new_session = false
                 <-> risk_manager.last_session_date self = Some today).
  { subst new_session.
    destruct (risk_manager.last_session_date self) as [d|].
    - rewrite negb_false_iff, Z.eqb_eq. split; congruence.
    - split; discriminate. }
  assert (Hpeak : forall p, p <= (if Qgtb equity p then equity else p)
                            /\ equity <= (if Qgtb equity p then equity else p)).
  { intros p. destruct (Qgtb equity p) eqn:E.
    - apply Qgtb_gt in E. split; [now apply Qlt_le_weak | apply Qle_refl].
    - apply Qgtb_le in E. split; [apply Qle_refl | exact E]. }
  assert (Hhist : forall h : list (Z * Q),
    let h1 := h ++ [(today, equity)] in
    let h2 := if (30 <? length h1)%nat then skipn (length h1 - 30) h1
              else h1 in
    (exists dropped,
       h1 = dropped ++ h2 /\ length h2 = Nat.min 30 (S (length h)))
    /\ List.last h2 (0%Z, 0) = (today, equity)).
  { intros h h1 h2. subst h2.
    assert (Hlen : length h1 = S (length h))
      by (subst h1; rewrite length_app; cbn; lia).
    destruct (30 <? length h1)%nat eqn:E.
    - apply Nat.ltb_lt in E. split.
      + exists (firstn (length h1 - 30) h1).
        split; [symmetry; apply firstn_skipn|].
        rewrite length_skipn. lia.
      + subst h1. rewrite skipn_app.
        replace (length (h ++ [(today, equity)]) - 30 - length h)%nat
          with 0%nat by lia.
        cbn [skipn]. apply last_last.
    - apply Nat.ltb_ge in E. split.
      + exists []. split; [reflexivity | lia].
      + subst h1. apply last_last. }
  destruct new_session eqn:Enew; cbn.
  - split; [apply Hpeak|]. split; [apply Hpeak|].
    split; [apply (Hhist _)|]. split; [apply (Hhist _)|].
    split; [reflexivity|]. split; [reflexivity|]. split.
    + intros Hd. apply Hnew in Hd. discriminate Hd.
    + intros _. repeat split.
  - pose proof (proj1 Hnew eq_refl) as Hsame.
    split; [apply Hpeak|]. split; [apply Hpeak|].
    split; [apply (Hhist _)|]. split; [apply (Hhist _)|].
    split; [reflexivity|]. split; [exact Hsame|]. split.
    + intros _. repeat split.
    + intros Hd. contradiction.
Qed.

Lemma initialize_day_invariants_witness :
  risk_manager.daily_pnl
    (risk_manager.initialize_day 19000 99000
       (risk_manager.update_daily_pnl (-1000) scenarios.rm_peak_100000))
  = risk_manager.daily_pnl
      (risk_manager.update_daily_pnl (-1000) scenarios.rm_peak_100000)
  /\ risk_manager.daily_start_equity
       (risk_manager.initialize_day 19001 99000
          (risk_manager.update_daily_pnl (-1000) scenarios.rm_peak_100000))
     = 99000.
Proof.
  split.
  - apply (initialize_day_invariants 19000 99000
             (risk_manager.update_daily_pnl (-1000) scenarios.rm_peak_100000)).
    reflexivity.
  - apply (initialize_day_invariants 19001 99000
             (risk_manager.update_daily_pnl (-1000) scenarios.rm_peak_100000)).
    discriminate.
Defined.

Lemma check_daily_loss_limit_ratio (self : risk_manager.RiskManager) :
  ~ risk_manager.daily_start_equity self == 0 ->
  risk_manager.check_daily_loss_limit self
  = if Qleb (fdiv (risk_manager.daily_pnl self)
               (risk_manager.daily_start_equity self))
         (- f64 config.MAX_DAILY_LOSS)
    then (risk_manager.set_paused_until_next_session true self, true)
    else (self, false).
Proof.
  intros Hnz. unfold risk_manager.check_daily_loss_limit.
  destruct (Qeq_bool _ 0) eqn:E; [|reflexivity].
  apply Qeq_bool_iff in E. contradiction.
Qed.

Lemma daily_loss_breach_iff (self : risk_manager.RiskManager) :
  0 < risk_manager.daily_start_equity self ->
  snd (risk_manager.check_daily_loss_limit self) = true
  <-> fdiv (risk_manager.daily_pnl self) (risk_manager.daily_start_equity self)
      <= - f64 config.MAX_DAILY_LOSS.
Proof.
  intros Hpos. rewrite check_daily_loss_limit_ratio by lra.
  rewrite <- Qleb_le. now destruct (Qleb _ _).
Qed.

(** X11. [check_daily_loss_limit] compares the rounded ratio of the day's
    P&L to the day-start equity with the float -MAX_DAILY_LOSS.  With a
    positive start equity a P&L at or below -MAX_DAILY_LOSS of it always
    breaches, a breach stays one for a lower P&L, and a P&L of zero or more
    never breaches; a breach sets the pause, so [can_enter_new_trade] is
    False afterwards; without a breach, and always when the start equity is
    0, the manager is unchanged.  The check never clears a pause.  At the
    limit the check also breaches a little early: with a start equity of
    124957.44 a P&L of -3748.7232 breaches, the ratio rounding to -0.03. *)
Theorem daily_loss_limit_rule (self : risk_manager.RiskManager) :
  let result := risk_manager.check_daily_loss_limit self in
  (0 < risk_manager.daily_start_equity self ->
   (risk_manager.daily_pnl self
    <= - config.MAX_DAILY_LOSS * risk_manager.daily_start_equity self ->
    snd result = true)
   /\ (0 <= risk_manager.daily_pnl self -> snd result = false)
   /\ (forall lower_pnl,
         snd result = true ->
         lower_pnl <= risk_manager.daily_pnl self ->
         snd (risk_manager.check_daily_loss_limit
                (risk_manager.set_daily_pnl lower_pnl self)) = true))
  /\ (risk_manager.daily_start_equity self == 0 -> result = (self, false))
  /\ (snd result = true ->
      risk_manager.can_enter_new_trade (fst result) = false)
  /\ (snd result = false -> fst result = self)
  /\ (risk_manager.paused_until_next_session self = true ->
      risk_manager.paused_until_next_session (fst result) = true)
  /\ (let at_limit :=
        risk_manager.update_daily_pnl (f64 (-3748.7232))
          (risk_manager.initialize_day 0 (f64 124957.44)
             risk_manager.__init__) in
      snd (risk_manager.check_daily_loss_limit at_limit) = true
      /\ - config.MAX_DAILY_LOSS * risk_manager.daily_start_equity at_limit
         < risk_manager.daily_pnl at_limit).
Proof.
  cbv zeta.
  assert (Hlimit : round64 (- f64 config.MAX_DAILY_LOSS)
                   == - f64 config.MAX_DAILY_LOSS)
    by (vm_compute; reflexivity).
  assert (Hbelow : f64 config.MAX_DAILY_LOSS <= config.MAX_DAILY_LOSS)
    by (vm_compute; discriminate).
  assert (Hsign : 0 < f64 config.MAX_DAILY_LOSS) by (vm_compute; reflexivity).
  split; [|split; [|split; [|split; [|split]]]].
  - intros Hpos. split; [|split].
    + intros Hle. apply (daily_loss_breach_iff self Hpos).
      rewrite <- Hlimit. apply round64_mono.
      apply Qle_shift_div_r; [exact Hpos|].
      eapply Qle_trans; [exact Hle|].
      apply Qmult_le_compat_r; lra.
    + intros Hnonneg.
      destruct (snd (risk_manager.check_daily_loss_limit self)) eqn:E;
        [|reflexivity].
      apply (daily_loss_breach_iff self Hpos) in E. exfalso.
      assert (0 <= fdiv (risk_manager.daily_pnl self)
                     (risk_manager.daily_start_equity self)).
      { apply round64_nonneg. apply Qle_shift_div_l; [exact Hpos | lra]. }
      lra.
    + intros lower_pnl Hhit Hle.
      apply (daily_loss_breach_iff self Hpos) in Hhit.
      apply (daily_loss_breach_iff
               (risk_manager.set_daily_pnl lower_pnl self) Hpos).
      eapply Qle_trans; [|exact Hhit].
      change (risk_manager.daily_pnl
                (risk_manager.set_daily_pnl lower_pnl self)) with lower_pnl.
      change (risk_manager.daily_start_equity
                (risk_manager.set_daily_pnl lower_pnl self))
        with (risk_manager.daily_start_equity self).
      apply round64_mono.
      apply Qmult_le_compat_r; [exact Hle|].
      now apply Qlt_le_weak, Qinv_lt_0_compat.
  - intros Hzero. unfold risk_manager.check_daily_loss_limit.
    apply Qeq_bool_iff in Hzero. now rewrite Hzero.
  - unfold risk_manager.check_daily_loss_limit.
    destruct (Qeq_bool _ 0); [discriminate|].
    destruct (Qleb _ _); [reflexivity | discriminate].
  - unfold risk_manager.check_daily_loss_limit.
    destruct (Qeq_bool _ 0); [reflexivity|].
    destruct (Qleb _ _); [discriminate | reflexivity].
  - unfold risk_manager.check_daily_loss_limit.
    destruct (Qeq_bool _ 0); [auto|].
    destruct (Qleb _ _); [reflexivity | auto].
  - vm_compute. split; reflexivity.
Qed.

Lemma daily_loss_limit_rule_witness :
  snd (risk_manager.check_daily_loss_limit
         (risk_manager.update_daily_pnl (-3000) scenarios.rm_peak_100000))
  = true
  /\ risk_manager.can_enter_new_trade
       (fst (risk_manager.check_daily_loss_limit
               (risk_manager.update_daily_pnl (-3000)
                  scenarios.rm_peak_100000)))
     = false.
Proof.
  pose proof (daily_loss_limit_rule
                (risk_manager.update_daily_pnl (-3000)
                   scenarios.rm_peak_100000)) as (Hrule & _ & Hblock & _).
  assert (H : snd (risk_manager.check_daily_loss_limit
                     (risk_manager.update_daily_pnl (-3000)
                        scenarios.rm_peak_100000)) = true).
  { apply (proj1 (Hrule ltac:(vm_compute; reflexivity))).
    vm_compute. discriminate. }
  split; [exact H | exact (Hblock H)].
Defined.

(** X12. [check_circuit_breaker] sets the flag to what it returns, so the
    breaker clears itself on the first check that finds the conditions
    normal.  It reports True exactly when a VIX reading is given and above
    VIX_THRESHOLD, or the SPY ATR% is above SPY_ATR_CIRCUIT_BREAKER_MULT
    times its median; it leaves the session pause alone. *)
Theorem circuit_breaker_self_clearing
    (vix : option Q) (spy_atr_percent spy_atr_median : Q)
    (self : risk_manager.RiskManager) :
  let result :=
    risk_manager.check_circuit_breaker vix spy_atr_percent spy_atr_median
      self in
  risk_manager.circuit_breaker_active (fst result) = snd result
  /\ (snd result = true
      <-> (exists v, vix = Some v /\ config.VIX_THRESHOLD < v)
          \/ spy_atr_median * config.SPY_ATR_CIRCUIT_BREAKER_MULT
             < spy_atr_percent)
  /\ risk_manager.paused_until_next_session (fst result)
     = risk_manager.paused_until_next_session self
  /\ risk_manager.can_enter_new_trade (fst result)
     = negb (risk_manager.paused_until_next_session self)
       && negb (snd result).
Proof.
  cbv zeta. unfold risk_manager.check_circuit_breaker.
  set (vix_high := match vix with
                   | Some v => negb (Qeq_bool v 0) && Qgtb v config.VIX_THRESHOLD
                   | None => false
                   end).
  assert (Hvix : vix_high = true
                 <-> exists v, vix = Some v /\ config.VIX_THRESHOLD < v).
  { subst vix_high. destruct vix as [v|].
    - rewrite andb_true_iff, negb_true_iff, Qgtb_gt. split.
      + intros [_ H]. eauto.
      + intros (v' & Hv & H). inversion Hv; subst. split; [|exact H].
        destruct (Qeq_bool v' 0) eqn:E; [|reflexivity].
        apply Qeq_bool_iff in E. rewrite E in H. discriminate H.
    - split; [discriminate|]. intros (v & Hv & _). discriminate Hv. }
  unfold risk_manager.can_enter_new_trade.
  destruct vix_high eqn:Ev; cbn.
  - split; [reflexivity|]. split; [|split; [reflexivity|]].
    + split; [intros _; left; now apply Hvix | reflexivity].
    + destruct (risk_manager.paused_until_next_session self); reflexivity.
  - destruct (Qgtb _ _) eqn:Eatr; cbn.
    + apply Qgtb_gt in Eatr. split; [reflexivity|].
      split; [|split; [reflexivity|]].
      * split; [intros _; now right | reflexivity].
      * destruct (risk_manager.paused_until_next_session self); reflexivity.
    + apply Qgtb_le in Eatr. split; [reflexivity|].
      split; [|split; [reflexivity|]].
      * split; [discriminate|]. intros [H | H].
        -- apply Hvix in H. discriminate H.
        -- exfalso. exact (Qlt_not_le _ _ H Eatr).
      * destruct (risk_manager.paused_until_next_session self); reflexivity.
Qed.










Lemma max1_floor_mono (x y : Q) :
  x <= y -> (Z.max 1 (Qfloor x) <= Z.max 1 (Qfloor y))%Z.
Proof.
  intros H. apply Z.max_le_compat_l. now apply Qfloor_resp_le.
Qed.

Lemma max1_floor_neg (x : Q) : x < 1 -> Z.max 1 (Qfloor x) = 1%Z.
Proof.
  intros H. apply Z.max_l.
  destruct (Z.lt_ge_cases (Qfloor x) 1) as [Hlt | Hge]; [lia|].
  exfalso. pose proof (Qfloor_le x) as Hle.
  assert (1 <= inject_Z (Qfloor x)).
  { change 1 with (inject_Z 1). rewrite <- Zle_Qle. exact Hge. }
  lra.
Qed.

Lemma max1_floor_inject (z : Z) (x : Q) :
  x == inject_Z z -> Z.max 1 (Qfloor x) = Z.max 1 z.
Proof. intros H. now rewrite (Qfloor_comp _ _ H), Qfloor_Z. Qed.

Lemma pyramid_size_floor (base_shares current_adds : Z) :
  risk_manager.calculate_pyramid_size base_shares current_adds
  = Z.max 1 (Qfloor (inject_Z base_shares * 0.5 ^ current_adds)).
Proof. apply max1_py_int_floor. Qed.

Lemma pyramid_size_step (base_shares current_adds : Z) :
  (0 <= current_adds)%Z ->
  (risk_manager.calculate_pyramid_size base_shares (current_adds + 1)
   <= risk_manager.calculate_pyramid_size base_shares current_adds)%Z.
Proof.
  intros Hadds. rewrite !pyramid_size_floor.
  assert (Hpow : 0.5 ^ (current_adds + 1) == 0.5 ^ current_adds * 0.5).
  { rewrite Qpower_plus by discriminate. reflexivity. }
  pose proof (Qpower_0_lt 0.5 current_adds eq_refl) as Hpos.
  destruct (Z.lt_ge_cases base_shares 0) as [Hneg | Hnonneg].
  - assert (Hb : inject_Z base_shares < 0).
    { change 0 with (inject_Z 0). rewrite <- Zlt_Qlt. exact Hneg. }
    rewrite !max1_floor_neg; [lia | nra |].
    rewrite Hpow. nra.
  - assert (Hb : 0 <= inject_Z base_shares).
    { change 0 with (inject_Z 0). rewrite <- Zle_Qle. lia. }
    apply max1_floor_mono. rewrite Hpow. nra.
Qed.

(** X15. [can_pyramid] allows an add exactly when the number of adds is
    below MAX_PYRAMID_ADDS and the trade is at +PYRAMID_PROFIT_THRESHOLD R
    or more; the registered risk plays no part in the answer.
    [calculate_pyramid_size] is at least one share, equals the base size
    (floored at one) for the first add, and never grows from one add to the
    next, so it never exceeds the base size. *)
Theorem pyramiding_rules
    (symbol : string) (current_r_multiple : Q) (base_shares current_adds : Z)
    (self : risk_manager.RiskManager) :
  (risk_manager.can_pyramid symbol current_r_multiple current_adds self = true
   <-> (current_adds < config.MAX_PYRAMID_ADDS)%Z
       /\ config.PYRAMID_PROFIT_THRESHOLD <= current_r_multiple)
  /\ (1 <= risk_manager.calculate_pyramid_size base_shares current_adds)%Z
  /\ risk_manager.calculate_pyramid_size base_shares 0 = Z.max 1 base_shares
  /\ ((0 <= current_adds)%Z ->
      (risk_manager.calculate_pyramid_size base_shares (current_adds + 1)
       <= risk_manager.calculate_pyramid_size base_shares current_adds)%Z
      /\ (risk_manager.calculate_pyramid_size base_shares current_adds
          <= Z.max 1 base_shares)%Z).
Proof.
  assert (Hzero : risk_manager.calculate_pyramid_size base_shares 0
                  = Z.max 1 base_shares).
  { rewrite pyramid_size_floor. apply max1_floor_inject.
    change (0.5 ^ 0) with 1. ring. }
  split.
  { unfold risk_manager.can_pyramid.
    destruct (config.MAX_PYRAMID_ADDS <=? current_adds)%Z eqn:Eadds.
    - apply Z.leb_le in Eadds. split; [discriminate | intros [H _]; lia].
    - apply Z.leb_gt in Eadds.
      destruct (Qltb _ _) eqn:Er.
      + apply Qltb_lt in Er. split; [discriminate|].
        intros [_ H]. exfalso. exact (Qlt_not_le _ _ Er H).
      + apply Qltb_ge in Er. split; [intros _; now split | reflexivity]. }
  split; [unfold risk_manager.calculate_pyramid_size; lia|].
  split; [exact Hzero|].
  intros Hadds. split; [now apply pyramid_size_step|].
  rewrite <- Hzero. pattern current_adds.
  apply natlike_ind; [lia | | exact Hadds]. intros n Hn IH.
  pose proof (pyramid_size_step base_shares n Hn). unfold Z.succ. lia.
Qed.

Lemma pyramiding_rules_witness :
  (risk_manager.calculate_pyramid_size 250 2
   <= risk_manager.calculate_pyramid_size 250 1)%Z
  /\ (risk_manager.calculate_pyramid_size 250 1 <= Z.max 1 250)%Z.
Proof.
  split.
  - apply (pyramiding_rules "AAPL" 1.2 250 1 risk_manager.__init__). lia.
  - apply (pyramiding_rules "AAPL" 1.2 250 1 risk_manager.__init__). lia.
Defined.

(** ** Order manager *)

Lemma retry_three_cases {A} (func : nat -> result A) (jitter : nat -> Q) :
  order_manager._retry_with_backoff func jitter
  = match func 0%nat with
    | Ok a => (Ok (Some a), 1%nat, 0)
    | Raise _ =>
        match func 1%nat with
        | Ok a => (Ok (Some a), 2%nat, 0 + (1 + jitter 0%nat))
        | Raise _ =>
            match func 2%nat with
            | Ok a =>
                (Ok (Some a), 3%nat,
                 0 + (1 + jitter 0%nat) + (2 + jitter 1%nat))
            | Raise e =>
                (Raise e, 3%nat, 0 + (1 + jitter 0%nat) + (2 + jitter 1%nat))
            end
        end
    end.
Proof.
  unfold order_manager._retry_with_backoff. cbn.
  destruct (func 0%nat); [reflexivity|].
  destruct (func 1%nat); [reflexivity|].
  destruct (func 2%nat); reflexivity.
Qed.

(** X16. [_retry_with_backoff] calls the function at most MAX_RETRIES (3)
    times and stops at the first call that succeeds, returning its value; it
    fails only when all three calls fail, and then re-raises the error of
    the last call.  It never returns None.  It sleeps only between calls,
    1 s and then 2 s plus the jitter, so with jitter within
    [0, RETRY_JITTER_MAX] never more than 4 s in all, and not at all when
    the first call succeeds. *)
Theorem retry_with_backoff_rules {A}
    (func : nat -> result A) (jitter : nat -> Q) :
  (forall n, 0 <= jitter n <= config.RETRY_JITTER_MAX) ->
  let outcome := order_manager._retry_with_backoff func jitter in
  let answer := fst (fst outcome) in
  let calls := snd (fst outcome) in
  let slept := snd outcome in
  (1 <= calls <= config.MAX_RETRIES)%nat
  /\ (forall i, (i < calls - 1)%nat -> exists e, func i = Raise e)
  /\ match answer with
     | Ok (Some a) => func (calls - 1)%nat = Ok a
     | Ok None => False
     | Raise e =>
         calls = config.MAX_RETRIES /\ func (calls - 1)%nat = Raise e
     end
  /\ 0 <= slept <= 4
  /\ (calls = 1%nat -> slept == 0)
  /\ (calls = 3%nat -> 3 <= slept).
Proof.
  intros Hjit. cbv zeta. rewrite retry_three_cases.
  pose proof (Hjit 0%nat) as [J0 J0']. pose proof (Hjit 1%nat) as [J1 J1'].
  unfold config.RETRY_JITTER_MAX in *. unfold config.MAX_RETRIES.
  destruct (func 0%nat) as [a0|e0] eqn:E0; cbn [fst snd].
  { split; [lia|]. split; [intros i Hi; lia|]. split; [exact E0|].
    split; [split; lra|]. split; [intros _; reflexivity | discriminate]. }
  destruct (func 1%nat) as [a1|e1] eqn:E1; cbn [fst snd].
  { split; [lia|]. split.
    { intros i Hi. assert (i = 0%nat) as -> by lia. eauto. }
    split; [exact E1|]. split; [split; lra|].
    split; discriminate. }
  assert (Hfail : forall i, (i < 3 - 1)%nat -> exists e, func i = Raise e).
  { intros i Hi. assert (i = 0 \/ i = 1)%nat as [-> | ->] by lia; eauto. }
  destruct (func 2%nat) as [a2|e2] eqn:E2; cbn [fst snd].
  - split; [lia|]. split; [exact Hfail|]. split; [exact E2|].
    split; [split; lra|]. split; [discriminate | intros _; lra].
  - split; [lia|]. split; [exact Hfail|]. split; [split; [reflexivity|exact E2]|].
    split; [split; lra|]. split; [discriminate | intros _; lra].
Qed.

(** Two failures, then a success, with a jitter of a quarter second. *)
Lemma retry_with_backoff_rules_witness :
  let outcome :=
    order_manager._retry_with_backoff
      (fun attempt =>
         if (attempt <? 2)%nat then Raise IndexError else Ok 7%Z)
      (fun _ => 0.25) in
  (1 <= snd (fst outcome) <= config.MAX_RETRIES)%nat
  /\ 0 <= snd outcome <= 4.
Proof.
  pose proof (retry_with_backoff_rules
                (fun attempt =>
                   if (attempt <? 2)%nat then Raise IndexError else Ok 7%Z)
                (fun _ => 0.25)) as H.
  destruct H as (Hcalls & _ & _ & Hslept & _).
  - intros n. split; discriminate.
  - exact (conj Hcalls Hslept).
Defined.

Lemma clip_bounds (lo hi x : Q) :
  lo <= hi ->
  lo <= py_max lo (py_min hi x) /\ py_max lo (py_min hi x) <= hi
  /\ (lo <= x <= hi -> py_max lo (py_min hi x) == x).
Proof.
  intros Hlohi. unfold py_max, py_min.
  destruct (Qltb x hi) eqn:E1.
  - apply Qltb_lt in E1. destruct (Qgtb x lo) eqn:E2.
    + apply Qgtb_gt in E2. repeat split; lra.
    + apply Qgtb_le in E2. repeat split; lra.
  - apply Qltb_ge in E1. destruct (Qgtb hi lo) eqn:E2.
    + apply Qgtb_gt in E2. repeat split; lra.
    + apply Qgtb_le in E2. repeat split; lra.
Qed.

(** X17. [adjust_size_for_slippage] leaves the size alone when no positive
    slippage has been observed.  Otherwise the result is at least one share
    and, for a non-negative base size, lies between half and one and a half
    times the base size (each rounded down and floored at one): the
    adjustment is capped at +-SLIPPAGE_SIZE_CAP.  When the observed
    slippage is positive and equals the target, the result is the base size
    floored at one. *)
Theorem slippage_size_adjustment
    (base_size : Z) (observed_slippage target_slippage : Q) :
  let adjusted :=
    order_manager.adjust_size_for_slippage base_size observed_slippage
      target_slippage in
  (observed_slippage <= 0 -> adjusted = base_size)
  /\ (0 < observed_slippage ->
      (1 <= adjusted)%Z
      /\ ((0 <= base_size)%Z ->
          (Z.max 1 (Qfloor (inject_Z base_size * 0.5)) <= adjusted)%Z
          /\ (adjusted <= Z.max 1 (Qfloor (inject_Z base_size * 1.5)))%Z)
      /\ (observed_slippage == target_slippage ->
          adjusted = Z.max 1 base_size)).
Proof.
  cbv zeta. unfold order_manager.adjust_size_for_slippage. split.
  - intros H. apply Qleb_le in H. now rewrite H.
  - intros Hpos.
    replace (Qleb observed_slippage 0) with false.
    2:{ symmetry. destruct (Qleb observed_slippage 0) eqn:E; [|reflexivity].
        apply Qleb_le in E. lra. }
    rewrite max1_py_int_floor.
    destruct (clip_bounds (1 - config.SLIPPAGE_SIZE_CAP)
                (1 + config.SLIPPAGE_SIZE_CAP)
                (target_slippage / observed_slippage) ltac:(discriminate))
      as (Hlo & Hhi & Hid).
    set (ratio := py_max _ _) in *. clearbody ratio.
    unfold config.SLIPPAGE_SIZE_CAP in *.
    assert (Hlo' : 0.5 <= ratio) by lra.
    assert (Hhi' : ratio <= 1.5) by lra.
    split; [lia|]. split.
    + intros Hbase.
      assert (Hb : 0 <= inject_Z base_size).
      { change 0 with (inject_Z 0). rewrite <- Zle_Qle. exact Hbase. }
      split; apply max1_floor_mono; nra.
    + intros Heq. apply max1_floor_inject.
      assert (Hone : target_slippage / observed_slippage == 1).
      { rewrite Heq. field. lra. }
      rewrite Hid; [rewrite Hone; ring|]. rewrite Hone. split; lra.
Qed.

Lemma slippage_size_adjustment_witness :
  order_manager.adjust_size_for_slippage 250 0 5 = 250%Z
  /\ (order_manager.adjust_size_for_slippage 250 1 5
      <= Z.max 1 (Qfloor (inject_Z 250 * 1.5)))%Z.
Proof.
  split.
  - apply (proj1 (slippage_size_adjustment 250 0 5)). discriminate.
  - destruct (proj2 (slippage_size_adjustment 250 1 5) eq_refl)
      as (_ & Hbounds & _).
    apply Hbounds. lia.
Defined.



(** ** Position ledger and state store *)

Lemma dict_get_set_ne {V} (k k' : string) (v : V) (d : odict V) :
  k' <> k -> dict_get k' (dict_set k v d) = dict_get k' d.
Proof.
  intros Hne. unfold dict_get.
  induction d as [|[k0 v0] d IH]; cbn.
  - apply String.eqb_neq in Hne. rewrite String.eqb_sym in Hne.
    now rewrite Hne.
  - destruct (String.eqb k0 k) eqn:E; cbn.
    + apply String.eqb_eq in E. subst k0.
      apply String.eqb_neq in Hne. rewrite String.eqb_sym in Hne.
      now rewrite Hne.
    + destruct (String.eqb k0 k'); [reflexivity | exact IH].
Qed.

Lemma dict_get_del {V} (k : string) (d : odict V) :
  dict_get k (dict_del k d) = None.
Proof.
  unfold dict_get, dict_del. induction d as [|[k0 v0] d IH]; cbn.
  - reflexivity.
  - destruct (String.eqb k0 k) eqn:E; cbn; [exact IH|].
    rewrite E. exact IH.
Qed.

Lemma dict_get_del_ne {V} (k k' : string) (d : odict V) :
  k' <> k -> dict_get k' (dict_del k d) = dict_get k' d.
Proof.
  intros Hne. unfold dict_get, dict_del.
  induction d as [|[k0 v0] d IH]; cbn.
  - reflexivity.
  - destruct (String.eqb k0 k) eqn:E; cbn.
    + apply String.eqb_eq in E. subst k0.
      apply String.eqb_neq in Hne. rewrite String.eqb_sym in Hne.
      rewrite Hne. exact IH.
    + destruct (String.eqb k0 k'); [reflexivity | exact IH].
Qed.

Lemma dict_get_none_contains {V} (k : string) (d : odict V) :
  dict_get k d = None <-> dict_contains k d = false.
Proof.
  unfold dict_get, dict_contains. induction d as [|[k0 v0] d IH]; cbn.
  - tauto.
  - destruct (String.eqb k0 k); cbn; [split; discriminate | exact IH].
Qed.

Lemma dict_set_length {V} (k : string) (v : V) (d : odict V) :
  length (dict_set k v d)
  = if dict_contains k d then length d else S (length d).
Proof.
  unfold dict_contains. induction d as [|[k0 v0] d IH]; cbn.
  - reflexivity.
  - destruct (String.eqb k0 k); cbn; [reflexivity|].
    rewrite IH. destruct (existsb _ d); reflexivity.
Qed.

Lemma remove_trade_ledger (now : Z) (trade_id : string)
    (st : state_manager.State) :
  state_manager.active_trades (state_manager.remove_trade now trade_id st)
  = dict_del trade_id (state_manager.active_trades st).
Proof.
  unfold state_manager.remove_trade.
  destruct (dict_contains trade_id (state_manager.active_trades st)) eqn:E.
  - destruct (_ !! _); reflexivity.
  - assert (Hid : dict_del trade_id (state_manager.active_trades st)
                  = state_manager.active_trades st).
    { unfold dict_del, dict_contains in *.
      induction (state_manager.active_trades st) as [|[k0 v0] d IH];
        [reflexivity|].
      cbn in *. apply orb_false_iff in E as [E1 E2].
      rewrite E1. cbn. now rewrite IH. }
    rewrite Hid. destruct (_ !! _); reflexivity.
Qed.

Lemma remove_trade_bars (now : Z) (trade_id : string)
    (st : state_manager.State) :
  state_manager.bars_since_entry (state_manager.remove_trade now trade_id st)
  = delete trade_id (state_manager.bars_since_entry st).
Proof.
  unfold state_manager.remove_trade.
  assert (Hb : forall st1,
    state_manager.bars_since_entry st1 = state_manager.bars_since_entry st ->
    state_manager.bars_since_entry
      (state_manager.save_state now
         match state_manager.bars_since_entry st1 !! trade_id with
         | Some _ =>
             state_manager.set_bars_since_entry
               (delete trade_id (state_manager.bars_since_entry st1)) st1
         | None => st1
         end)
    = delete trade_id (state_manager.bars_since_entry st)).
  { intros st1 Hst1. rewrite Hst1.
    destruct (state_manager.bars_since_entry st !! trade_id) eqn:E; cbn.
    - reflexivity.
    - rewrite Hst1. symmetry. now apply delete_id. }
  destruct (dict_contains _ _); apply Hb; reflexivity.
Qed.

(** X19. The ledger of active trades behaves as a map from trade id to
    trade: after [update_trade] the id reads back the trade stored and every
    other id reads as before, an id already present keeps the ledger at its
    size and a new one grows it by one; after [remove_trade] the id is gone,
    its bar counter reads 0 again and every other id reads as before;
    removing an id that is not in the ledger leaves the trades as they
    were. *)
Theorem ledger_round_trip
    (now : Z) (trade_id : string) (trade : state_manager.Trade)
    (st : state_manager.State) :
  let stored := state_manager.update_trade now trade_id trade st in
  let removed := state_manager.remove_trade now trade_id st in
  dict_get trade_id (state_manager.get_active_trades stored) = Some trade
  /\ (forall other,
        other <> trade_id ->
        dict_get other (state_manager.get_active_trades stored)
        = dict_get other (state_manager.get_active_trades st)
        /\ dict_get other (state_manager.get_active_trades removed)
           = dict_get other (state_manager.get_active_trades st))
  /\ length (state_manager.get_active_trades stored)
     = (if dict_contains trade_id (state_manager.get_active_trades st)
        then length (state_manager.get_active_trades st)
        else S (length (state_manager.get_active_trades st)))
  /\ dict_get trade_id (state_manager.get_active_trades removed) = None
  /\ state_manager.get_bars_held trade_id removed = 0%Z
  /\ dict_get trade_id
       (state_manager.get_active_trades
          (state_manager.remove_trade now trade_id stored)) = None
  /\ (dict_get trade_id (state_manager.get_active_trades st) = None ->
      state_manager.get_active_trades removed
      = state_manager.get_active_trades st).
Proof.
  cbv zeta. unfold state_manager.get_active_trades.
  rewrite !remove_trade_ledger.
  split; [apply dict_get_set|]. split.
  { intros other Hne. split.
    - now apply dict_get_set_ne.
    - now apply dict_get_del_ne. }
  split; [apply dict_set_length|].
  split; [apply dict_get_del|]. split.
  { unfold state_manager.get_bars_held. rewrite remove_trade_bars.
    now rewrite lookup_delete_eq. }
  split; [apply dict_get_del|].
  intros Habsent. apply dict_get_none_contains in Habsent.
  rewrite <- remove_trade_ledger with (now := now).
  unfold state_manager.remove_trade. rewrite Habsent.
  destruct (_ !! _); reflexivity.
Qed.

Lemma ledger_round_trip_witness :
  dict_get "T2"
    (state_manager.get_active_trades
       (state_manager.update_trade 5 "T9" ledger.aapl_long ledger.tsla_open))
  = dict_get "T2" (state_manager.get_active_trades ledger.tsla_open)
  /\ state_manager.get_active_trades
       (state_manager.remove_trade 5 "T9" ledger.tsla_open)
     = state_manager.get_active_trades ledger.tsla_open.
Proof.
  pose proof (ledger_round_trip 5 "T9" ledger.aapl_long ledger.tsla_open)
    as (_ & Hother & _ & _ & _ & _ & Habsent).
  split.
  - apply (Hother "T2"). discriminate.
  - apply Habsent. reflexivity.
Defined.

Lemma remove_stop_lookup (now : Z) (symbol : string)
    (st : state_manager.State) :
  state_manager.pending_stops (state_manager.remove_stop now symbol st)
  !! symbol = None.
Proof.
  unfold state_manager.remove_stop.
  destruct (state_manager.pending_stops st !! symbol) eqn:E;
    [cbn; apply lookup_delete_eq | exact E].
Qed.

(** X20. A stop is tracked per symbol: [update_stop] makes the symbol read
    back the new order id and stop price, replacing what was tracked for it,
    and leaves other symbols alone; [remove_stop] makes the symbol read as
    untracked and leaves other symbols alone; on a symbol that is not
    tracked it changes nothing at all, not even the last-run stamp. *)
Theorem pending_stop_round_trip
    (now : Z) (symbol stop_order_id : string) (stop_price : Q)
    (st : state_manager.State) :
  let tracked :=
    state_manager.update_stop now symbol stop_order_id stop_price st in
  state_manager.get_pending_stops tracked !! symbol
  = Some {| state_manager.order_id := stop_order_id;
            state_manager.pending_stop_price := stop_price;
            state_manager.updated_at := now |}
  /\ (forall other,
        other <> symbol ->
        state_manager.get_pending_stops tracked !! other
        = state_manager.get_pending_stops st !! other
        /\ state_manager.get_pending_stops
             (state_manager.remove_stop now symbol st) !! other
           = state_manager.get_pending_stops st !! other)
  /\ state_manager.get_pending_stops
       (state_manager.remove_stop now symbol tracked) !! symbol = None
  /\ state_manager.get_pending_stops
       (state_manager.remove_stop now symbol st) !! symbol = None
  /\ state_manager.active_trades tracked = state_manager.active_trades st
  /\ (state_manager.get_pending_stops st !! symbol = None ->
      state_manager.remove_stop now symbol st = st).
Proof.
  cbv zeta. unfold state_manager.get_pending_stops.
  split; [cbn; apply lookup_insert_eq|]. split.
  { intros other Hne. split.
    - cbn. now apply lookup_insert_ne.
    - unfold state_manager.remove_stop.
      destruct (state_manager.pending_stops st !! symbol); [|reflexivity].
      cbn. now apply lookup_delete_ne. }
  split; [apply remove_stop_lookup|].
  split; [apply remove_stop_lookup|].
  split; [reflexivity|].
  intros Hnone. unfold state_manager.remove_stop. now rewrite Hnone.
Qed.

Lemma pending_stop_round_trip_witness :
  state_manager.remove_stop 9 "MSFT" ledger.aapl_open = ledger.aapl_open
  /\ state_manager.get_pending_stops
       (state_manager.update_stop 9 "MSFT" "stop-7" 294 ledger.aapl_open)
     !! "AAPL"
     = state_manager.get_pending_stops ledger.aapl_open !! "AAPL".
Proof.
  pose proof (pending_stop_round_trip 9 "MSFT" "stop-7" 294 ledger.aapl_open)
    as (_ & Hother & _ & _ & _ & Hnone).
  split.
  - apply Hnone. reflexivity.
  - apply (Hother "AAPL"). discriminate.
Defined.

(** X21. The bar counter of a trade reads 0 until it is first incremented;
    [increment_bars_held] returns the count it stores, one more than before,
    and leaves the counters of other trades alone, so after n bars the
    counter has advanced by exactly n. *)
Theorem bars_held_counter
    (now : Z) (trade_id : string) (n : nat) (st : state_manager.State) :
  (state_manager.bars_since_entry st !! trade_id = None ->
   state_manager.get_bars_held trade_id st = 0%Z)
  /\ snd (state_manager.increment_bars_held now trade_id st)
     = (state_manager.get_bars_held trade_id st + 1)%Z
  /\ state_manager.get_bars_held trade_id
       (fst (state_manager.increment_bars_held now trade_id st))
     = snd (state_manager.increment_bars_held now trade_id st)
  /\ (forall other,
        other <> trade_id ->
        state_manager.get_bars_held other
          (fst (state_manager.increment_bars_held now trade_id st))
        = state_manager.get_bars_held other st)
  /\ state_manager.get_bars_held trade_id
       (ledger.bars_elapsed n now trade_id st)
     = (state_manager.get_bars_held trade_id st + Z.of_nat n)%Z
  /\ state_manager.active_trades (ledger.bars_elapsed n now trade_id st)
     = state_manager.active_trades st.
Proof.
  assert (Hget : forall s,
    state_manager.get_bars_held trade_id
      (fst (state_manager.increment_bars_held now trade_id s))
    = (state_manager.get_bars_held trade_id s + 1)%Z).
  { intros s. unfold state_manager.get_bars_held. cbn.
    now rewrite lookup_insert_eq. }
  split.
  { intros Hnone. unfold state_manager.get_bars_held. now rewrite Hnone. }
  split; [reflexivity|]. split; [apply Hget|]. split.
  { intros other Hne. unfold state_manager.get_bars_held. cbn.
    now rewrite lookup_insert_ne. }
  split.
  - induction n as [|n IH]; [cbn; lia|].
    change (ledger.bars_elapsed (S n) now trade_id st)
      with (fst (state_manager.increment_bars_held now trade_id
                   (ledger.bars_elapsed n now trade_id st))).
    rewrite Hget, IH. lia.
  - induction n as [|n IH]; [reflexivity|].
    change (ledger.bars_elapsed (S n) now trade_id st)
      with (fst (state_manager.increment_bars_held now trade_id
                   (ledger.bars_elapsed n now trade_id st))).
    exact IH.
Qed.

Lemma bars_held_counter_witness :
  state_manager.get_bars_held "T1" ledger.aapl_open = 0%Z
  /\ state_manager.get_bars_held "T2"
       (fst (state_manager.increment_bars_held 3 "T1" ledger.two_stale))
     = state_manager.get_bars_held "T2" ledger.two_stale.
Proof.
  split.
  - apply (proj1 (bars_held_counter 3 "T1" 0 ledger.aapl_open)).
    reflexivity.
  - destruct (bars_held_counter 3 "T1" 0 ledger.two_stale)
      as (_ & _ & _ & Hother & _).
    apply Hother. discriminate.
Defined.




(** X23. [reset_for_new_session] on a new date clears the day's P&L, the
    loss counter, the error count, the pause and the circuit-breaker flag
    and records the date, and keeps the open trades, their stops and bar
    counters, the slippage estimates, the trade counter and the kill-switch:
    a tripped kill-switch survives the session rollover.  Called again on
    the same date it changes nothing. *)
Theorem session_reset_keeps_ledger
    (now now' today : Z) (st : state_manager.State) :
  let fresh := state_manager.reset_for_new_session now today st in
  state_manager.last_session_date fresh = Some today
  /\ state_manager.active_trades fresh = state_manager.active_trades st
  /\ state_manager.pending_stops fresh = state_manager.pending_stops st
  /\ state_manager.bars_since_entry fresh = state_manager.bars_since_entry st
  /\ state_manager.observed_slippage fresh
     = state_manager.observed_slippage st
  /\ state_manager.trade_counter fresh = state_manager.trade_counter st
  /\ state_manager.is_kill_switch_active fresh
     = state_manager.is_kill_switch_active st
  /\ state_manager.reset_for_new_session now' today fresh = fresh
  /\ (state_manager.last_session_date st <> Some today ->
      state_manager.daily_pnl fresh = 0
      /\ state_manager.consecutive_losses fresh = 0%Z
      /\ state_manager.error_count fresh = 0%Z
      /\ state_manager.is_paused fresh = false
      /\ state_manager.circuit_breaker_active fresh = false)
  /\ (state_manager.last_session_date st = Some today -> fresh = st).
Proof.
  cbv zeta. unfold state_manager.reset_for_new_session.
  destruct (state_manager.last_session_date st) as [d|] eqn:Hdate.
  - destruct (d =? today)%Z eqn:Esame.
    + apply Z.eqb_eq in Esame. subst d.
      rewrite Hdate, Z.eqb_refl.
      split; [reflexivity|]. do 6 (split; [reflexivity|]).
      split; [reflexivity|]. split; [|reflexivity].
      intros Hd. now contradict Hd.
    + cbn. rewrite Z.eqb_refl.
      split; [reflexivity|]. do 6 (split; [reflexivity|]).
      split; [reflexivity|]. split; [intros _; repeat split|].
      intros Hd. inversion Hd. subst. rewrite Z.eqb_refl in Esame.
      discriminate Esame.
  - cbn. rewrite Z.eqb_refl.
    split; [reflexivity|]. do 6 (split; [reflexivity|]).
    split; [reflexivity|]. split; [intros _; repeat split|].
    intros Hd. discriminate Hd.
Qed.

Lemma session_reset_keeps_ledger_witness :
  state_manager.is_paused
    (state_manager.reset_for_new_session 7 19001
       (state_manager.set_paused 6 true
          (state_manager.reset_for_new_session 5 19000 ledger.aapl_open)))
  = false
  /\ state_manager.reset_for_new_session 7 19000
       (state_manager.reset_for_new_session 5 19000 ledger.aapl_open)
     = state_manager.reset_for_new_session 5 19000 ledger.aapl_open.
Proof.
  split.
  - apply (session_reset_keeps_ledger 7 7 19001
             (state_manager.set_paused 6 true
                (state_manager.reset_for_new_session 5 19000
                   ledger.aapl_open))).
    discriminate.
  - apply (session_reset_keeps_ledger 5 7 19000 ledger.aapl_open).
Defined.

(** ** Flattening, error handling and the loop *)

Lemma fold_remove_trade_ledger (now : Z) (keys : list string) :
  forall st,
    state_manager.active_trades
      (fold_left (fun s trade_id => state_manager.remove_trade now trade_id s)
         keys st)
    = fold_left (fun d k => dict_del k d) keys
        (state_manager.active_trades st).
Proof.
  induction keys as [|k keys IH]; intros st; [reflexivity|].
  cbn [fold_left]. now rewrite IH, remove_trade_ledger.
Qed.

Lemma fold_dict_del_all {V} (keys : list string) :
  forall d : odict V,
    Forall (fun kv => In (fst kv) keys) d ->
    fold_left (fun d k => dict_del k d) keys d = [].
Proof.
  induction keys as [|k keys IH]; intros d Hd.
  - destruct d as [|kv d]; [reflexivity|]. inversion Hd; contradiction.
  - cbn [fold_left]. apply IH. unfold dict_del.
    apply List.Forall_forall. intros kv Hin.
    apply filter_In in Hin as [Hin Hne].
    rewrite List.Forall_forall in Hd. destruct (Hd kv Hin) as [Heq | Hks];
      [|exact Hks].
    subst k. rewrite String.eqb_refl in Hne. discriminate Hne.
Qed.

Lemma remove_stop_pending (now : Z) (symbol : string)
    (st : state_manager.State) :
  state_manager.pending_stops (state_manager.remove_stop now symbol st)
  = delete symbol (state_manager.pending_stops st).
Proof.
  unfold state_manager.remove_stop.
  destruct (state_manager.pending_stops st !! symbol) eqn:E; [reflexivity|].
  symmetry. now apply delete_id.
Qed.

Lemma fold_remove_stop_lookup (now : Z) (keys : list string) :
  forall st i,
    state_manager.pending_stops
      (fold_left (fun s symbol => state_manager.remove_stop now symbol s)
         keys st) !! i
    = if bool_decide (i ∈ keys) then None
      else state_manager.pending_stops st !! i.
Proof.
  induction keys as [|k keys IH]; intros st i.
  - cbn. rewrite bool_decide_eq_false_2 by apply not_elem_of_nil.
    reflexivity.
  - cbn [fold_left]. rewrite IH, remove_stop_pending.
    destruct (bool_decide (i ∈ keys)) eqn:E1.
    + apply bool_decide_eq_true in E1.
      rewrite bool_decide_eq_true_2 by (apply elem_of_cons; now right).
      reflexivity.
    + apply bool_decide_eq_false in E1.
      destruct (decide (k = i)) as [-> | Hne].
      * rewrite bool_decide_eq_true_2 by (apply elem_of_cons; now left).
        apply lookup_delete_eq.
      * rewrite bool_decide_eq_false_2.
        -- now apply lookup_delete_ne.
        -- intros [H | H]%elem_of_cons; [congruence | contradiction].
Qed.

Lemma fold_remove_stop_frame (now : Z) (keys : list string) :
  forall st,
    let st' :=
      fold_left (fun s symbol => state_manager.remove_stop now symbol s)
        keys st in
    state_manager.active_trades st' = state_manager.active_trades st
    /\ state_manager.kill_switch_active st'
       = state_manager.kill_switch_active st
    /\ state_manager.error_count st' = state_manager.error_count st.
Proof.
  induction keys as [|k keys IH]; intros st; [repeat split|].
  cbn [fold_left]. cbv zeta in *.
  destruct (IH (state_manager.remove_stop now k st)) as (H1 & H2 & H3).
  rewrite H1, H2, H3. unfold state_manager.remove_stop.
  destruct (_ !! _); repeat split.
Qed.

Lemma fold_remove_trade_frame (now : Z) (keys : list string) :
  forall st,
    let st' :=
      fold_left (fun s trade_id => state_manager.remove_trade now trade_id s)
        keys st in
    state_manager.pending_stops st' = state_manager.pending_stops st
    /\ state_manager.kill_switch_active st'
       = state_manager.kill_switch_active st
    /\ state_manager.error_count st' = state_manager.error_count st.
Proof.
  induction keys as [|k keys IH]; intros st; [repeat split|].
  cbn [fold_left]. cbv zeta in *.
  destruct (IH (state_manager.remove_trade now k st)) as (H1 & H2 & H3).
  rewrite H1, H2, H3. unfold state_manager.remove_trade.
  destruct (dict_contains _ _); destruct (_ !! _); repeat split.
Qed.

Lemma flatten_all_spec (now : Z) (eng : engine.TradingEngine) :
  let eng' := fst (engine._flatten_all now eng) in
  state_manager.active_trades (engine.eng_state eng') = []
  /\ state_manager.pending_stops (engine.eng_state eng') = ∅
  /\ state_manager.is_paused (engine.eng_state eng') = true
  /\ state_manager.is_kill_switch_active (engine.eng_state eng')
     = state_manager.is_kill_switch_active (engine.eng_state eng)
  /\ state_manager.error_count (engine.eng_state eng')
     = state_manager.error_count (engine.eng_state eng)
  /\ engine.eng_risk eng' = engine.eng_risk eng
  /\ engine.eng_orders eng' = engine.eng_orders eng
  /\ engine.daily_errors eng' = engine.daily_errors eng
  /\ snd (engine._flatten_all now eng)
     = [engine.CloseAllPositions; engine.CancelAllOrders].
Proof.
  cbv zeta. unfold engine._flatten_all. cbn [fst snd].
  set (st := engine.eng_state eng).
  set (st1 := fold_left _ (map fst (state_manager.get_active_trades st)) st).
  set (st2 := fold_left _ _ st1).
  destruct (fold_remove_trade_frame now
              (map fst (state_manager.get_active_trades st)) st)
    as (Hp1 & Hk1 & He1).
  destruct (fold_remove_stop_frame now
              (map fst (map_to_list (state_manager.get_pending_stops st1)))
              st1) as (Ha2 & Hk2 & He2).
  cbv zeta in *. fold st1 in Hp1, Hk1, He1. fold st2 in Ha2, Hk2, He2.
  assert (Hledger : state_manager.active_trades st1 = []).
  { subst st1. rewrite fold_remove_trade_ledger.
    apply fold_dict_del_all. apply List.Forall_forall. intros kv Hin.
    now apply in_map. }
  assert (Hstops : state_manager.pending_stops st2 = ∅).
  { apply map_empty. intros i. subst st2.
    rewrite fold_remove_stop_lookup.
    destruct (bool_decide _) eqn:E; [reflexivity|].
    apply bool_decide_eq_false in E.
    destruct (state_manager.pending_stops st1 !! i) as [ps|] eqn:Hi;
      [|reflexivity].
    exfalso. apply E. unfold state_manager.get_pending_stops.
    apply list_elem_of_In, in_map_iff. exists (i, ps).
    split; [reflexivity|].
    apply list_elem_of_In. now apply elem_of_map_to_list. }
  cbn. rewrite Ha2, Hledger, Hstops.
  unfold state_manager.is_kill_switch_active. cbn.
  rewrite Hk2, Hk1, He2, He1. repeat split.
Qed.

(** X24. [_flatten_all] asks the venue to close all positions and cancel all
    orders and then, whatever the ledger held, leaves no active trade and no
    pending stop behind and sets the session pause.  It does not touch the
    kill-switch, the error counters or the order manager, and it leaves the
    risk manager alone: the risks registered for the flattened trades stay
    registered. *)
Theorem flatten_all_empties_ledger (now : Z) (eng : engine.TradingEngine) :
  let eng' := fst (engine._flatten_all now eng) in
  state_manager.active_trades (engine.eng_state eng') = []
  /\ state_manager.pending_stops (engine.eng_state eng') = ∅
  /\ state_manager.is_paused (engine.eng_state eng') = true
  /\ state_manager.is_kill_switch_active (engine.eng_state eng')
     = state_manager.is_kill_switch_active (engine.eng_state eng)
  /\ state_manager.error_count (engine.eng_state eng')
     = state_manager.error_count (engine.eng_state eng)
  /\ engine.eng_risk eng' = engine.eng_risk eng
  /\ engine.eng_orders eng' = engine.eng_orders eng
  /\ engine.daily_errors eng' = engine.daily_errors eng
  /\ snd (engine._flatten_all now eng)
     = [engine.CloseAllPositions; engine.CancelAllOrders].
Proof. apply flatten_all_spec. Qed.

Lemma handle_error_spec (now : Z) (eng : engine.TradingEngine) :
  let eng' := fst (engine._handle_error now eng) in
  engine.daily_errors eng' = (engine.daily_errors eng + 1)%Z
  /\ state_manager.error_count (engine.eng_state eng')
     = (engine.daily_errors eng + 1)%Z
  /\ engine.eng_orders eng' = engine.eng_orders eng
  /\ engine.eng_risk eng' = engine.eng_risk eng
  /\ (order_manager.should_trigger_kill_switch (engine.eng_orders eng) = true ->
      state_manager.is_kill_switch_active (engine.eng_state eng') = true
      /\ state_manager.active_trades (engine.eng_state eng') = []
      /\ state_manager.pending_stops (engine.eng_state eng') = ∅
      /\ state_manager.is_paused (engine.eng_state eng') = true)
  /\ (order_manager.should_trigger_kill_switch (engine.eng_orders eng) = false ->
      state_manager.is_kill_switch_active (engine.eng_state eng')
      = state_manager.is_kill_switch_active (engine.eng_state eng)
      /\ state_manager.active_trades (engine.eng_state eng')
         = state_manager.active_trades (engine.eng_state eng)
      /\ state_manager.pending_stops (engine.eng_state eng')
         = state_manager.pending_stops (engine.eng_state eng)
      /\ state_manager.is_paused (engine.eng_state eng')
         = state_manager.is_paused (engine.eng_state eng)
      /\ snd (engine._handle_error now eng) = []).
Proof.
  cbv zeta. unfold engine._handle_error.
  set (eng2 := engine.set_eng_state _ _).
  assert (Hom : engine.eng_orders eng2 = engine.eng_orders eng)
    by reflexivity.
  rewrite Hom.
  destruct (order_manager.should_trigger_kill_switch (engine.eng_orders eng))
    eqn:Etrip.
  - pose proof (flatten_all_spec now eng2)
      as (Hl & Hs & Hp & Hk & He & Hr & Ho & Hd & Ha).
    cbv zeta in *.
    destruct (engine._flatten_all now eng2) as [eng3 actions].
    cbn [fst snd] in *. cbn.
    rewrite Hd, Ho, Hr.
    split; [reflexivity|]. split; [rewrite He; reflexivity|].
    split; [reflexivity|]. split; [reflexivity|].
    split; [intros _; repeat split; assumption|].
    intros Hfalse. discriminate Hfalse.
  - cbn.
    split; [reflexivity|]. split; [reflexivity|].
    split; [reflexivity|]. split; [reflexivity|].
    split; [intros Htrue; discriminate Htrue|].
    intros _. repeat split.
Qed.

(** X25. [_handle_error] counts the error and mirrors the count into the
    persisted state, but whether it trips the kill-switch depends only on
    the order manager's own error count, which it does not change.  If that
    count has reached KILL_SWITCH_ERROR_COUNT the engine flattens (no active
    trade, no pending stop, paused) and sets the kill-switch; otherwise the
    ledger, the pause and the kill-switch stay as they were and nothing is
    asked of the venue, however many errors are handled in a row. *)
Theorem handle_error_kill_switch
    (now : Z) (n : nat) (eng : engine.TradingEngine) :
  let eng' := fst (engine._handle_error now eng) in
  engine.daily_errors eng' = (engine.daily_errors eng + 1)%Z
  /\ state_manager.error_count (engine.eng_state eng')
     = (engine.daily_errors eng + 1)%Z
  /\ engine.eng_orders eng' = engine.eng_orders eng
  /\ (order_manager.should_trigger_kill_switch (engine.eng_orders eng) = true ->
      state_manager.is_kill_switch_active (engine.eng_state eng') = true
      /\ state_manager.active_trades (engine.eng_state eng') = []
      /\ state_manager.pending_stops (engine.eng_state eng') = ∅
      /\ state_manager.is_paused (engine.eng_state eng') = true)
  /\ (order_manager.should_trigger_kill_switch (engine.eng_orders eng) = false ->
      let later := ledger.errors_handled n now eng in
      engine.daily_errors later = (engine.daily_errors eng + Z.of_nat n)%Z
      /\ state_manager.is_kill_switch_active (engine.eng_state later)
         = state_manager.is_kill_switch_active (engine.eng_state eng)
      /\ state_manager.active_trades (engine.eng_state later)
         = state_manager.active_trades (engine.eng_state eng)
      /\ state_manager.pending_stops (engine.eng_state later)
         = state_manager.pending_stops (engine.eng_state eng)
      /\ state_manager.is_paused (engine.eng_state later)
         = state_manager.is_paused (engine.eng_state eng)).
Proof.
  cbv zeta.
  pose proof (handle_error_spec now eng) as (Hd & He & Ho & _ & Htrip & _).
  cbv zeta in *.
  split; [exact Hd|]. split; [exact He|]. split; [exact Ho|].
  split; [exact Htrip|].
  intros Hquiet. induction n as [|n IH].
  - cbn. repeat split. lia.
  - change (ledger.errors_handled (S n) now eng)
      with (fst (engine._handle_error now (ledger.errors_handled n now eng))).
    assert (Hom : engine.eng_orders (ledger.errors_handled n now eng)
                  = engine.eng_orders eng).
    { clear IH. induction n as [|m IHm]; [reflexivity|].
      change (ledger.errors_handled (S m) now eng)
        with (fst (engine._handle_error now
                     (ledger.errors_handled m now eng))).
      pose proof (handle_error_spec now (ledger.errors_handled m now eng))
        as (_ & _ & Ho' & _).
      cbv zeta in Ho'. now rewrite Ho'. }
    pose proof (handle_error_spec now (ledger.errors_handled n now eng))
      as (Hd' & _ & _ & _ & _ & Hquiet').
    cbv zeta in *. rewrite Hom in Hquiet'.
    destruct (Hquiet' Hquiet) as (Hk & Ha & Hp & Hs & _).
    destruct IH as (IH1 & IH2 & IH3 & IH4 & IH5).
    rewrite Hd', Hk, Ha, Hp, Hs, IH1, IH2, IH3, IH4, IH5.
    repeat split. lia.
Qed.

Lemma handle_error_kill_switch_witness :
  state_manager.is_kill_switch_active
    (engine.eng_state
       (ledger.errors_handled 5 3 (ledger.engine_with ledger.aapl_open)))
  = state_manager.is_kill_switch_active ledger.aapl_open
  /\ state_manager.active_trades
       (engine.eng_state
          (fst (engine._handle_error 3
                  (engine.set_eng_orders
                     (scenarios.track_errors
                        [scenarios.minutes 0; scenarios.minutes 1;
                         scenarios.minutes 2] order_manager.__init__)
                     (ledger.engine_with ledger.aapl_open)))))
     = [].
Proof.
  split.
  - destruct (handle_error_kill_switch 3 5
                (ledger.engine_with ledger.aapl_open))
      as (_ & _ & _ & _ & Hquiet).
    apply Hquiet. reflexivity.
  - destruct (handle_error_kill_switch 3 0
                (engine.set_eng_orders
                   (scenarios.track_errors
                      [scenarios.minutes 0; scenarios.minutes 1;
                       scenarios.minutes 2] order_manager.__init__)
                   (ledger.engine_with ledger.aapl_open)))
      as (_ & _ & _ & Htrip & _).
    apply Htrip. reflexivity.
Defined.

(** X26. The entry window lies inside the market hours and ends before the
    flatten time: whenever [is_entry_allowed_time] holds at a time of day,
    [should_flatten_positions] does not, and on a weekday that is no market
    holiday [is_market_open] holds; at or after the flatten time no entry is
    allowed.  On Saturdays, Sundays and the listed holidays the market is
    closed at every time of day. *)
Theorem trading_windows (weekday : Z) (today_str : string) (current_time : Z) :
  (engine.is_entry_allowed_time current_time = true ->
   engine.should_flatten_positions current_time = false
   /\ ((0 <= weekday < 5)%Z ->
       ~ In today_str config.US_MARKET_HOLIDAYS ->
       engine.is_market_open weekday today_str current_time = true))
  /\ (engine.should_flatten_positions current_time = true ->
      engine.is_entry_allowed_time current_time = false)
  /\ ((5 <= weekday)%Z \/ In today_str config.US_MARKET_HOLIDAYS ->
      engine.is_market_open weekday today_str current_time = false).
Proof.
  unfold engine.is_entry_allowed_time, engine.should_flatten_positions,
    engine.is_market_open.
  assert (Hholiday : existsb (String.eqb today_str) config.US_MARKET_HOLIDAYS
                     = true <-> In today_str config.US_MARKET_HOLIDAYS).
  { rewrite existsb_exists. split.
    - intros (x & Hin & Heq). apply String.eqb_eq in Heq. now subst.
    - intros Hin. exists today_str. split; [exact Hin|].
      apply String.eqb_refl. }
  split; [|split].
  - intros Hentry. apply andb_true_iff in Hentry as [H1 H2].
    apply Z.leb_le in H1. apply Z.leb_le in H2.
    unfold config.ENTRY_START_DUBLIN, config.ENTRY_END_DUBLIN,
      config.FLAT_BY_DUBLIN, config.MARKET_OPEN_DUBLIN,
      config.MARKET_CLOSE_DUBLIN, config.time_of_day in *.
    split; [apply Z.leb_gt; lia|].
    intros Hday Hno.
    replace (5 <=? weekday)%Z with false by (symmetry; apply Z.leb_gt; lia).
    destruct (existsb _ _);
      [exfalso; apply Hno; apply Hholiday; reflexivity|].
    apply andb_true_iff. split; apply Z.leb_le; lia.
  - intros Hflat. apply Z.leb_le in Hflat.
    unfold config.ENTRY_START_DUBLIN, config.ENTRY_END_DUBLIN,
      config.FLAT_BY_DUBLIN, config.time_of_day in *.
    apply andb_false_iff. right. apply Z.leb_gt. lia.
  - intros [Hweekend | Hhol].
    + apply Z.leb_le in Hweekend. now rewrite Hweekend.
    + destruct (5 <=? weekday)%Z; [reflexivity|].
      apply Hholiday in Hhol. now rewrite Hhol.
Qed.

Lemma trading_windows_witness :
  engine.should_flatten_positions (config.time_of_day 15 0) = false
  /\ engine.is_market_open 2 "2025-03-05" (config.time_of_day 15 0) = true
  /\ engine.is_market_open 3 "2025-12-25" (config.time_of_day 15 0) = false.
Proof.
  destruct (trading_windows 2 "2025-03-05" (config.time_of_day 15 0))
    as (Hentry & _ & _).
  destruct (trading_windows 3 "2025-12-25" (config.time_of_day 15 0))
    as (_ & _ & Hclosed).
  destruct (Hentry eq_refl) as [Hflat Hopen].
  split; [exact Hflat|]. split.
  - apply Hopen; [lia|].
    intros Hin. cbn in Hin.
    repeat (destruct Hin as [Hin | Hin]; [discriminate Hin|]). exact Hin.
  - apply Hclosed. right. cbn. tauto.
Defined.

(** X27. One iteration of [run_loop] calls [_scan_for_entries] only when
    the kill-switch is off, the market is open, the account was read, the
    daily loss limit is not breached, [_manage_exits] did not raise, it is
    before the flatten time and inside the entry window, and afterwards
    neither the risk manager nor the persisted state blocks entries (a
    circuit breaker tripped in this iteration is on when [_manage_exits]
    starts).  When the daily loss limit is breached, or the flatten time is
    reached after [_manage_exits], the iteration ends with an empty ledger,
    no pending stop and the pause set, and does not scan. *)
Theorem run_loop_outcomes
    (now weekday : Z) (today_str : string)
    (time_open time_flat time_entry : Z)
    (account vix : option Q) (spy : option (Q * Q))
    (_manage_exits _scan_for_entries :
       Q -> engine.TradingEngine -> engine.TradingEngine * bool)
    (eng : engine.TradingEngine) :
  let out :=
    engine.run_loop now weekday today_str time_open time_flat time_entry
      account vix spy _manage_exits _scan_for_entries eng in
  let eng' := fst (fst out) in
  let rm1 := fst (risk_manager.check_daily_loss_limit (engine.eng_risk eng)) in
  let breached :=
    snd (risk_manager.check_daily_loss_limit (engine.eng_risk eng)) in
  (snd out = true ->
   state_manager.is_kill_switch_active (engine.eng_state eng) = false
   /\ engine.is_market_open weekday today_str time_open = true
   /\ breached = false
   /\ engine.should_flatten_positions time_flat = false
   /\ engine.is_entry_allowed_time time_entry = true
   /\ exists equity eng2,
        account = Some equity
        /\ snd (_manage_exits equity eng2) = false
        /\ risk_manager.can_enter_new_trade
             (engine.eng_risk (fst (_manage_exits equity eng2))) = true
        /\ state_manager.is_paused
             (engine.eng_state (fst (_manage_exits equity eng2))) = false
        /\ (forall spy_atr_pct spy_atr_median,
              spy = Some (spy_atr_pct, spy_atr_median) ->
              snd (risk_manager.check_circuit_breaker vix spy_atr_pct
                     spy_atr_median rm1) = true ->
              risk_manager.can_enter_new_trade (engine.eng_risk eng2)
              = false))
  /\ (state_manager.is_kill_switch_active (engine.eng_state eng) = false ->
      engine.is_market_open weekday today_str time_open = true ->
      account <> None ->
      breached = true
      \/ ((forall equity e, snd (_manage_exits equity e) = false)
          /\ engine.should_flatten_positions time_flat = true) ->
      state_manager.active_trades (engine.eng_state eng') = []
      /\ state_manager.pending_stops (engine.eng_state eng') = ∅
      /\ state_manager.is_paused (engine.eng_state eng') = true
      /\ snd out = false
      /\ In engine.CloseAllPositions (snd (fst out))
      /\ In engine.CancelAllOrders (snd (fst out))
      /\ (breached = true ->
          risk_manager.can_enter_new_trade (engine.eng_risk eng') = false
          /\ ~ risk_manager.daily_start_equity (engine.eng_risk eng) == 0)).
Proof.
  cbv zeta. unfold engine.run_loop.
  destruct (state_manager.is_kill_switch_active (engine.eng_state eng))
    eqn:Ekill.
  { split; [intros H; discriminate H | intros H; discriminate H]. }
  destruct (engine.is_market_open weekday today_str time_open) eqn:Eopen;
    cbn [negb].
  2:{ split; [intros H; discriminate H | intros _ H; discriminate H]. }
  destruct account as [equity|].
  2:{ destruct (engine._handle_error now _) as [e a]. cbn [fst snd].
      split; [intros H; discriminate H | intros _ _ H; now contradict H]. }
  assert (Hbreach :
    snd (risk_manager.check_daily_loss_limit (engine.eng_risk eng)) = true ->
    risk_manager.can_enter_new_trade
      (fst (risk_manager.check_daily_loss_limit (engine.eng_risk eng)))
    = false
    /\ ~ risk_manager.daily_start_equity (engine.eng_risk eng) == 0).
  { unfold risk_manager.check_daily_loss_limit.
    destruct (Qeq_bool _ 0) eqn:Ez; [intros H; discriminate H|].
    destruct (Qleb _ _); [|intros H; discriminate H].
    intros _. split; [reflexivity|].
    intros Heq. apply Qeq_bool_iff in Heq. rewrite Heq in Ez.
    discriminate Ez. }
  destruct (risk_manager.check_daily_loss_limit (engine.eng_risk eng))
    as [rm1 breached] eqn:Elimit.
  cbn [fst snd] in *.
  destruct breached.
  { pose proof (flatten_all_spec now (engine.set_eng_risk rm1 eng))
      as (Hl & Hs & Hp & _ & _ & Hr & _ & _ & Ha).
    cbv zeta in *.
    destruct (engine._flatten_all now (engine.set_eng_risk rm1 eng))
      as [eng2 actions].
    cbn [fst snd] in *. subst actions.
    split; [intros H; discriminate H|].
    intros _ _ _ _.
    split; [exact Hl|]. split; [exact Hs|]. split; [exact Hp|].
    split; [reflexivity|]. split; [cbn; tauto|]. split; [cbn; tauto|].
    intros _. rewrite Hr. exact (Hbreach eq_refl). }
  clear Hbreach.
  set (checked :=
    match spy with
    | Some (spy_atr_pct, spy_atr_median) => _
    | None => _
    end).
  assert (Hchecked : forall spy_atr_pct spy_atr_median,
    spy = Some (spy_atr_pct, spy_atr_median) ->
    snd (risk_manager.check_circuit_breaker vix spy_atr_pct spy_atr_median
           rm1) = true ->
    risk_manager.can_enter_new_trade (engine.eng_risk (fst checked)) = false).
  { intros a m Hspy Htrip. subst checked. rewrite Hspy.
    assert (Hon : risk_manager.circuit_breaker_active
                    (fst (risk_manager.check_circuit_breaker vix a m rm1))
                  = true).
    { revert Htrip. unfold risk_manager.check_circuit_breaker.
      destruct (match vix with Some _ => _ | None => _ end);
        [reflexivity|].
      destruct (Qgtb _ _); [reflexivity | intros H; discriminate H]. }
    destruct (risk_manager.check_circuit_breaker vix a m rm1)
      as [rm2 tripped].
    cbn [fst snd] in *. subst tripped. cbn [fst].
    unfold risk_manager.can_enter_new_trade. cbn.
    rewrite Hon. now destruct (risk_manager.paused_until_next_session rm2). }
  destruct checked as [eng2 alerts]. cbn [fst] in Hchecked.
  destruct (_manage_exits equity eng2) as [eng3 raised] eqn:Eexits.
  destruct raised.
  { destruct (engine._handle_error now eng3) as [e a]. cbn [fst snd].
    split; [intros H; discriminate H|].
    intros _ _ _ [H | [Hnever _]]; [discriminate H|].
    specialize (Hnever equity eng2). rewrite Eexits in Hnever.
    discriminate Hnever. }
  destruct (engine.should_flatten_positions time_flat) eqn:Eflat.
  { pose proof (flatten_all_spec now eng3)
      as (Hl & Hs & Hp & _ & _ & _ & _ & _ & Ha).
    cbv zeta in *.
    destruct (engine._flatten_all now eng3) as [eng4 actions].
    cbn [fst snd] in *. subst actions.
    split; [intros H; discriminate H|].
    intros _ _ _ _.
    split; [exact Hl|]. split; [exact Hs|]. split; [exact Hp|].
    split; [reflexivity|].
    split; [apply in_or_app; right; cbn; tauto|].
    split; [apply in_or_app; right; cbn; tauto|].
    intros H. discriminate H. }
  destruct (engine.is_entry_allowed_time time_entry) eqn:Eentry;
    cbn [andb].
  2:{ cbn [fst snd].
      split; [intros H; discriminate H|].
      intros _ _ _ [H | [_ H]]; discriminate H. }
  destruct (risk_manager.can_enter_new_trade (engine.eng_risk eng3))
    eqn:Ecan; cbn [andb].
  2:{ cbn [fst snd].
      split; [intros H; discriminate H|].
      intros _ _ _ [H | [_ H]]; discriminate H. }
  destruct (state_manager.is_paused (engine.eng_state eng3)) eqn:Epaused;
    cbn [negb].
  { cbn [fst snd].
    split; [intros H; discriminate H|].
    intros _ _ _ [H | [_ H]]; discriminate H. }
  split.
  - intros _. repeat (split; [reflexivity|]).
    exists equity, eng2. rewrite Eexits. cbn [fst snd].
    split; [reflexivity|]. split; [reflexivity|].
    split; [exact Ecan|]. split; [exact Epaused|]. exact Hchecked.
  - intros _ _ _ [H | [_ H]]; discriminate H.
Qed.

Lemma run_loop_outcomes_witness :
  state_manager.active_trades
    (engine.eng_state
       (fst (fst (engine.run_loop 5 2 "2025-03-05" (config.time_of_day 20 58)
                    (config.time_of_day 20 58) (config.time_of_day 20 58)
                    (Some 100000) None None
                    (fun _ e => (e, false)) (fun _ e => (e, false))
                    (ledger.engine_with ledger.aapl_open)))))
  = []
  /\ engine.is_entry_allowed_time (config.time_of_day 15 0) = true.
Proof.
  split.
  - refine (proj1 (proj2 (run_loop_outcomes 5 2 "2025-03-05"
                            (config.time_of_day 20 58)
                            (config.time_of_day 20 58)
                            (config.time_of_day 20 58)
                            (Some 100000) None None
                            (fun _ e => (e, false)) (fun _ e => (e, false))
                            (ledger.engine_with ledger.aapl_open)) _ _ _ _)).
    + vm_compute. reflexivity.
    + vm_compute. reflexivity.
    + discriminate.
    + right. split; [intros; reflexivity | vm_compute; reflexivity].
  - refine (proj1 (proj2 (proj2 (proj2 (proj2 (proj1
              (run_loop_outcomes 5 2 "2025-03-05" (config.time_of_day 15 0)
                 (config.time_of_day 15 0) (config.time_of_day 15 0)
                 (Some 100000) None None
                 (fun _ e => (e, false)) (fun _ e => (e, false))
                 (ledger.engine_with state_manager._default_state)) _)))))).
    vm_compute. reflexivity.
Defined.

Lemma loop_without_account_step
    (now weekday : Z) (today_str : string) (current_time : Z)
    (eng : engine.TradingEngine) :
  state_manager.is_kill_switch_active (engine.eng_state eng) = false ->
  engine.is_market_open weekday today_str current_time = true ->
  ledger.loops_without_account weekday today_str current_time [now] eng
  = fst (engine._handle_error now
           (engine.set_eng_orders
              (order_manager._track_error now (engine.eng_orders eng)) eng)).
Proof.
  intros Hkill Hopen.
  unfold ledger.loops_without_account, engine.run_loop. cbn [fold_left].
  rewrite Hkill, Hopen. cbn [negb].
  now destruct (engine._handle_error now _).
Qed.

Lemma loop_without_account_quiet
    (now weekday : Z) (today_str : string) (current_time : Z)
    (eng : engine.TradingEngine) :
  state_manager.is_kill_switch_active (engine.eng_state eng) = false ->
  engine.is_market_open weekday today_str current_time = true ->
  (order_manager.error_count
     (order_manager._track_error now (engine.eng_orders eng))
   < config.KILL_SWITCH_ERROR_COUNT)%Z ->
  let eng' :=
    ledger.loops_without_account weekday today_str current_time [now] eng in
  engine.eng_orders eng'
  = order_manager._track_error now (engine.eng_orders eng)
  /\ engine.daily_errors eng' = (engine.daily_errors eng + 1)%Z
  /\ state_manager.is_kill_switch_active (engine.eng_state eng') = false
  /\ state_manager.active_trades (engine.eng_state eng')
     = state_manager.active_trades (engine.eng_state eng)
  /\ state_manager.pending_stops (engine.eng_state eng')
     = state_manager.pending_stops (engine.eng_state eng)
  /\ state_manager.is_paused (engine.eng_state eng')
     = state_manager.is_paused (engine.eng_state eng).
Proof.
  intros Hkill Hopen Hcount. cbv zeta.
  rewrite (loop_without_account_step _ _ _ _ _ Hkill Hopen).
  pose proof (handle_error_spec now
                (engine.set_eng_orders
                   (order_manager._track_error now (engine.eng_orders eng))
                   eng)) as (Hd & _ & Ho & _ & _ & Hquiet).
  cbv zeta in *.
  assert (Hno : order_manager.should_trigger_kill_switch
                  (engine.eng_orders
                     (engine.set_eng_orders
                        (order_manager._track_error now
                           (engine.eng_orders eng)) eng)) = false).
  { unfold order_manager.should_trigger_kill_switch. apply Z.leb_gt.
    exact Hcount. }
  destruct (Hquiet Hno) as (Hk & Ha & Hp & Hs & _).
  rewrite Ho, Hd, Hk, Ha, Hp, Hs.
  repeat split. exact Hkill.
Qed.

Lemma track_error_next (now last : Z) (self : order_manager.OrderManager) :
  order_manager.last_error_time self = Some last ->
  ((now - last <= scenarios.window_microseconds)%Z ->
   order_manager.error_count (order_manager._track_error now self)
   = (order_manager.error_count self + 1)%Z)
  /\ ((scenarios.window_microseconds < now - last)%Z ->
      order_manager.error_count (order_manager._track_error now self) = 1%Z).
Proof.
  intros Hlast. unfold order_manager._track_error, scenarios.window_microseconds.
  rewrite Hlast. cbn [order_manager.error_count].
  split; intros Hgap.
  - replace (_ <? _)%Z with false by (symmetry; apply Z.ltb_ge; exact Hgap).
    reflexivity.
  - replace (_ <? _)%Z with true by (symmetry; apply Z.ltb_lt; exact Hgap).
    reflexivity.
Qed.

Lemma track_error_first (now : Z) (self : order_manager.OrderManager) :
  order_manager.error_count self = 0%Z ->
  order_manager.error_count (order_manager._track_error now self) = 1%Z.
Proof.
  intros Hzero. unfold order_manager._track_error.
  cbn [order_manager.error_count]. rewrite Hzero.
  now destruct (match order_manager.last_error_time self with
                | Some _ => _ | None => _ end).
Qed.

Lemma loops_without_account_halted
    (weekday : Z) (today_str : string) (current_time : Z) (ticks : list Z)
    (eng : engine.TradingEngine) :
  state_manager.is_kill_switch_active (engine.eng_state eng) = true ->
  ledger.loops_without_account weekday today_str current_time ticks eng = eng.
Proof.
  intros Hkill. induction ticks as [|t ticks IH]; [reflexivity|].
  unfold ledger.loops_without_account in *. cbn [fold_left].
  unfold engine.run_loop at 2. rewrite Hkill. cbn [fst]. exact IH.
Qed.

Lemma loops_without_account_app
    (weekday : Z) (today_str : string) (current_time : Z) (a b : list Z)
    (eng : engine.TradingEngine) :
  ledger.loops_without_account weekday today_str current_time (a ++ b) eng
  = ledger.loops_without_account weekday today_str current_time b
      (ledger.loops_without_account weekday today_str current_time a eng).
Proof. unfold ledger.loops_without_account. apply fold_left_app. Qed.

(** X28. Failures to read the account feed the kill-switch: when three
    iterations of [run_loop] in a row fail at [get_account] with the market
    open, each at most KILL_SWITCH_WINDOW_MINUTES after the one before, the
    third sets the kill-switch and leaves no active trade, no pending stop
    and the pause set, and every later iteration changes nothing.  When one
    of the two gaps is longer than the window, the kill-switch stays off and
    the ledger is as it was. *)
Theorem account_failures_trip_kill_switch
    (weekday : Z) (today_str : string) (current_time : Z) (t1 t2 t3 : Z)
    (eng : engine.TradingEngine) :
  state_manager.is_kill_switch_active (engine.eng_state eng) = false ->
  engine.is_market_open weekday today_str current_time = true ->
  order_manager.error_count (engine.eng_orders eng) = 0%Z ->
  let run := ledger.loops_without_account weekday today_str current_time in
  let eng' := run [t1; t2; t3] eng in
  engine.daily_errors eng' = (engine.daily_errors eng + 3)%Z
  /\ ((t2 - t1 <= scenarios.window_microseconds)%Z ->
      (t3 - t2 <= scenarios.window_microseconds)%Z ->
      state_manager.is_kill_switch_active (engine.eng_state eng') = true
      /\ state_manager.active_trades (engine.eng_state eng') = []
      /\ state_manager.pending_stops (engine.eng_state eng') = ∅
      /\ state_manager.is_paused (engine.eng_state eng') = true
      /\ forall later, run later eng' = eng')
  /\ ((scenarios.window_microseconds < t2 - t1)%Z
      \/ (scenarios.window_microseconds < t3 - t2)%Z ->
      state_manager.is_kill_switch_active (engine.eng_state eng') = false
      /\ state_manager.active_trades (engine.eng_state eng')
         = state_manager.active_trades (engine.eng_state eng)
      /\ state_manager.pending_stops (engine.eng_state eng')
         = state_manager.pending_stops (engine.eng_state eng)).
Proof.
  intros Hkill Hopen Hzero. cbv zeta.
  change [t1; t2; t3] with ([t1] ++ [t2] ++ [t3]).
  rewrite !loops_without_account_app.
  set (run := ledger.loops_without_account weekday today_str current_time).
  pose proof (track_error_first t1 _ Hzero) as Hc1.
  destruct (loop_without_account_quiet t1 weekday today_str current_time eng
              Hkill Hopen) as (Ho1 & Hd1 & Hk1 & Ha1 & Hp1 & _).
  { rewrite Hc1. reflexivity. }
  fold run in Ho1, Hd1, Hk1, Ha1, Hp1.
  set (e1 := run [t1] eng) in *.
  destruct (track_error_next t2 t1 (engine.eng_orders e1)) as [Hnear2 Hfar2].
  { rewrite Ho1. reflexivity. }
  assert (Hc2 : (1 <= order_manager.error_count
                        (order_manager._track_error t2 (engine.eng_orders e1))
                 <= 2)%Z).
  { destruct (Z_le_gt_dec (t2 - t1) scenarios.window_microseconds) as [H | H].
    - rewrite (Hnear2 H), Ho1, Hc1. lia.
    - rewrite (Hfar2 ltac:(lia)). lia. }
  destruct (loop_without_account_quiet t2 weekday today_str current_time e1
              Hk1 Hopen) as (Ho2 & Hd2 & Hk2 & Ha2 & Hp2 & _).
  { unfold config.KILL_SWITCH_ERROR_COUNT. lia. }
  fold run in Ho2, Hd2, Hk2, Ha2, Hp2.
  set (e2 := run [t2] e1) in *.
  destruct (track_error_next t3 t2 (engine.eng_orders e2)) as [Hnear3 Hfar3].
  { rewrite Ho2. reflexivity. }
  pose proof (loop_without_account_step t3 weekday today_str current_time e2
                Hk2 Hopen) as Hstep.
  fold run in Hstep.
  pose proof (handle_error_spec t3
                (engine.set_eng_orders
                   (order_manager._track_error t3 (engine.eng_orders e2)) e2))
    as (Hd3 & _ & _ & _ & Htrip & Hquiet).
  cbv zeta in Hd3, Htrip, Hquiet. rewrite <- Hstep in Hd3, Htrip, Hquiet.
  cbn [engine.eng_orders engine.set_eng_orders engine.daily_errors
       engine.eng_state] in Hd3, Htrip, Hquiet.
  set (e3 := run [t3] e2) in *.
  split; [rewrite Hd3, Hd2, Hd1; lia|].
  split.
  - intros Hg2 Hg3.
    assert (Hthree : order_manager.should_trigger_kill_switch
                       (order_manager._track_error t3 (engine.eng_orders e2))
                     = true).
    { unfold order_manager.should_trigger_kill_switch.
      rewrite (Hnear3 Hg3), Ho2, (Hnear2 Hg2), Ho1, Hc1. reflexivity. }
    destruct (Htrip Hthree) as (Hk3 & Ha3 & Hp3 & Hs3).
    split; [exact Hk3|]. split; [exact Ha3|]. split; [exact Hp3|].
    split; [exact Hs3|].
    intros later. now apply loops_without_account_halted.
  - intros Hfar.
    assert (Hbelow : order_manager.should_trigger_kill_switch
                       (order_manager._track_error t3 (engine.eng_orders e2))
                     = false).
    { unfold order_manager.should_trigger_kill_switch,
        config.KILL_SWITCH_ERROR_COUNT.
      apply Z.leb_gt.
      destruct (Z_le_gt_dec (t3 - t2) scenarios.window_microseconds)
        as [H3 | H3].
      - rewrite (Hnear3 H3), Ho2.
        destruct Hfar as [H2 | H2]; [|lia].
        rewrite (Hfar2 H2). lia.
      - rewrite (Hfar3 ltac:(lia)). lia. }
    destruct (Hquiet Hbelow) as (Hk3 & Ha3 & Hp3 & _).
    rewrite Hk3, Ha3, Hp3, Ha2, Hp2, Ha1, Hp1.
    split; [exact Hk2|]. split; reflexivity.
Qed.

Lemma account_failures_trip_kill_switch_witness :
  state_manager.is_kill_switch_active
    (engine.eng_state
       (ledger.loops_without_account 2 "2025-03-05" (config.time_of_day 15 0)
          [scenarios.minutes 0; scenarios.minutes 6; scenarios.minutes 12]
          (ledger.engine_with ledger.aapl_open)))
  = true
  /\ state_manager.is_kill_switch_active
       (engine.eng_state
          (ledger.loops_without_account 2 "2025-03-05"
             (config.time_of_day 15 0)
             [scenarios.minutes 0; scenarios.minutes 6; scenarios.minutes 17]
             (ledger.engine_with ledger.aapl_open)))
     = false.
Proof.
  split.
  - destruct (account_failures_trip_kill_switch 2 "2025-03-05"
                (config.time_of_day 15 0)
                (scenarios.minutes 0) (scenarios.minutes 6)
                (scenarios.minutes 12)
                (ledger.engine_with ledger.aapl_open)
                eq_refl eq_refl eq_refl) as (_ & Hnear & _).
    apply Hnear; vm_compute; discriminate.
  - destruct (account_failures_trip_kill_switch 2 "2025-03-05"
                (config.time_of_day 15 0)
                (scenarios.minutes 0) (scenarios.minutes 6)
                (scenarios.minutes 17)
                (ledger.engine_with ledger.aapl_open)
                eq_refl eq_refl eq_refl) as (_ & _ & Hfar).
    apply Hfar. right. vm_compute. reflexivity.
Defined.

(** ** Leaving and reducing a position *)






Lemma partial_qty_half (n : Z) :
  py_int (inject_Z n * config.PARTIAL_TAKE_PERCENT) = (n ÷ 2)%Z.
Proof.
  unfold py_int, config.PARTIAL_TAKE_PERCENT. cbn.
  change (Z.pos (1 * 100)) with (2 * 50)%Z.
  apply Z.quot_mul_cancel_r; lia.
Qed.

Lemma half_bounds (n : Z) :
  ((n < 2 -> n ÷ 2 < 1)
   /\ (2 <= n -> 1 <= n ÷ 2 /\ n ÷ 2 <= n - n ÷ 2 <= n ÷ 2 + 1))%Z.
Proof.
  split.
  - intros Hsmall. destruct (Z_lt_le_dec n 0) as [Hneg | Hpos].
    + assert (n ÷ 2 <= 0)%Z by (apply Z.quot_le_upper_bound; lia). lia.
    + rewrite Z.quot_div_nonneg by lia.
      assert (n / 2 < 1)%Z by (apply Z.div_lt_upper_bound; lia). lia.
  - intros Hbig. rewrite Z.quot_div_nonneg by lia.
    pose proof (Z.div_mod n 2 ltac:(lia)) as Hdm.
    pose proof (Z.mod_pos_bound n 2 ltac:(lia)) as Hm.
    lia.
Qed.

(** X30. [_take_partial_profit] asks nothing of the venue and changes
    nothing when the position's quantity, truncated to an integer, is below
    two; a short position reported with a negative quantity is such a case.
    From two shares on it submits one market order for half the position,
    rounded down, on the closing side.  When the order is accepted the
    ledger holds the trade with the rest as its quantity (at least the half
    sold, at most one more) and marked as partially taken, while its stop
    price, its pending stop and the registered risk stay as they were; when
    the order is refused only an error is tracked. *)
Theorem partial_profit_rules (now : Z) (order_ok : bool) (trade_id : string)
    (trade : state_manager.Trade) (position : state_manager.Position)
    (eng : engine.TradingEngine) :
  let out :=
    engine._take_partial_profit now order_ok trade_id trade position eng in
  let eng' := fst (fst out) in
  let trade' := snd (fst out) in
  let current_qty := py_int (state_manager.pos_qty position) in
  ((current_qty < 2)%Z -> out = (eng, trade, []))
  /\ ((2 <= current_qty)%Z ->
      exists partial_qty,
        (1 <= partial_qty)%Z
        /\ (partial_qty <= current_qty - partial_qty <= partial_qty + 1)%Z
        /\ snd out
           = [engine.SubmitMarketOrder (state_manager.symbol trade)
                partial_qty
                (if String.eqb (state_manager.side trade) "long"
                 then "sell" else "buy")]
        /\ engine.eng_risk eng' = engine.eng_risk eng
        /\ state_manager.pending_stops (engine.eng_state eng')
           = state_manager.pending_stops (engine.eng_state eng)
        /\ (order_ok = true ->
            state_manager.qty trade' = (current_qty - partial_qty)%Z
            /\ state_manager.partial_taken trade' = true
            /\ state_manager.stop_price trade'
               = state_manager.stop_price trade
            /\ state_manager.risk_amount trade'
               = state_manager.risk_amount trade
            /\ dict_get trade_id
                 (state_manager.active_trades (engine.eng_state eng'))
               = Some trade'
            /\ (forall other, other <> trade_id ->
                dict_get other
                  (state_manager.active_trades (engine.eng_state eng'))
                = dict_get other
                    (state_manager.active_trades (engine.eng_state eng)))
            /\ engine.eng_orders eng' = engine.eng_orders eng)
        /\ (order_ok = false ->
            trade' = trade
            /\ engine.eng_state eng' = engine.eng_state eng
            /\ engine.eng_orders eng'
               = order_manager._track_error now (engine.eng_orders eng))).
Proof.
  cbv zeta. unfold engine._take_partial_profit.
  rewrite partial_qty_half.
  set (current_qty := py_int (state_manager.pos_qty position)).
  destruct (half_bounds current_qty) as [Hsmall Hbig].
  split.
  - intros Hlt. specialize (Hsmall Hlt).
    replace (_ <? 1)%Z with true by (symmetry; apply Z.ltb_lt; lia).
    reflexivity.
  - intros Hge. destruct (Hbig Hge) as [Hone Hhalf].
    replace (_ <? 1)%Z with false by (symmetry; apply Z.ltb_ge; lia).
    exists (current_qty ÷ 2)%Z.
    split; [exact Hone|]. split; [exact Hhalf|].
    destruct order_ok; cbn [fst snd].
    + split; [reflexivity|]. split; [reflexivity|]. split; [reflexivity|].
      split; [|intros H; discriminate H].
      intros _. cbn.
      split; [reflexivity|]. split; [reflexivity|]. split; [reflexivity|].
      split; [reflexivity|]. split; [apply dict_get_set|].
      split; [|reflexivity].
      intros other Hne. now apply dict_get_set_ne.
    + split; [reflexivity|]. split; [reflexivity|]. split; [reflexivity|].
      split; [intros H; discriminate H|].
      intros _. repeat split.
Qed.

Lemma partial_profit_rules_witness :
  engine._take_partial_profit 9 true "T2" ledger.tsla_short
    (ledger.short_position "TSLA" 100 190)
    (ledger.engine_with ledger.tsla_open)
  = (ledger.engine_with ledger.tsla_open, ledger.tsla_short, [])
  /\ exists partial_qty,
       (partial_qty <= 125)%Z
       /\ snd (engine._take_partial_profit 9 true "T1" ledger.aapl_long
                 (ledger.long_position "AAPL" 250 106)
                 (ledger.engine_with ledger.aapl_open))
          = [engine.SubmitMarketOrder "AAPL" partial_qty "sell"].
Proof.
  split.
  - refine (proj1 (partial_profit_rules 9 true "T2" ledger.tsla_short
                     (ledger.short_position "TSLA" 100 190)
                     (ledger.engine_with ledger.tsla_open)) _).
    vm_compute. reflexivity.
  - destruct (proj2 (partial_profit_rules 9 true "T1" ledger.aapl_long
                       (ledger.long_position "AAPL" 250 106)
                       (ledger.engine_with ledger.aapl_open)))
      as (partial_qty & _ & Hhalf & Hasked & _).
    + vm_compute. discriminate.
    + exists partial_qty. split; [|exact Hasked].
      change (py_int
                (state_manager.pos_qty
                   (ledger.long_position "AAPL" 250 106)))
        with 250%Z in Hhalf.
      lia.
Defined.
